(** * DuckStation hardware renderer: texture cache and batch predicates

    A shallow embedding of [src/core/gpu_hw_texture_cache.{h,cpp}], of
    the inline members of [src/core/gpu_hw.h] and of the texture IDs,
    source options and passes of [src/util/postprocessing_shader_fx.cpp],
    with the properties the specification states about them and further
    properties of the code.

    Conventions.
    - [u8], [u16], [u32] values are integers in [Z]; where the source
      computes in [u32] the wrap-around is written with [wrap32].
    - [g_vram] is a function from a word index to the stored word; a load
      truncates to 16 bits ([load16]).
    - Pointers are indices: a [Source*] is an address in the source heap, a
      [SourceListNode*] is a source address with an index into its
      [page_refs] array, a [SourceList*] is an index into
      [m_page_sources].  A null pointer is [None].
    - [float] values are IEEE 754 binary32 numbers, as the standard
      library's [SpecFloat] with 24 bits of precision and [emax] 128.
    - Dereferencing a dangling or null pointer, indexing an array out of
      range and reaching an unreachable switch case are undefined in the
      source; the embedding returns [None] there.  [DebugAssert] is
      compiled out in release builds and is not modelled as a check. *)

From Stdlib Require Import ZArith Lia List Bool.
From Stdlib Require SpecFloat String.
From stdpp Require Import base option list gmap.

Local Open Scope Z_scope.

(** ** Machine integers *)

Definition wrap32 (z : Z) : Z := z mod 2 ^ 32.
Definition wrap16 (z : Z) : Z := z mod 2 ^ 16.

(** ** Constants

    [gpu_types.h] is not part of the available sources.  *)

(** Modelled from the spec: [VRAM_WIDTH] and [VRAM_HEIGHT] of the absent
    [gpu_types.h]; video memory is a fixed grid of 16-bit pixels split into
    32 pages (page index 0-31) of 64x256 pixels, that is 16 pages across
    and 2 down. *)
Definition VRAM_WIDTH : Z := 1024.
Definition VRAM_HEIGHT : Z := 512.

(** Modelled from the spec: [TEXTURE_PAGE_WIDTH] and [TEXTURE_PAGE_HEIGHT]
    of the absent [gpu_types.h]; a texture page is 256 texels wide (64
    words in 4-bit mode, 128 in 8-bit mode, 256 in 16-bit mode) and one
    page height (256) tall. *)
Definition TEXTURE_PAGE_WIDTH : Z := 256.
Definition TEXTURE_PAGE_HEIGHT : Z := 256.

Definition VRAM_PAGE_WIDTH : Z := 64.
Definition VRAM_PAGE_HEIGHT : Z := 256.
Definition VRAM_PAGES_WIDE : Z := VRAM_WIDTH / VRAM_PAGE_WIDTH.
Definition VRAM_PAGES_HIGH : Z := VRAM_HEIGHT / VRAM_PAGE_HEIGHT.
Definition NUM_PAGES : Z := VRAM_PAGES_WIDE * VRAM_PAGES_HIGH.
Definition MAX_PAGE_REFS_PER_SOURCE : nat := 6.

Definition PageIndex (px py : Z) : Z := wrap32 (wrap32 (py * VRAM_PAGES_WIDE) + px).

Definition VRAMCoordinateToPage (x y : Z) : Z :=
  PageIndex (x / VRAM_PAGE_WIDTH) (y / VRAM_PAGE_HEIGHT).

(** ** Enumerations *)

(** Modelled from the spec: the enumeration [GPUTextureMode] of the absent
    [gpu_types.h], with the enumerators the sources name (4-bit palette,
    8-bit palette, 16-bit direct and its reserved alias, disabled).  The
    first four have the values 0 to 3 ([SourceToString] indexes a table of
    four names with them). *)
Inductive GPUTextureMode : Set :=
  | Palette4Bit
  | Palette8Bit
  | Direct16Bit
  | Reserved_Direct16Bit
  | Disabled.

Definition GPUTextureMode_to_u8 (m : GPUTextureMode) : Z :=
  match m with
  | Palette4Bit => 0
  | Palette8Bit => 1
  | Direct16Bit => 2
  | Reserved_Direct16Bit => 3
  | Disabled => 8
  end.

(** [mode < GPUTextureMode::Direct16Bit] *)
Definition mode_is_paletted (m : GPUTextureMode) : bool :=
  GPUTextureMode_to_u8 m <? GPUTextureMode_to_u8 Direct16Bit.

#[global] Instance GPUTextureMode_eq_dec : EqDecision GPUTextureMode.
Proof. solve_decision. Defined.

(** Modelled from the spec: the enumeration [GPUTransparencyMode] of the
    absent [gpu_types.h]: disabled or one of the four blend equations. *)
Inductive GPUTransparencyMode : Set :=
  | HalfBackgroundPlusHalfForeground
  | BackgroundPlusForeground
  | BackgroundMinusForeground
  | BackgroundPlusQuarterForeground
  | TransparencyDisabledMode.

#[global] Instance GPUTransparencyMode_eq_dec : EqDecision GPUTransparencyMode.
Proof. solve_decision. Defined.

(** ** [GPU_HW]: batch configuration and the inline predicates *)

Module GPU_HW.

Inductive BatchRenderMode : Set :=
  | TransparencyDisabled
  | TransparentAndOpaque
  | OnlyOpaque
  | OnlyTransparent.

Record BatchConfig : Set := {
  texture_mode : GPUTextureMode;
  transparency_mode : GPUTransparencyMode;
  dithering : bool;
  interlacing : bool;
  set_mask_while_drawing : bool;
  check_mask_before_draw : bool;
  use_depth_buffer : bool
}.

Definition GetRenderMode (b : BatchConfig) : BatchRenderMode :=
  if decide (transparency_mode b = TransparencyDisabledMode)
  then TransparencyDisabled
  else TransparentAndOpaque.

(** The members of [GPU_HW] the predicates read. *)
Record t : Set := {
  m_batch : BatchConfig;
  m_supports_dual_source_blend : bool;
  m_current_depth : Z
}.

Definition NeedsTwoPassRendering (g : t) : bool :=
  bool_decide (texture_mode (m_batch g) <> Disabled) &&
  (bool_decide (transparency_mode (m_batch g) = BackgroundMinusForeground) ||
   (negb (m_supports_dual_source_blend g) &&
    bool_decide (transparency_mode (m_batch g) <> TransparencyDisabledMode))).

(** Single-precision arithmetic: round to nearest, ties to even. *)
Definition f32_sub : SpecFloat.spec_float -> SpecFloat.spec_float -> SpecFloat.spec_float :=
  SpecFloat.SFsub 24 128.
Definition f32_div : SpecFloat.spec_float -> SpecFloat.spec_float -> SpecFloat.spec_float :=
  SpecFloat.SFdiv 24 128.
(** [static_cast<float>] of an [s32]. *)
Definition f32_of_s32 (z : Z) : SpecFloat.spec_float :=
  SpecFloat.binary_normalize 24 128 z 0 false.
(** The literals [0.0f], [1.0f] and [65535.0f]. *)
Definition f32_zero : SpecFloat.spec_float := SpecFloat.S754_zero false.
Definition f32_one : SpecFloat.spec_float := SpecFloat.S754_finite false 8388608 (-23).
Definition f32_65535 : SpecFloat.spec_float := SpecFloat.S754_finite false 16776960 (-8).

Definition GetCurrentNormalizedVertexDepth (g : t) : SpecFloat.spec_float :=
  f32_sub f32_one (f32_div (f32_of_s32 (m_current_depth g)) f32_65535).

(** Modelled from the spec: the draws a flush issues for the batch; the
    body of [FlushRender] is in [gpu_hw.cpp], which is not available.  A
    batch that needs two passes is drawn once restricted to opaque texels
    and once restricted to blended texels, any other batch once with its
    own render mode. *)
Definition FlushRender_draws (g : t) : list BatchRenderMode :=
  if NeedsTwoPassRendering g
  then [OnlyOpaque; OnlyTransparent]
  else [GetRenderMode (m_batch g)].

Definition MAX_BATCH_VERTEX_COUNTER_IDS : Z := 65536 - 2.

(** *** [BatchVertex] *)

Record BatchVertex : Set := {
  bv_x : SpecFloat.spec_float;
  bv_y : SpecFloat.spec_float;
  bv_z : SpecFloat.spec_float;
  bv_w : SpecFloat.spec_float;
  bv_color : Z;       (* u32 *)
  bv_texpage : Z;     (* u32 *)
  bv_u : Z;           (* u16 *)
  bv_v : Z;           (* u16 *)
  bv_uv_limits : Z    (* u32 *)
}.

(** [Set] with separate texture coordinates: every member is assigned. *)
Definition BatchVertex_Set (x_ y_ z_ w_ : SpecFloat.spec_float)
           (color_ texpage_ u_ v_ uv_limits_ : Z) : BatchVertex :=
  {| bv_x := x_; bv_y := y_; bv_z := z_; bv_w := w_;
     bv_color := color_; bv_texpage := texpage_;
     bv_u := u_; bv_v := v_; bv_uv_limits := uv_limits_ |}.

(** [Set] with a packed texture coordinate; the two [int] expressions
    are converted to the [u16] parameters of the other overload. *)
Definition BatchVertex_Set_packed (x_ y_ z_ w_ : SpecFloat.spec_float)
           (color_ texpage_ packed_texcoord uv_limits_ : Z) : BatchVertex :=
  BatchVertex_Set x_ y_ z_ w_ color_ texpage_
    (wrap16 (Z.land packed_texcoord 255)) (wrap16 (Z.shiftr packed_texcoord 8)) uv_limits_.

Definition PackUVLimits (min_u max_u min_v max_v : Z) : Z :=
  Z.lor (Z.lor (Z.lor min_u (wrap32 (Z.shiftl min_v 8))) (wrap32 (Z.shiftl max_u 16)))
        (wrap32 (Z.shiftl max_v 24)).

Definition SetUVLimits (min_u max_u min_v max_v : Z) (self : BatchVertex) : BatchVertex :=
  {| bv_x := bv_x self; bv_y := bv_y self; bv_z := bv_z self; bv_w := bv_w self;
     bv_color := bv_color self; bv_texpage := bv_texpage self;
     bv_u := bv_u self; bv_v := bv_v self;
     bv_uv_limits := PackUVLimits min_u max_u min_v max_v |}.

(** *** The batch vertex buffer

    The three vertex pointers are indices into the mapped buffer, in
    units of one [BatchVertex]; [mapped] is the content written so far. *)
Record VertexBuffer : Type := {
  m_batch_start_vertex_ptr : Z;
  m_batch_end_vertex_ptr : Z;
  m_batch_current_vertex_ptr : Z;
  mapped : Z -> option BatchVertex
}.

Definition IsFlushed (b : VertexBuffer) : bool :=
  m_batch_current_vertex_ptr b =? m_batch_start_vertex_ptr b.

Definition GetBatchVertexSpace (b : VertexBuffer) : Z :=
  wrap32 (m_batch_end_vertex_ptr b - m_batch_current_vertex_ptr b).

Definition GetBatchVertexCount (b : VertexBuffer) : Z :=
  wrap32 (m_batch_current_vertex_ptr b - m_batch_start_vertex_ptr b).

(** [AddVertex]: copy the vertex to the current position and advance. *)
Definition AddVertex (v : BatchVertex) (b : VertexBuffer) : VertexBuffer :=
  {| m_batch_start_vertex_ptr := m_batch_start_vertex_ptr b;
     m_batch_end_vertex_ptr := m_batch_end_vertex_ptr b;
     m_batch_current_vertex_ptr := m_batch_current_vertex_ptr b + 1;
     mapped := fun i => if i =? m_batch_current_vertex_ptr b then Some v else mapped b i |}.

End GPU_HW.

(** ** Texture decoding *)

(** [g_vram]: word index to stored word. *)
Definition VRAM : Type := Z -> Z.

Definition load16 (vram : VRAM) (i : Z) : Z := wrap16 (vram i).

Definition PageStartX (pn : Z) : Z :=
  wrap32 ((pn mod VRAM_PAGES_WIDE) * VRAM_PAGE_WIDTH).

Definition PageStartY (pn : Z) : Z :=
  wrap32 ((pn / VRAM_PAGES_WIDE) * VRAM_PAGE_HEIGHT).

(** The index into [g_vram] of the first word of page [pn]. *)
Definition VRAMPagePointer (pn : Z) : Z :=
  let start_y := PageStartY pn in
  let start_x := PageStartX pn in
  wrap32 (wrap32 (start_y * VRAM_WIDTH) + start_x).

(** The palette register: a 16-bit word. *)
Record GPUTexturePaletteReg : Set := { bits : Z }.

(** Modelled from the spec: the accessors of [GPUTexturePaletteReg], whose
    declaration is in the absent [gpu_types.h].  The register holds the
    palette's base X and base Y in video memory: X in units of 16 pixels in
    the low 6 bits, Y in the next 9 bits. *)
Definition GetXBase (p : GPUTexturePaletteReg) : Z := Z.land (bits p) 63 * 16.
Definition GetYBase (p : GPUTexturePaletteReg) : Z := Z.land (Z.shiftr (bits p) 6) 511.

(** Modelled from the spec: [GPUTexturePaletteReg::GetWidth] of the absent
    [gpu_types.h]: the palette width of the mode, one entry per index of a
    4-bit (16) or 8-bit (256) texel. *)
Definition GetWidth (m : GPUTextureMode) : Z :=
  match m with
  | Palette4Bit => 16
  | Palette8Bit => 256
  | _ => 0
  end.

Definition RGBA8888 (r g b a : Z) : Z :=
  Z.lor (Z.lor (Z.lor r (Z.shiftl g 8)) (Z.shiftl b 16)) (Z.shiftl a 24).

(** Modelled from the spec: [VRAMRGBA5551ToRGBA8888] of the absent
    [gpu_types.h]: a 5-5-5-1 pixel becomes an 8-bit-per-channel RGBA
    texel; each 5-bit channel is widened to 8 bits and the mask bit
    becomes an alpha of 0 or 255. *)
Definition E5TO8 (c : Z) : Z := Z.shiftr (c * 527 + 23) 6.

Definition VRAMRGBA5551ToRGBA8888 (color : Z) : Z :=
  let r := E5TO8 (Z.land color 31) in
  let g := E5TO8 (Z.land (Z.shiftr color 5) 31) in
  let b := E5TO8 (Z.land (Z.shiftr color 10) 31) in
  let a := if Z.shiftr color 15 =? 0 then 0 else 255 in
  RGBA8888 r g b a.

Section Decode.

(** The pixel conversion applied to every decoded texel. *)
Variable conv : Z -> Z.
Variable vram : VRAM.

(** The inner loops: [n] iterations starting at [page_ptr]; the result
    is the run of texels written through [dest_ptr]. *)
Fixpoint DecodeTexture4_row (n : nat) (palette page_ptr : Z) : list Z :=
  match n with
  | O => []
  | S n' =>
      let pp := load16 vram page_ptr in
      conv (load16 vram (palette + Z.land pp 15))
      :: conv (load16 vram (palette + Z.land (Z.shiftr pp 4) 15))
      :: conv (load16 vram (palette + Z.land (Z.shiftr pp 8) 15))
      :: conv (load16 vram (palette + Z.shiftr pp 12))
      :: DecodeTexture4_row n' palette (page_ptr + 1)
  end.

Fixpoint DecodeTexture8_row (n : nat) (palette page_ptr : Z) : list Z :=
  match n with
  | O => []
  | S n' =>
      let pp := load16 vram page_ptr in
      conv (load16 vram (palette + Z.land pp 255))
      :: conv (load16 vram (palette + Z.shiftr pp 8))
      :: DecodeTexture8_row n' palette (page_ptr + 1)
  end.

Fixpoint DecodeTexture16_row (n : nat) (page_ptr : Z) : list Z :=
  match n with
  | O => []
  | S n' => conv (load16 vram page_ptr) :: DecodeTexture16_row n' (page_ptr + 1)
  end.

(** The outer loop: [n] rows, [page] advancing by [VRAM_WIDTH] words and
    [dest] by one stride per row; the result is the list of rows. *)
Fixpoint decode_rows (row : Z -> list Z) (n : nat) (page : Z) : list (list Z) :=
  match n with
  | O => []
  | S n' => row page :: decode_rows row n' (page + VRAM_WIDTH)
  end.

Definition DecodeTexture4 (page palette : Z) : list (list Z) :=
  decode_rows (DecodeTexture4_row (Z.to_nat (TEXTURE_PAGE_WIDTH / 4)) palette)
              (Z.to_nat TEXTURE_PAGE_HEIGHT) page.

Definition DecodeTexture8 (page palette : Z) : list (list Z) :=
  decode_rows (DecodeTexture8_row (Z.to_nat (TEXTURE_PAGE_WIDTH / 2)) palette)
              (Z.to_nat TEXTURE_PAGE_HEIGHT) page.

Definition DecodeTexture16 (page : Z) : list (list Z) :=
  decode_rows (DecodeTexture16_row (Z.to_nat TEXTURE_PAGE_WIDTH))
              (Z.to_nat TEXTURE_PAGE_HEIGHT) page.

(** [DecodeTexture(page, palette, mode, dest, dest_stride)]; [None] is
    the unreachable default case. *)
Definition DecodeTexture (page : Z) (palette : GPUTexturePaletteReg)
           (mode : GPUTextureMode) : option (list (list Z)) :=
  let page_ptr := VRAMPagePointer page in
  match mode with
  | Palette4Bit =>
      Some (DecodeTexture4 page_ptr (GetYBase palette * VRAM_WIDTH + GetXBase palette))
  | Palette8Bit =>
      Some (DecodeTexture8 page_ptr (GetYBase palette * VRAM_WIDTH + GetXBase palette))
  | Direct16Bit | Reserved_Direct16Bit =>
      Some (DecodeTexture16 page_ptr)
  | Disabled => None
  end.

End Decode.

(** Nibble [k] and byte [k] of a word, counted from the low end. *)
Definition nibble (k pp : Z) : Z := Z.land (Z.shiftr pp (4 * k)) 15.
Definition byte_of (k pp : Z) : Z := Z.land (Z.shiftr pp (8 * k)) 255.

(** The texel at column [x] of row [y]. *)
Definition texel (t : list (list Z)) (x y : nat) : option Z :=
  t !! y ≫= (fun r => r !! x).

(** ** The texture cache *)

Module GPUTextureCache.

(** *** Data *)

Record SourceKey : Set := {
  key_page : Z;                       (* u8 *)
  key_mode : GPUTextureMode;
  key_palette : GPUTexturePaletteReg
}.

(** [operator==] compares the four bytes of the key: all three fields. *)
#[global] Instance GPUTexturePaletteReg_eq_dec : EqDecision GPUTexturePaletteReg.
Proof. solve_decision. Defined.
#[global] Instance SourceKey_eq_dec : EqDecision SourceKey.
Proof. solve_decision. Defined.

(** Addresses: a [Source*] is a heap address, a [SourceListNode*] the
    address of a source and an index into its [page_refs], a
    [SourceList*] an index into [m_page_sources]. *)
Abbreviation SourcePtr := nat (only parsing).
Abbreviation NodePtr := (nat * nat)%type (only parsing).
Abbreviation ListPtr := nat (only parsing).

Record SourceList : Set := {
  sl_head : option NodePtr;
  sl_tail : option NodePtr
}.

Record SourceListNode : Set := {
  node_ref : option SourcePtr;
  node_list : option ListPtr;
  node_prev : option NodePtr;
  node_next : option NodePtr
}.

(** The decoded image held by the device texture. *)
Definition GPUTexture : Set := list (list Z).

Record Source : Set := {
  src_key : SourceKey;
  src_num_page_refs : nat;
  src_texture : GPUTexture;
  src_page_refs : list SourceListNode   (* std::array of MAX_PAGE_REFS_PER_SOURCE *)
}.

(** The cache object together with the store it points into: the live
    [Source] objects, the next address [new] hands out, and the textures
    given back to the device by [RecycleTexture]. *)
Record State : Set := {
  m_page_sources : list SourceList;      (* std::array of NUM_PAGES *)
  heap : gmap nat Source;
  next_addr : nat;
  recycled : list GPUTexture
}.

Definition null_list : SourceList := {| sl_head := None; sl_tail := None |}.
Definition null_node : SourceListNode :=
  {| node_ref := None; node_list := None; node_prev := None; node_next := None |}.

(** A freshly constructed cache: every list empty, no [Source] alive. *)
Definition init : State :=
  {| m_page_sources := replicate (Z.to_nat NUM_PAGES) null_list;
     heap := ∅; next_addr := O; recycled := [] |}.

(** *** Field stores *)

Definition set_head (v : option NodePtr) (l : SourceList) : SourceList :=
  {| sl_head := v; sl_tail := sl_tail l |}.
Definition set_tail (v : option NodePtr) (l : SourceList) : SourceList :=
  {| sl_head := sl_head l; sl_tail := v |}.

Definition set_ref (v : option SourcePtr) (n : SourceListNode) : SourceListNode :=
  {| node_ref := v; node_list := node_list n; node_prev := node_prev n; node_next := node_next n |}.
Definition set_list (v : option ListPtr) (n : SourceListNode) : SourceListNode :=
  {| node_ref := node_ref n; node_list := v; node_prev := node_prev n; node_next := node_next n |}.
Definition set_prev (v : option NodePtr) (n : SourceListNode) : SourceListNode :=
  {| node_ref := node_ref n; node_list := node_list n; node_prev := v; node_next := node_next n |}.
Definition set_next (v : option NodePtr) (n : SourceListNode) : SourceListNode :=
  {| node_ref := node_ref n; node_list := node_list n; node_prev := node_prev n; node_next := v |}.

Definition with_page_refs (r : list SourceListNode) (src : Source) : Source :=
  {| src_key := src_key src; src_num_page_refs := src_num_page_refs src;
     src_texture := src_texture src; src_page_refs := r |}.
Definition with_num_page_refs (k : nat) (src : Source) : Source :=
  {| src_key := src_key src; src_num_page_refs := k;
     src_texture := src_texture src; src_page_refs := src_page_refs src |}.

Definition with_heap (h : gmap nat Source) (s : State) : State :=
  {| m_page_sources := m_page_sources s; heap := h;
     next_addr := next_addr s; recycled := recycled s |}.
Definition with_page_sources (p : list SourceList) (s : State) : State :=
  {| m_page_sources := p; heap := heap s;
     next_addr := next_addr s; recycled := recycled s |}.

(** *** Loads and stores through pointers *)

Definition get_node (s : State) (n : NodePtr) : option SourceListNode :=
  src ← heap s !! n.1; src_page_refs src !! n.2.

Definition store_node (f : SourceListNode -> SourceListNode) (n : NodePtr)
           (s : State) : option State :=
  src ← heap s !! n.1;
  nd ← src_page_refs src !! n.2;
  Some (with_heap (<[n.1 := with_page_refs (<[n.2 := f nd]> (src_page_refs src)) src]> (heap s)) s).

Definition get_list (s : State) (l : ListPtr) : option SourceList :=
  m_page_sources s !! l.

Definition store_list (f : SourceList -> SourceList) (l : ListPtr)
           (s : State) : option State :=
  sl ← m_page_sources s !! l;
  Some (with_page_sources (<[l := f sl]> (m_page_sources s)) s).

(** The slot of [m_page_sources] a page number indexes, if in range. *)
Definition page_slot (pn : Z) : option ListPtr :=
  if (0 <=? pn) && (pn <? NUM_PAGES) then Some (Z.to_nat pn) else None.

(** *** The intrusive lists *)

Definition ListAppend (l : ListPtr) (item : SourcePtr) (item_node : NodePtr)
           (s : State) : option State :=
  s ← store_node (set_ref (Some item)) item_node s;
  s ← store_node (set_list (Some l)) item_node s;
  s ← store_node (set_next None) item_node s;
  sl ← get_list s l;
  match sl_tail sl with
  | Some t =>
      s ← store_node (set_prev (Some t)) item_node s;
      s ← store_node (set_next (Some item_node)) t s;
      store_list (set_tail (Some item_node)) l s
  | None =>
      s ← store_node (set_prev None) item_node s;
      s ← store_list (set_head (Some item_node)) l s;
      store_list (set_tail (Some item_node)) l s
  end.

(** [node] is passed by reference: its fields are read again after the
    first store. *)
Definition ListUnlink (node : NodePtr) (s : State) : option State :=
  nd ← get_node s node;
  s ← match node_prev nd with
      | Some p => store_node (set_next (node_next nd)) p s
      | None => l ← node_list nd; store_list (set_head (node_next nd)) l s
      end;
  nd ← get_node s node;
  match node_next nd with
  | Some q => store_node (set_prev (node_prev nd)) q s
  | None => l ← node_list nd; store_list (set_tail (node_prev nd)) l s
  end.

(** [ListIterate(list, f)] with [f] collecting its arguments: the [ref]
    pointers of the nodes from [n] on, in list order.  [fuel] bounds the
    number of iterations. *)
Fixpoint ListIterate_from (fuel : nat) (n : option NodePtr) (s : State)
  : option (list (option SourcePtr)) :=
  match n with
  | None => Some []
  | Some n =>
      match fuel with
      | O => None
      | S fuel' =>
          nd ← get_node s n;
          rest ← ListIterate_from fuel' (node_next nd) s;
          Some (node_ref nd :: rest)
      end
  end.

Definition ListIterate (fuel : nat) (l : SourceList) (s : State)
  : option (list (option SourcePtr)) :=
  ListIterate_from fuel (sl_head l) s.

(** *** [LoopPages] *)

Section LoopPages.
Context {St : Type}.
Variable f : Z -> St -> option St.

(** The inner loop, [count] iterations: it passes [page_number] to
    [f] and advances [y_page_number]. *)
Fixpoint LoopPages_x (count : nat) (page_number y_page_number : Z)
         (st : St) : option St :=
  match count with
  | O => Some st
  | S c =>
      st ← f page_number st;
      LoopPages_x c page_number (wrap32 (y_page_number + 1)) st
  end.

(** The outer loop, [count_y] rows of [count_x] iterations. *)
Fixpoint LoopPages_y (count_y count_x : nat) (page_number : Z)
         (st : St) : option St :=
  match count_y with
  | O => Some st
  | S c =>
      let y_page_number := page_number in
      st ← LoopPages_x count_x page_number y_page_number st;
      LoopPages_y c count_x (wrap32 (page_number + VRAM_PAGES_WIDE)) st
  end.

Definition LoopPages (x y width height : Z) (st : St) : option St :=
  let start_x := x / VRAM_PAGE_WIDTH in
  let start_y := y / VRAM_PAGE_HEIGHT in
  let end_x := wrap32 (x + wrap32 (width - 1)) / VRAM_PAGE_WIDTH in
  let end_y := wrap32 (y + wrap32 (height - 1)) / VRAM_PAGE_HEIGHT in
  let page_number := PageIndex start_x start_y in
  LoopPages_y (Z.to_nat (end_y + 1 - start_y)) (Z.to_nat (end_x + 1 - start_x))
              page_number st.
End LoopPages.

(** *** Invalidation *)

(** [for (i = 0; i < src->num_page_refs; i++) ListUnlink(src->page_refs[i])],
    [count] iterations from index [i]. *)
Fixpoint unlink_page_refs (src : SourcePtr) (count i : nat) (s : State) : option State :=
  match count with
  | O => Some s
  | S c => s ← ListUnlink (src, i) s; unlink_page_refs src c (S i) s
  end.

(** [RecycleTexture(std::move(src->texture)); delete src]. *)
Definition delete_source (src : SourcePtr) (s : State) : option State :=
  o ← heap s !! src;
  Some {| m_page_sources := m_page_sources s;
          heap := delete src (heap s);
          next_addr := next_addr s;
          recycled := src_texture o :: recycled s |}.

(** The loop of [InvalidatePage] from node [n]; [fuel] bounds the number
    of iterations, [None] is a fault or exhausted fuel. *)
Fixpoint InvalidatePage_loop (fuel : nat) (n : option NodePtr) (s : State) : option State :=
  match n with
  | None => Some s
  | Some n =>
      match fuel with
      | O => None
      | S fuel' =>
          nd ← get_node s n;
          src ← node_ref nd;
          o ← heap s !! src;
          let n' := node_next nd in
          s ← unlink_page_refs src (src_num_page_refs o) O s;
          s ← delete_source src s;
          InvalidatePage_loop fuel' n' s
      end
  end.

Definition InvalidatePage (fuel : nat) (pn : Z) (s : State) : option State :=
  ps ← page_slot pn;
  sl ← get_list s ps;
  s ← InvalidatePage_loop fuel (sl_head sl) s;
  s ← store_list (set_head None) ps s;
  store_list (set_tail None) ps s.

Definition InvalidatePages (fuel : nat) (x y width height : Z) (s : State) : option State :=
  LoopPages (InvalidatePage fuel) x y width height s.

Fixpoint Clear_loop (fuel : nat) (count : nat) (i : Z) (s : State) : option State :=
  match count with
  | O => Some s
  | S c => s ← InvalidatePage fuel i s; Clear_loop fuel c (i + 1) s
  end.

Definition Clear (fuel : nat) (s : State) : option State :=
  Clear_loop fuel (Z.to_nat NUM_PAGES) 0 s.

(** *** Lookup and creation *)

Definition WidthForMode (mode : GPUTextureMode) : Z :=
  Z.shiftr TEXTURE_PAGE_WIDTH
           (if mode_is_paletted mode then 2 - GPUTextureMode_to_u8 mode else 0).

(** The closure [add_page_ref] of [CreateSource]; its state is the cache
    and the local array [page_refns]. *)
Definition add_page_ref (src : SourcePtr) (pn : Z)
           (st : State * list Z) : option (State * list Z) :=
  let '(s, page_refns) := st in
  o ← heap s !! src;
  if existsb (Z.eqb pn) (take (src_num_page_refs o) page_refns) then Some st
  else
    let ri := src_num_page_refs o in
    let s := with_heap (<[src := with_num_page_refs (S ri) o]> (heap s)) s in
    if decide (ri < length page_refns)%nat then
      let page_refns := <[ri := pn]> page_refns in
      l ← page_slot pn;
      s ← ListAppend l src (src, ri) s;
      Some (s, page_refns)
    else None.

(** [fetched] tells whether [FetchTexture] returned a texture. *)
Definition CreateSource (fetched : bool) (vram : VRAM) (key : SourceKey)
           (s : State) : option (option SourcePtr * State) :=
  if fetched then
    tex ← DecodeTexture VRAMRGBA5551ToRGBA8888 vram (key_page key) (key_palette key) (key_mode key);
    let src := next_addr s in
    let o := {| src_key := key; src_num_page_refs := O; src_texture := tex;
                src_page_refs := replicate MAX_PAGE_REFS_PER_SOURCE null_node |} in
    let s := {| m_page_sources := m_page_sources s;
                heap := <[src := o]> (heap s);
                next_addr := S src;
                recycled := recycled s |} in
    let page_refns := replicate MAX_PAGE_REFS_PER_SOURCE 0 in
    st ← LoopPages (add_page_ref src) (PageStartX (key_page key)) (PageStartY (key_page key))
                   (WidthForMode (key_mode key)) TEXTURE_PAGE_HEIGHT (s, page_refns);
    st ← (if mode_is_paletted (key_mode key)
          then LoopPages (add_page_ref src) (GetXBase (key_palette key))
                         (GetYBase (key_palette key)) (GetWidth (key_mode key)) 1 st
          else Some st);
    Some (Some src, st.1)
  else Some (None, s).

(** The scan of [LookupSource] from node [n]: [Some (Some p)] is a hit,
    [Some None] the end of the list. *)
Fixpoint LookupSource_scan (fuel : nat) (key : SourceKey) (n : option NodePtr)
         (s : State) : option (option SourcePtr) :=
  match n with
  | None => Some None
  | Some n =>
      match fuel with
      | O => None
      | S fuel' =>
          nd ← get_node s n;
          r ← node_ref nd;
          o ← heap s !! r;
          if decide (src_key o = key) then Some (Some r)
          else LookupSource_scan fuel' key (node_next nd) s
      end
  end.

Definition LookupSource (fuel : nat) (fetched : bool) (vram : VRAM) (key : SourceKey)
           (s : State) : option (option SourcePtr * State) :=
  ps ← page_slot (key_page key);
  sl ← get_list s ps;
  r ← LookupSource_scan fuel key (sl_head sl) s;
  match r with
  | Some p => Some (Some p, s)
  | None => CreateSource fetched vram key s
  end.

End GPUTextureCache.

(** ** [PostProcessingShaderFX]: texture IDs, source options and passes

    An embedding of the parts of [src/util/postprocessing_shader_fx.cpp]
    that compute with texture IDs and source options.  The types of the
    ReShade FX module ([reshadefx::annotation], [uniform_info],
    [texture_info], [sampler_info], [pass_info]) belong to a third-party
    library; the records below hold the members the code reads.  Device
    objects are handles; a null [unique_ptr] or pointer is [None].
    [Panic] and a failed [Assert] do not return: the embedding gives
    [None] there. *)

Module PostProcessingShaderFX.
Import String.

Definition INPUT_COLOR_TEXTURE : Z := -1.
Definition INPUT_DEPTH_TEXTURE : Z := -2.
Definition OUTPUT_COLOR_TEXTURE : Z := -3.

Inductive SourceOption : Set :=
  | SourceOption_None
  | Zero
  | Timer
  | FrameCount
  | FrameCountF
  | BufferWidth
  | BufferHeight
  | BufferWidthF
  | BufferHeightF
  | MaxCount.

#[global] Instance SourceOption_eq_dec : EqDecision SourceOption.
Proof. solve_decision. Defined.

(** The formats [MapTextureFormat] names. *)
Inductive Format : Set :=
  | Unknown | R8 | R16 | R16F | R32I | R32U | R32F | RG8 | RG16 | RG16F | RG32F
  | RGBA8 | RGBA16 | RGBA16F | RGBA32F | RGB10A2.

(** [format] is [None] while the member is uninitialized. *)
Record Texture : Set := {
  texture : option nat;
  framebuffer : option nat;
  reshade_name : String.string;
  format : option Format;
  rt_scale : SpecFloat.spec_float
}.

Record Sampler : Set := {
  slot : Z;                      (* u32 *)
  texture_id : Z;                (* TextureID *)
  sampler_reshade_name : String.string;
  sampler : option nat
}.

Record Pass : Set := {
  render_target : Z;             (* TextureID *)
  samplers : list Sampler
}.

(** *** Lookups by texture ID *)

Definition GetTextureNameForID (m_textures : list Texture) (id : Z) : String.string :=
  if id =? INPUT_COLOR_TEXTURE then "Input Color Texture / Backbuffer"%string
  else if id =? INPUT_DEPTH_TEXTURE then "Input Depth Texture"%string
  else if id =? OUTPUT_COLOR_TEXTURE then "Output Color Texture"%string
  else if (id <? 0) || (Z.of_nat (List.length m_textures) <=? id) then "UNKNOWN"%string
  else match m_textures !! Z.to_nat id with
       | Some t => reshade_name t
       | None => "UNKNOWN"%string
       end.

(** [None] is a panic; [Some p] the pointer returned. *)
Definition GetTextureByID (m_textures : list Texture) (id : Z)
           (input : option nat) (final_target : option nat) : option (option nat) :=
  if id <? 0 then
    if id =? INPUT_COLOR_TEXTURE then Some input
    else if id =? INPUT_DEPTH_TEXTURE then None
    else if id =? OUTPUT_COLOR_TEXTURE then None
    else None
  else
    if Z.of_nat (List.length m_textures) <=? id then None
    else t ← m_textures !! Z.to_nat id; Some (texture t).

Definition GetFramebufferByID (m_textures : list Texture) (id : Z)
           (input : option nat) (final_target : option nat) : option (option nat) :=
  if id <? 0 then
    if id =? OUTPUT_COLOR_TEXTURE then Some final_target
    else None
  else
    if Z.of_nat (List.length m_textures) <=? id then None
    else
      tex ← m_textures !! Z.to_nat id;
      match framebuffer tex with
      | Some fb => Some (Some fb)
      | None => None
      end.

(** *** Annotations and source options *)

(** The base types of [reshadefx::type] the code tells apart. *)
Inductive datatype : Set :=
  | t_bool | t_int | t_uint | t_float | t_string | t_other.

#[global] Instance datatype_eq_dec : EqDecision datatype.
Proof. solve_decision. Defined.

Record annotation : Set := {
  an_name : String.string;
  an_type_base : datatype;
  an_string_data : String.string
}.

Fixpoint GetStringAnnotationValue (annotations : list annotation)
         (annotation_name default_value : String.string) : String.string :=
  match annotations with
  | [] => default_value
  | an :: rest =>
      if negb (String.eqb (an_name an) annotation_name)
      then GetStringAnnotationValue rest annotation_name default_value
      else if negb (bool_decide (an_type_base an = t_string))
      then GetStringAnnotationValue rest annotation_name default_value
      else an_string_data an
  end.

(** [components], [is_integral] and [is_floating_point] are what the
    methods of [reshadefx::type] of those names return. *)
Record uniform_info : Set := {
  ui_name : String.string;
  ui_type_base : datatype;
  ui_components : Z;
  ui_is_integral : bool;
  ui_is_floating_point : bool;
  ui_annotations : list annotation;
  ui_has_initializer_value : bool;
  ui_initializer_string_data : String.string;
  ui_offset : Z
}.

(** [None] is the [false] return; [Some so] stores [so] and returns
    [true]. *)
Definition GetSourceOption (ui : uniform_info) : option SourceOption :=
  let source := GetStringAnnotationValue (ui_annotations ui) "source"%string EmptyString in
  if negb (String.eqb source EmptyString) then
    if String.eqb source "timer"%string then
      if negb (bool_decide (ui_type_base ui = t_float)) || (1 <? ui_components ui)
      then None
      else Some Timer
    else if String.eqb source "framecount"%string then
      if (negb (ui_is_integral ui) && negb (ui_is_floating_point ui))
         || (1 <? ui_components ui)
      then None
      else Some (if bool_decide (ui_type_base ui = t_float) then FrameCountF else FrameCount)
    else if String.eqb source "overlay_active"%string then Some Zero
    else None
  else if ui_has_initializer_value ui
          && String.eqb (ui_initializer_string_data ui) "BUFFER_WIDTH"%string
  then Some (if bool_decide (ui_type_base ui = t_float) then BufferWidthF else BufferWidth)
  else if ui_has_initializer_value ui
          && String.eqb (ui_initializer_string_data ui) "BUFFER_HEIGHT"%string
  then Some (if bool_decide (ui_type_base ui = t_float) then BufferHeightF else BufferHeight)
  else Some SourceOption_None.

(** *** The values [Apply] writes for the source options *)

Definition DEFAULT_BUFFER_WIDTH : Z := 3840.
Definition DEFAULT_BUFFER_HEIGHT : Z := 2160.

(** [g_gpu_device], if any, with the size of its window. *)
Definition GetDefaultBufferWidth (device : option (Z * Z)) : Z :=
  match device with Some (w, _) => w | None => DEFAULT_BUFFER_WIDTH end.
Definition GetDefaultBufferHeight (device : option (Z * Z)) : Z :=
  match device with Some (_, h) => h | None => DEFAULT_BUFFER_HEIGHT end.

(** The four bytes copied into the uniform buffer, with their type. *)
Inductive UniformValue : Set :=
  | U32 (v : Z)
  | S32 (v : Z)
  | F32 (v : SpecFloat.spec_float).

(** The body of the [switch] of [Apply] for one source option.  [timer]
    is [m_timer.GetTimeSeconds()] converted to [float]; [None] is the
    unreachable default case. *)
Definition source_option_value (device : option (Z * Z)) (timer : SpecFloat.spec_float)
           (m_frame_count : Z) (so : SourceOption) : option UniformValue :=
  match so with
  | Zero => Some (U32 0)
  | Timer => Some (F32 timer)
  | FrameCount => Some (U32 m_frame_count)
  | FrameCountF => Some (F32 (SpecFloat.binary_normalize 24 128 m_frame_count 0 false))
  | BufferWidth | BufferHeight =>
      Some (S32 (if bool_decide (so = BufferWidth)
                 then GetDefaultBufferWidth device else GetDefaultBufferHeight device))
  | BufferWidthF | BufferHeightF =>
      Some (F32 (SpecFloat.binary_normalize 24 128
                   (if bool_decide (so = BufferWidth)
                    then GetDefaultBufferWidth device else GetDefaultBufferHeight device)
                   0 false))
  | _ => None
  end.

(** *** [CreatePasses] *)

Definition MapTextureFormat (format : Z) : option Format :=
  if format <? 0 then None
  else [Unknown; R8; R16; R16F; R32I; R32U; R32F; RG8; RG16; RG16F; RG32F;
        RGBA8; RGBA16; RGBA16F; RGBA32F; RGB10A2] !! Z.to_nat format.

Inductive filter_mode : Set :=
  | min_mag_mip_point
  | min_mag_point_mip_linear
  | min_point_mag_linear_mip_point
  | min_point_mag_mip_linear
  | min_linear_mag_mip_point
  | min_linear_mag_point_mip_linear
  | min_mag_linear_mip_point
  | min_mag_mip_linear
  | filter_other.

Inductive texture_address_mode : Set :=
  | wrap | mirror | clamp | border.

Inductive Filter : Set := Nearest | Linear.
Inductive AddressMode : Set := Repeat | ClampToEdge | ClampToBorder.

Record Config : Set := {
  min_filter : Filter;
  mag_filter : Filter;
  mip_filter : Filter;
  address_u : AddressMode;
  address_v : AddressMode;
  address_w : AddressMode
}.

Record sampler_info : Set := {
  si_unique_name : string;
  si_texture_name : string;
  si_filter : filter_mode;
  si_address_u : texture_address_mode;
  si_address_v : texture_address_mode;
  si_address_w : texture_address_mode
}.

(** The lambda [map_address_mode]; [None] is its panic. *)
Definition map_address_mode (m : texture_address_mode) : option AddressMode :=
  match m with
  | wrap => Some Repeat
  | mirror => None
  | clamp => Some ClampToEdge
  | border => Some ClampToBorder
  end.

(** [nearest] is what [GPUSampler::GetNearestConfig] returns. *)
Definition MapSampler (nearest : Config) (si : sampler_info) : option Config :=
  let config := nearest in
  let '(mn, mg, mp) :=
    match si_filter si with
    | min_mag_mip_point => (Nearest, Nearest, Nearest)
    | min_mag_point_mip_linear => (Nearest, Nearest, Linear)
    | min_point_mag_linear_mip_point => (Linear, Linear, Nearest)
    | min_point_mag_mip_linear => (Nearest, Linear, Linear)
    | min_linear_mag_mip_point => (Linear, Nearest, Nearest)
    | min_linear_mag_point_mip_linear => (Linear, Nearest, Linear)
    | min_mag_linear_mip_point => (Linear, Linear, Nearest)
    | min_mag_mip_linear => (Linear, Linear, Linear)
    | filter_other => (min_filter config, mag_filter config, mip_filter config)
    end in
  u ← map_address_mode (si_address_u si);
  v ← map_address_mode (si_address_v si);
  w ← map_address_mode (si_address_w si);
  Some {| min_filter := mn; mag_filter := mg; mip_filter := mp;
          address_u := u; address_v := v; address_w := w |}.

Record texture_info : Set := {
  ti_semantic : string;
  ti_unique_name : string;
  ti_render_target : bool;
  ti_format : Z;
  ti_annotations : list annotation
}.

Record pass_info : Set := {
  pi_render_target_name : string;      (* render_target_names[0] *)
  pi_samplers : list sampler_info
}.

(** The object and the device: [device_calls] counts the objects the
    device was asked to create. *)
Record State : Set := {
  m_textures : list Texture;
  m_passes : list Pass;
  device_calls : nat
}.

Section Device.

(** Whether the image file of a texture source loads, and whether the
    [n]-th creation of a device object succeeds; the handle of the object
    is [n]. *)
Variable image_loads : string -> bool.
Variable device_ok : nat -> bool.
Variable nearest : Config.

Definition device_create (st : State) : option nat * State :=
  (if device_ok (device_calls st) then Some (device_calls st) else None,
   {| m_textures := m_textures st; m_passes := m_passes st;
      device_calls := S (device_calls st) |}).

Definition push_texture (tex : Texture) (st : State) : State :=
  {| m_textures := m_textures st ++ [tex]; m_passes := m_passes st;
     device_calls := device_calls st |}.

Definition push_pass (pass : Pass) (st : State) : State :=
  {| m_textures := m_textures st; m_passes := m_passes st ++ [pass];
     device_calls := device_calls st |}.

(** The loop over [mod.textures]; the boolean is [false] when it
    returns early. *)
Fixpoint create_textures (textures : list texture_info) (st : State)
  : option (bool * State) :=
  match textures with
  | [] => Some (true, st)
  | ti :: rest =>
      if negb (String.eqb (ti_semantic ti) EmptyString) then create_textures rest st
      else if ti_render_target ti then
        fmt ← MapTextureFormat (ti_format ti);
        create_textures rest
          (push_texture {| texture := None; framebuffer := None;
                           reshade_name := ti_unique_name ti;
                           format := Some fmt; rt_scale := GPU_HW.f32_one |} st)
      else
        let source := GetStringAnnotationValue (ti_annotations ti) "source"%string
                        EmptyString in
        if String.eqb source EmptyString then Some (false, st)
        else if negb (image_loads source) then Some (false, st)
        else
          match device_create st with
          | (Some h, st) =>
              create_textures rest
                (push_texture {| texture := Some h; framebuffer := None;
                                 reshade_name := ti_unique_name ti;
                                 format := None; rt_scale := GPU_HW.f32_zero |} st)
          | (None, st) => Some (false, st)
          end
  end.

(** The index of the first texture from [i] on with the given name. *)
Fixpoint find_texture (name : string) (textures : list Texture) (i : nat) : option nat :=
  match textures with
  | [] => None
  | t :: rest =>
      if String.eqb (reshade_name t) name then Some i else find_texture name rest (S i)
  end.

(** The search of [mod.textures] for a sampler's texture: [None] is the
    early [return false], [Some id] the value [sampler.texture_id] has
    after the loop. *)
Fixpoint sampler_texture_id (textures : list texture_info) (m_textures : list Texture)
         (texture_name : string) : option Z :=
  match textures with
  | [] => Some (Z.of_nat (List.length m_textures))
  | ti :: rest =>
      if String.eqb (ti_unique_name ti) texture_name then
        if String.eqb (ti_semantic ti) "COLOR"%string then Some INPUT_COLOR_TEXTURE
        else if String.eqb (ti_semantic ti) "DEPTH"%string then Some INPUT_DEPTH_TEXTURE
        else if negb (String.eqb (ti_semantic ti) EmptyString) then None
        else
          Some (match find_texture texture_name m_textures O with
                | Some i => Z.of_nat i
                | None => Z.of_nat (List.length m_textures)
                end)
      else sampler_texture_id rest m_textures texture_name
  end.

(** The loop over [pi.samplers]. *)
Fixpoint create_samplers (textures : list texture_info) (sis : list sampler_info)
         (texture_slot : Z) (acc : list Sampler) (st : State)
  : option (bool * list Sampler * State) :=
  match sis with
  | [] => Some (true, acc, st)
  | si :: rest =>
      match sampler_texture_id textures (m_textures st) (si_texture_name si) with
      | None => Some (false, acc, st)
      | Some id =>
          if id =? Z.of_nat (List.length (m_textures st)) then Some (false, acc, st)
          else
            _ ← MapSampler nearest si;
            match device_create st with
            | (Some h, st) =>
                create_samplers textures rest (wrap32 (texture_slot + 1))
                  (acc ++ [{| slot := texture_slot; texture_id := id;
                              sampler_reshade_name := si_unique_name si;
                              sampler := Some h |}]) st
            | (None, st) => Some (false, acc, st)
            end
      end
  end.

(** The loop over [tech.passes]; the last pass is the final one. *)
Fixpoint create_passes (backbuffer_format : Format) (textures : list texture_info)
         (passes : list pass_info) (st : State) : option (bool * State) :=
  match passes with
  | [] => Some (true, st)
  | pi :: rest =>
      let is_final := match rest with [] => true | _ => false end in
      let target :=
        if is_final then Some (OUTPUT_COLOR_TEXTURE, st)
        else if negb (String.eqb (pi_render_target_name pi) EmptyString) then
          match find_texture (pi_render_target_name pi) (m_textures st) O with
          | Some i => Some (Z.of_nat i, st)
          | None => None
          end
        else
          Some (Z.of_nat (List.length (m_textures st)),
                push_texture {| texture := None; framebuffer := None;
                                reshade_name := EmptyString;
                                format := Some backbuffer_format;
                                rt_scale := GPU_HW.f32_one |} st) in
      match target with
      | None => Some (false, st)
      | Some (render_target, st) =>
          r ← create_samplers textures (pi_samplers pi) 0 [] st;
          match r with
          | (true, samplers, st) =>
              create_passes backbuffer_format textures rest
                (push_pass {| render_target := render_target; samplers := samplers |} st)
          | (false, _, st) => Some (false, st)
          end
      end
  end.

Definition CreatePasses (backbuffer_format : Format) (textures : list texture_info)
           (passes : list pass_info) (st : State) : option (bool * State) :=
  match passes with
  | [] => Some (false, st)
  | _ =>
      r ← create_textures textures st;
      match r with
      | (true, st) => create_passes backbuffer_format textures passes st
      | (false, st) => Some (false, st)
      end
  end.

End Device.

End PostProcessingShaderFX.

(** ** Traces of cache operations *)

Module Trace.
Import GPUTextureCache.

Inductive Op : Type :=
  | OpLookup (fetched : bool) (vram : VRAM) (key : SourceKey)
  | OpInvalidatePage (pn : Z)
  | OpInvalidatePages (x y width height : Z)
  | OpClear.

Definition step (fuel : nat) (op : Op) (s : State) : option State :=
  match op with
  | OpLookup fetched vram key => r ← LookupSource fuel fetched vram key s; Some r.2
  | OpInvalidatePage pn => InvalidatePage fuel pn s
  | OpInvalidatePages x y w h => InvalidatePages fuel x y w h s
  | OpClear => Clear fuel s
  end.

Fixpoint run (fuel : nat) (ops : list Op) (s : State) : option State :=
  match ops with
  | [] => Some s
  | op :: ops' => s' ← step fuel op s; run fuel ops' s'
  end.

(** The sources on the list of page slot [ps], as [ListIterate] visits
    them. *)
Definition sources_on_page (fuel : nat) (ps : nat) (s : State)
  : option (list (option SourcePtr)) :=
  sl ← m_page_sources s !! ps; ListIterate fuel sl s.

End Trace.

(** ** The page sets of the specification *)

Module Spec.
Import GPUTextureCache Trace.

(** The 64x256 tile of page [pn] intersects the rectangle. *)
Definition page_in_rect (x y width height pn : Z) : bool :=
  let tx := PageStartX pn in
  let ty := PageStartY pn in
  (tx <? x + width) && (x <? tx + VRAM_PAGE_WIDTH) &&
  (ty <? y + height) && (y <? ty + VRAM_PAGE_HEIGHT).

(** The covering set of pages of a rectangle: every page whose tile
    intersects it. *)
Definition covering_pages (x y width height : Z) : list Z :=
  filter (fun pn => page_in_rect x y width height pn = true) (seqZ 0 NUM_PAGES).

(** The pages a key depends on: the covering set of its pixel-data
    footprint (64, 128 or 256 wide by one page height) and, for the
    paletted modes, of its palette footprint (one row by the palette
    width). *)
Definition pixel_footprint_pages (k : SourceKey) : list Z :=
  covering_pages (PageStartX (key_page k)) (PageStartY (key_page k))
                 (WidthForMode (key_mode k)) TEXTURE_PAGE_HEIGHT.

Definition palette_footprint_pages (k : SourceKey) : list Z :=
  if mode_is_paletted (key_mode k)
  then covering_pages (GetXBase (key_palette k)) (GetYBase (key_palette k))
                      (GetWidth (key_mode k)) 1
  else [].

Definition dependency_pages (k : SourceKey) : list Z :=
  pixel_footprint_pages k ++ palette_footprint_pages k.

(** A rectangle [LoopPages] accepts: not empty and within video memory. *)
Definition valid_rect (x y width height : Z) : bool :=
  (0 <? width) && (0 <? height) && (0 <=? x) && (0 <=? y) &&
  (x + width <=? VRAM_WIDTH) && (y + height <=? VRAM_HEIGHT).

(** An operation that invalidates a page the key depends on.  A lookup
    invalidates nothing; [Clear] invalidates everything; a rectangle
    outside video memory counts as touching. *)
Definition touches (k : SourceKey) (op : Op) : bool :=
  match op with
  | OpLookup _ _ _ => false
  | OpInvalidatePage pn => bool_decide (pn ∈ dependency_pages k)
  | OpInvalidatePages x y w h =>
      negb (valid_rect x y w h) ||
      existsb (fun pn => bool_decide (pn ∈ dependency_pages k)) (covering_pages x y w h)
  | OpClear => true
  end.

(** The pages whose list holds a reference to source [p]. *)
Definition pages_listing (fuel : nat) (p : SourcePtr) (s : State) : list Z :=
  filter (fun pn => match sources_on_page fuel (Z.to_nat pn) s with
                    | Some refs => bool_decide (Some p ∈ refs)
                    | None => false
                    end = true) (seqZ 0 NUM_PAGES).

End Spec.

(** ** Representation invariant of the cache *)

Module Rep.
Import GPUTextureCache.

(** A list segment: starting at [cur], whose [prev] field holds [p], the
    nodes [l] are linked in order; [last] points to the last of them (or is
    [p] when [l] is empty) and [nxt] is the [next] field of the last. *)
Inductive seg (s : State)
  : option NodePtr -> option NodePtr -> list NodePtr ->
    option NodePtr -> option NodePtr -> Prop :=
  | seg_nil p c : seg s p c [] p c
  | seg_cons p n nd l last nxt :
      get_node s n = Some nd ->
      node_prev nd = p ->
      seg s (Some n) (node_next nd) l last nxt ->
      seg s p (Some n) (n :: l) last nxt.

(** What the list operations never change in a [Source]: everything but
    the [prev] and [next] links of its nodes. *)
Definition erase_node (nd : SourceListNode) : option SourcePtr * option ListPtr :=
  (node_ref nd, node_list nd).

Record Meta : Set := {
  e_key : SourceKey;
  e_num : nat;
  e_texture : GPUTexture;
  e_nodes : list (option SourcePtr * option ListPtr)
}.

Definition erase_src (o : Source) : Meta :=
  {| e_key := src_key o; e_num := src_num_page_refs o;
     e_texture := src_texture o; e_nodes := erase_node <$> src_page_refs o |}.

Definition meta (s : State) : gmap nat Meta := erase_src <$> heap s.

(** The pages [CreateSource] registers a source of key [k] on. *)
Definition palette_page (k : SourceKey) : Z :=
  VRAMCoordinateToPage (GetXBase (key_palette k)) (GetYBase (key_palette k)).

Definition registered_pages (k : SourceKey) : list Z :=
  key_page k :: (if mode_is_paletted (key_mode k) then [palette_page k] else []).

(** [L pn] is the content of the list of page slot [pn]. *)
Record ptr_ok (L : nat -> list NodePtr) (s : State) : Prop := {
  po_len : length (m_page_sources s) = Z.to_nat NUM_PAGES;
  po_seg : forall pn sl, m_page_sources s !! pn = Some sl ->
             seg s None (sl_head sl) (L pn) (sl_tail sl) None;
  po_out : forall pn, (Z.to_nat NUM_PAGES <= pn)%nat -> L pn = [];
  po_node : forall pn n, n ∈ L pn ->
             exists e, meta s !! n.1 = Some e /\ (n.2 < e_num e)%nat /\
                       e_nodes e !! n.2 = Some (Some n.1, Some pn);
  po_nodup : forall pn, NoDup (L pn).*1
}.

Record own_ok (L : nat -> list NodePtr) (s : State) : Prop := {
  oo_linked : forall id e i, meta s !! id = Some e -> (i < e_num e)%nat ->
               exists pn, e_nodes e !! i = Some (Some id, Some pn) /\ (id, i) ∈ L pn;
  oo_bounds : forall id e, meta s !! id = Some e ->
               (id < next_addr s)%nat /\ (e_num e <= MAX_PAGE_REFS_PER_SOURCE)%nat /\
               length (e_nodes e) = MAX_PAGE_REFS_PER_SOURCE;
  oo_first : forall id e, meta s !! id = Some e -> (0 < e_num e)%nat ->
               exists pn, page_slot (key_page (e_key e)) = Some pn /\
                          e_nodes e !! O = Some (Some id, Some pn);
  oo_keys : forall a b ea eb, meta s !! a = Some ea -> meta s !! b = Some eb ->
               e_key ea = e_key eb -> a = b;
  oo_pages : forall id e i r pn, meta s !! id = Some e -> (i < e_num e)%nat ->
               e_nodes e !! i = Some (r, Some pn) ->
               Z.of_nat pn ∈ registered_pages (e_key e)
}.

(** A step that stores only into the list of slot [pn] and into the
    links of the nodes [U]. *)
Definition frame (U : list NodePtr) (pn : nat) (s s1 : State) : Prop :=
  length (m_page_sources s1) = length (m_page_sources s) /\
  (forall k, k <> pn -> m_page_sources s1 !! k = m_page_sources s !! k) /\
  (forall m, m ∉ U -> get_node s1 m = get_node s m) /\
  meta s1 = meta s /\ next_addr s1 = next_addr s /\ recycled s1 = recycled s.

(** Every live source holds at least one page reference. *)
Definition all_pos (s : State) : Prop :=
  forall id e, meta s !! id = Some e -> (0 < e_num e)%nat.

Definition inv (L : nat -> list NodePtr) (s : State) : Prop :=
  ptr_ok L s /\ own_ok L s /\ all_pos s.

(** The state after [InvalidatePage] on slot [ps], from a state whose
    lists are [L]. *)
Definition invalidated (L : nat -> list NodePtr) (ps : nat) (s s' : State) : Prop :=
  inv (fun p => filter (fun m => m.1 ∉ (L ps).*1) (L p)) s' /\
  (forall id, meta s' !! id = if decide (id ∈ (L ps).*1) then None else meta s !! id) /\
  next_addr s' = next_addr s /\
  length (recycled s') = (length (recycled s) + length (L ps))%nat /\
  m_page_sources s' !! ps = Some null_list.

(** The node written by [ListAppend]. *)
Definition appended (l item : nat) (tl : option NodePtr) : SourceListNode :=
  {| node_ref := Some item; node_list := Some l; node_prev := tl; node_next := None |}.

(** Overwriting the erased node [i] of a source. *)
Definition set_enode (i : nat) (v : option SourcePtr * option ListPtr) (e : Meta) : Meta :=
  {| e_key := e_key e; e_num := e_num e; e_texture := e_texture e;
     e_nodes := <[i := v]> (e_nodes e) |}.

Definition set_enum (k : nat) (e : Meta) : Meta :=
  {| e_key := e_key e; e_num := k; e_texture := e_texture e; e_nodes := e_nodes e |}.

(** The state after [src->num_page_refs++]. *)
Definition bumped (id : nat) (o : Source) (s : State) : State :=
  with_heap (<[id := with_num_page_refs (S (src_num_page_refs o)) o]> (heap s)) s.

(** The state right after [new Source()] and the first assignments. *)
Definition allocated (key : SourceKey) (tex : GPUTexture) (s : State) : State :=
  {| m_page_sources := m_page_sources s;
     heap := <[next_addr s :=
                {| src_key := key; src_num_page_refs := O; src_texture := tex;
                   src_page_refs := replicate MAX_PAGE_REFS_PER_SOURCE null_node |}]> (heap s);
     next_addr := S (next_addr s);
     recycled := recycled s |}.

(** The scan of [LookupSource] over the content [l] of a list. *)
Fixpoint scan_list (fuel : nat) (key : SourceKey) (l : list NodePtr) (s : State)
         {struct l} : option (option SourcePtr) :=
  match l with
  | [] => Some None
  | n :: l' =>
      match fuel with
      | O => None
      | S fuel' =>
          o ← heap s !! n.1;
          if decide (src_key o = key) then Some (Some n.1)
          else scan_list fuel' key l' s
      end
  end.

(** The state while [CreateSource] registers the new source [id] of key
    [key]: [pages] are the page numbers registered so far, in order, and
    [page_refns] is the local array. *)
Definition creating (L : nat -> list NodePtr) (s : State) (id : nat)
           (key : SourceKey) (pages page_refns : list Z) : Prop :=
  ptr_ok L s /\ own_ok L s /\
  (forall id' e, meta s !! id' = Some e -> id' <> id ->
                 (0 < e_num e)%nat /\ e_key e <> key) /\
  (exists e, meta s !! id = Some e /\ e_key e = key /\ e_num e = length pages /\
     forall i pn, pages !! i = Some pn ->
       exists ps, page_slot pn = Some ps /\ e_nodes e !! i = Some (Some id, Some ps)) /\
  length page_refns = MAX_PAGE_REFS_PER_SOURCE /\
  take (length pages) page_refns = pages.

(** The page numbers [LoopPages_y] passes down, one per row. *)
Fixpoint row_pages (count_y : nat) (page_number : Z) : list Z :=
  match count_y with
  | O => []
  | S c => page_number :: row_pages c (wrap32 (page_number + VRAM_PAGES_WIDE))
  end.

(** Every source of [s] is still alive in [s'], with its key. *)
Definition keeps (s s' : State) : Prop :=
  forall id o, heap s !! id = Some o ->
    exists o', heap s' !! id = Some o' /\ src_key o' = src_key o.

(** Some list assignment satisfies the invariant. *)
Definition wf (s : State) : Prop := exists L, inv L s.

(** Source [id] is alive with key [k]. *)
Definition cached (k : SourceKey) (id : nat) (s : State) : Prop :=
  wf s /\ exists e, meta s !! id = Some e /\ e_key e = k.

(** The pages [LoopPages] passes to its callback for a rectangle: the
    page in column [x / VRAM_PAGE_WIDTH] of every page row from
    [y / VRAM_PAGE_HEIGHT] to [(y + height - 1) / VRAM_PAGE_HEIGHT]. *)
Definition first_column_pages (x y width height : Z) : list Z :=
  (fun page_y => PageIndex (x / VRAM_PAGE_WIDTH) page_y)
    <$> seqZ (y / VRAM_PAGE_HEIGHT)
             ((y + height - 1) / VRAM_PAGE_HEIGHT - y / VRAM_PAGE_HEIGHT + 1).

(** The pages [CreateSource] registers a source of key [k] on, without
    the repetition [add_page_ref] skips. *)
Definition created_pages (k : SourceKey) : list Z :=
  key_page k ::
  (if mode_is_paletted (key_mode k) && negb (palette_page k =? key_page k)
   then [palette_page k] else []).

(** The content of the list of slot [p] after a source at address [id]
    was registered on [pages]: node [i] of the source is appended to the
    list of the [i]-th page. *)
Fixpoint listed_after (L : nat -> list (nat * nat)) (id : nat) (i : nat)
         (pages : list Z) (p : nat) : list (nat * nat) :=
  match pages with
  | [] => L p
  | pn :: rest =>
      listed_after (fun q => if decide (q = Z.to_nat pn) then L q ++ [(id, i)] else L q)
                   id (S i) rest p
  end.

End Rep.

(** ** Exact values of single-precision numbers *)

Module Depth.

(** The value of a finite single-precision number times 2^40, when that
    is an integer. *)
Definition scaled40 (f : SpecFloat.spec_float) : option Z :=
  match f with
  | SpecFloat.S754_zero _ => Some 0
  | SpecFloat.S754_finite s m e =>
      if e <? (-40) then None
      else Some (Z.shiftl (if s then Z.neg m else Z.pos m) (e + 40))
  | _ => None
  end.

(** The depth written for counter value [c]. *)
Definition depth_at (c : Z) : SpecFloat.spec_float :=
  GPU_HW.f32_sub GPU_HW.f32_one
    (GPU_HW.f32_div (GPU_HW.f32_of_s32 c) GPU_HW.f32_65535).

(** [v] is the scaled value of a number in [0, 1] within 2^-24 of
    [1 - c / 65535]. *)
Definition close_to_ideal (c v : Z) : bool :=
  (0 <=? v) && (v <=? 2 ^ 40) &&
  (Z.abs (65535 * v - (65535 - c) * 2 ^ 40) <=? 65535 * 2 ^ 16).

(** A zero or a positive finite number. *)
Definition finite_nonneg (f : SpecFloat.spec_float) : bool :=
  match f with
  | SpecFloat.S754_zero _ => true
  | SpecFloat.S754_finite false _ _ => true
  | _ => false
  end.

(** The depths of the [n] counter values from [c] on are exact to 2^-24,
    and each is below the one before, [prev] of value [pv], both as
    single-precision numbers and as exact values. *)
Fixpoint depth_chain (n : nat) (c : Z) (prev : SpecFloat.spec_float) (pv : Z) : bool :=
  match n with
  | O => true
  | S n' =>
      let d := depth_at c in
      match scaled40 d with
      | Some v =>
          finite_nonneg d && SpecFloat.SFltb d prev && (v <? pv) && close_to_ideal c v &&
          depth_chain n' (c + 1) d v
      | None => false
      end
  end.

(** What the check establishes for one counter value. *)
Definition checked (c : Z) : Prop :=
  finite_nonneg (depth_at c) = true /\
  exists v, scaled40 (depth_at c) = Some v /\ close_to_ideal c v = true.

(** The depth for [c] is below [prev], of exact value [pv]. *)
Definition below (c : Z) (prev : SpecFloat.spec_float) (pv : Z) : Prop :=
  SpecFloat.SFltb (depth_at c) prev = true /\
  exists v, scaled40 (depth_at c) = Some v /\ v < pv.

End Depth.

(** ** Well-formed passes *)

Module PassSpec.
Import PostProcessingShaderFX.

(** A texture ID a sampler may hold when there are [n] textures: the
    input colour, the input depth or the index of a texture. *)
Definition sampler_id_ok (n : nat) (id : Z) : Prop :=
  id = INPUT_COLOR_TEXTURE \/ id = INPUT_DEPTH_TEXTURE \/ 0 <= id < Z.of_nat n.

(** A sampler at position [k] of a pass whose first slot is [s0]. *)
Definition good_sampler (n : nat) (s0 : Z) (k : nat) (sm : Sampler) : Prop :=
  slot sm = wrap32 (s0 + Z.of_nat k) /\ is_Some (sampler sm) /\
  sampler_id_ok n (texture_id sm).

(** The pass at position [k] of [total]: the last one renders to the
    output, the others to a texture. *)
Definition good_pass (n total k : nat) (p : Pass) : Prop :=
  (S k = total -> render_target p = OUTPUT_COLOR_TEXTURE) /\
  ((S k < total)%nat -> 0 <= render_target p < Z.of_nat n) /\
  (forall j sm, samplers p !! j = Some sm -> good_sampler n 0 j sm).

End PassSpec.

(** ** Concrete inputs *)

Module Examples.
Import GPUTextureCache Trace.

(** Video memory holding zeros, and the same after a write of 0x7FFF to
    the word at x = 64, y = 0 (the first word of page 1). *)
Definition vram_zero : VRAM := fun _ => 0.
Definition vram_written : VRAM := fun i => if i =? 64 then 32767 else 0.

(** Video memory whose word at x = 64, y = 0 is 0x8000: palette entry 0
    of the palette at (64, 0), outside the 4-bit footprint of page 0. *)
Definition vram_palette : VRAM := fun i => if i =? 64 then 32768 else 0.

Definition palette_at_64_0 : GPUTexturePaletteReg := {| bits := 4 |}.

Definition key_p0_4bit : SourceKey :=
  {| key_page := 0; key_mode := Palette4Bit; key_palette := palette_at_64_0 |}.
Definition key_p0_16bit : SourceKey :=
  {| key_page := 0; key_mode := Direct16Bit; key_palette := {| bits := 0 |} |}.
Definition key_p1_16bit : SourceKey :=
  {| key_page := 1; key_mode := Direct16Bit; key_palette := {| bits := 0 |} |}.
Definition key_p8_16bit : SourceKey :=
  {| key_page := 8; key_mode := Direct16Bit; key_palette := {| bits := 0 |} |}.

(** The state of an operation's result, or the initial state on a fault. *)
Definition state_of (r : option (option SourcePtr * State)) : State :=
  match r with
  | Some (_, s) => s
  | None => init
  end.

Definition after (ops : list Op) : State :=
  match run 4 ops init with
  | Some s => s
  | None => init
  end.

(** One source for page 1 in 16-bit mode, decoded from zeros. *)
Definition cache_p1 : State := after [OpLookup true vram_zero key_p1_16bit].
(** One source for page 0 in 16-bit mode. *)
Definition cache_p0 : State := after [OpLookup true vram_zero key_p0_16bit].
(** One source for page 0 in 4-bit mode with its palette in page 1. *)
Definition cache_p0_4bit : State := after [OpLookup true vram_zero key_p0_4bit].

(** Operations that leave pages 0 and 1 alone. *)
Definition other_ops : list Op :=
  [OpLookup true vram_zero key_p8_16bit; OpInvalidatePage 5;
   OpInvalidatePages 256 0 64 1; OpLookup false vram_zero key_p1_16bit].

Definition cache_p0_4bit_later : State :=
  match run 4 other_ops cache_p0_4bit with
  | Some s => s
  | None => init
  end.

(** The source at address 0, if alive. *)
Definition source_0 (s : State) : Source :=
  match heap s !! O with
  | Some o => o
  | None =>
      {| src_key := key_p0_4bit; src_num_page_refs := O; src_texture := [];
         src_page_refs := [] |}
  end.

Definition textured_subtractive : GPU_HW.t :=
  {| GPU_HW.m_batch :=
       {| GPU_HW.texture_mode := Palette4Bit;
          GPU_HW.transparency_mode := BackgroundMinusForeground;
          GPU_HW.dithering := false; GPU_HW.interlacing := false;
          GPU_HW.set_mask_while_drawing := false;
          GPU_HW.check_mask_before_draw := false;
          GPU_HW.use_depth_buffer := false |};
     GPU_HW.m_supports_dual_source_blend := false;
     GPU_HW.m_current_depth := 1 |}.

(** The same renderer one primitive later. *)
Definition textured_subtractive_next : GPU_HW.t :=
  {| GPU_HW.m_batch := GPU_HW.m_batch textured_subtractive;
     GPU_HW.m_supports_dual_source_blend := false;
     GPU_HW.m_current_depth := 2 |}.

(** A mapped buffer of four vertices, nothing written yet, and two
    vertices to add. *)
Definition buffer_of_four : GPU_HW.VertexBuffer :=
  {| GPU_HW.m_batch_start_vertex_ptr := 8;
     GPU_HW.m_batch_end_vertex_ptr := 12;
     GPU_HW.m_batch_current_vertex_ptr := 8;
     GPU_HW.mapped := fun _ => None |}.

Definition vertex_a : GPU_HW.BatchVertex :=
  GPU_HW.BatchVertex_Set GPU_HW.f32_zero GPU_HW.f32_zero GPU_HW.f32_one GPU_HW.f32_one
    255 0 1 2 (GPU_HW.PackUVLimits 0 255 0 255).

Definition vertex_b : GPU_HW.BatchVertex :=
  GPU_HW.BatchVertex_Set_packed GPU_HW.f32_one GPU_HW.f32_zero GPU_HW.f32_one GPU_HW.f32_one
    255 0 513 (GPU_HW.PackUVLimits 0 255 0 255).

(** A renderer at its last counter value below the limit. *)
Definition textured_subtractive_last : GPU_HW.t :=
  {| GPU_HW.m_batch := GPU_HW.m_batch textured_subtractive;
     GPU_HW.m_supports_dual_source_blend := true;
     GPU_HW.m_current_depth := GPU_HW.MAX_BATCH_VERTEX_COUNTER_IDS |}.

Import String.

(** The strings [GetSourceOption] compares with. *)
Definition name_source : String.string := "source"%string.
Definition name_BUFFER_WIDTH : String.string := "BUFFER_WIDTH"%string.
Definition name_BUFFER_HEIGHT : String.string := "BUFFER_HEIGHT"%string.

(** An integer uniform fed from the frame counter, and a float uniform
    initialized with the buffer width. *)
Definition uniform_frame_count : PostProcessingShaderFX.uniform_info :=
  {| PostProcessingShaderFX.ui_name := "frames"%string;
     PostProcessingShaderFX.ui_type_base := PostProcessingShaderFX.t_int;
     PostProcessingShaderFX.ui_components := 1;
     PostProcessingShaderFX.ui_is_integral := true;
     PostProcessingShaderFX.ui_is_floating_point := false;
     PostProcessingShaderFX.ui_annotations :=
       [{| PostProcessingShaderFX.an_name := "source"%string;
           PostProcessingShaderFX.an_type_base := PostProcessingShaderFX.t_string;
           PostProcessingShaderFX.an_string_data := "framecount"%string |}];
     PostProcessingShaderFX.ui_has_initializer_value := false;
     PostProcessingShaderFX.ui_initializer_string_data := String.EmptyString;
     PostProcessingShaderFX.ui_offset := 0 |}.

Definition uniform_buffer_width : PostProcessingShaderFX.uniform_info :=
  {| PostProcessingShaderFX.ui_name := "width"%string;
     PostProcessingShaderFX.ui_type_base := PostProcessingShaderFX.t_float;
     PostProcessingShaderFX.ui_components := 1;
     PostProcessingShaderFX.ui_is_integral := false;
     PostProcessingShaderFX.ui_is_floating_point := true;
     PostProcessingShaderFX.ui_annotations := [];
     PostProcessingShaderFX.ui_has_initializer_value := true;
     PostProcessingShaderFX.ui_initializer_string_data := "BUFFER_WIDTH"%string;
     PostProcessingShaderFX.ui_offset := 16 |}.

(** An effect with a render target and an image texture, and a
    technique of two passes: the first draws the input into the render
    target, the last draws the render target to the output. *)
Definition nearest_config : PostProcessingShaderFX.Config :=
  {| PostProcessingShaderFX.min_filter := PostProcessingShaderFX.Nearest;
     PostProcessingShaderFX.mag_filter := PostProcessingShaderFX.Nearest;
     PostProcessingShaderFX.mip_filter := PostProcessingShaderFX.Nearest;
     PostProcessingShaderFX.address_u := PostProcessingShaderFX.ClampToEdge;
     PostProcessingShaderFX.address_v := PostProcessingShaderFX.ClampToEdge;
     PostProcessingShaderFX.address_w := PostProcessingShaderFX.ClampToEdge |}.

Definition two_textures : list PostProcessingShaderFX.texture_info :=
  [ {| PostProcessingShaderFX.ti_semantic := "COLOR"%string;
       PostProcessingShaderFX.ti_unique_name := "V__BackBuffer"%string;
       PostProcessingShaderFX.ti_render_target := false;
       PostProcessingShaderFX.ti_format := 11;
       PostProcessingShaderFX.ti_annotations := [] |};
    {| PostProcessingShaderFX.ti_semantic := EmptyString;
       PostProcessingShaderFX.ti_unique_name := "V__Blur"%string;
       PostProcessingShaderFX.ti_render_target := true;
       PostProcessingShaderFX.ti_format := 11;
       PostProcessingShaderFX.ti_annotations := [] |} ].

Definition sampler_of (name texture_name : String.string)
  : PostProcessingShaderFX.sampler_info :=
  {| PostProcessingShaderFX.si_unique_name := name;
     PostProcessingShaderFX.si_texture_name := texture_name;
     PostProcessingShaderFX.si_filter := PostProcessingShaderFX.min_mag_mip_linear;
     PostProcessingShaderFX.si_address_u := PostProcessingShaderFX.clamp;
     PostProcessingShaderFX.si_address_v := PostProcessingShaderFX.clamp;
     PostProcessingShaderFX.si_address_w := PostProcessingShaderFX.clamp |}.

Definition two_passes : list PostProcessingShaderFX.pass_info :=
  [ {| PostProcessingShaderFX.pi_render_target_name := "V__Blur"%string;
       PostProcessingShaderFX.pi_samplers :=
         [sampler_of "V__BackSampler" "V__BackBuffer"] |};
    {| PostProcessingShaderFX.pi_render_target_name := EmptyString;
       PostProcessingShaderFX.pi_samplers :=
         [sampler_of "V__BackSampler" "V__BackBuffer";
          sampler_of "V__BlurSampler" "V__Blur"] |} ].

Definition no_passes : PostProcessingShaderFX.State :=
  {| PostProcessingShaderFX.m_textures := [];
     PostProcessingShaderFX.m_passes := [];
     PostProcessingShaderFX.device_calls := O |}.

End Examples.


(** * Properties *)

Module PtrFacts.
Import GPUTextureCache Rep.

(** *** Loads after stores *)

Lemma store_node_Some f n s nd :
  get_node s n = Some nd -> exists s', store_node f n s = Some s'.
Proof.
  unfold get_node, store_node. intros H.
  destruct (heap s !! n.1) as [o|]; simpl in *; [|done].
  rewrite H. simpl. eauto.
Qed.

Lemma store_node_get f n s s' m :
  store_node f n s = Some s' ->
  get_node s' m = if decide (m = n) then f <$> get_node s n else get_node s m.
Proof.
  unfold store_node, get_node. intros H.
  destruct (heap s !! n.1) as [o|] eqn:Ho; simpl in *; [|done].
  destruct (src_page_refs o !! n.2) as [nd|] eqn:Hnd; simpl in *; [|done].
  injection H as <-. simpl.
  destruct m as [a i], n as [b j]; simpl in *.
  case_decide as Hmn.
  - injection Hmn as -> ->. rewrite lookup_insert_eq. simpl.
    rewrite list_lookup_insert_eq by (by eapply lookup_lt_Some). done.
  - destruct (decide (a = b)) as [->|Hab].
    + rewrite lookup_insert_eq, Ho. simpl.
      rewrite list_lookup_insert_ne by congruence. done.
    + rewrite lookup_insert_ne by congruence. done.
Qed.

Lemma store_node_pages f n s s' :
  store_node f n s = Some s' -> m_page_sources s' = m_page_sources s.
Proof.
  unfold store_node. intros H.
  destruct (heap s !! n.1) as [o|]; simpl in *; [|done].
  destruct (src_page_refs o !! n.2) as [nd|]; simpl in *; [|done].
  by injection H as <-.
Qed.

Lemma store_node_meta f n s s' :
  (forall nd, erase_node (f nd) = erase_node nd) ->
  store_node f n s = Some s' ->
  meta s' = meta s /\ next_addr s' = next_addr s /\ recycled s' = recycled s.
Proof.
  unfold store_node, meta. intros Hf H.
  destruct (heap s !! n.1) as [o|] eqn:Ho; simpl in *; [|done].
  destruct (src_page_refs o !! n.2) as [nd|] eqn:Hnd; simpl in *; [|done].
  injection H as <-. simpl. split; [|done].
  rewrite fmap_insert. apply insert_id.
  rewrite lookup_fmap, Ho. simpl. f_equal.
  unfold erase_src, with_page_refs. simpl. f_equal.
  rewrite list_fmap_insert, Hf. symmetry. apply list_insert_id.
  by rewrite list_lookup_fmap, Hnd.
Qed.

Lemma store_list_Some f l s sl :
  m_page_sources s !! l = Some sl ->
  store_list f l s = Some (with_page_sources (<[l := f sl]> (m_page_sources s)) s).
Proof. unfold store_list. by intros ->. Qed.

Lemma store_list_get f l s s' m :
  store_list f l s = Some s' -> get_node s' m = get_node s m.
Proof.
  unfold store_list. destruct (m_page_sources s !! l); simpl; [|done].
  by intros [= <-].
Qed.

Lemma store_list_heap f l s s' :
  store_list f l s = Some s' ->
  heap s' = heap s /\ next_addr s' = next_addr s /\ recycled s' = recycled s.
Proof.
  unfold store_list. destruct (m_page_sources s !! l); simpl; [|done].
  by intros [= <-].
Qed.

Lemma store_list_pages f l s s' m :
  store_list f l s = Some s' ->
  m_page_sources s' !! m =
    if decide (m = l) then f <$> m_page_sources s !! l else m_page_sources s !! m.
Proof.
  unfold store_list. destruct (m_page_sources s !! l) as [sl|] eqn:Hl; simpl; [|done].
  intros [= <-]. simpl. case_decide as Hm.
  - subst. rewrite list_lookup_insert_eq by (by eapply lookup_lt_Some). done.
  - by rewrite list_lookup_insert_ne.
Qed.

Lemma store_list_length f l s s' :
  store_list f l s = Some s' -> length (m_page_sources s') = length (m_page_sources s).
Proof.
  unfold store_list. destruct (m_page_sources s !! l) as [sl|] eqn:Hl; simpl; [|done].
  intros [= <-]. simpl. by rewrite length_insert.
Qed.

(** *** Segments *)

Lemma seg_frame s s' p c l last nxt :
  (forall n, n ∈ l ->
     (fun nd => (node_prev nd, node_next nd)) <$> get_node s' n =
     (fun nd => (node_prev nd, node_next nd)) <$> get_node s n) ->
  seg s p c l last nxt -> seg s' p c l last nxt.
Proof.
  intros Hfr Hseg. induction Hseg as [|p n nd l last nxt Hn Hp Hseg IH].
  - constructor.
  - pose proof (Hfr n ltac:(left)) as Hn'. rewrite Hn in Hn'. simpl in Hn'.
    destruct (get_node s' n) as [nd'|] eqn:E; simpl in Hn'; [|done].
    injection Hn' as Hpr Hnx.
    econstructor; [exact E|congruence|].
    rewrite Hnx. apply IH. intros m Hm. apply Hfr. by right.
Qed.

Lemma seg_app s p c l1 m c2 l2 last nxt :
  seg s p c l1 m c2 -> seg s m c2 l2 last nxt -> seg s p c (l1 ++ l2) last nxt.
Proof.
  intros H1 H2. induction H1; simpl; [done|].
  econstructor; eauto.
Qed.

Lemma seg_split s p c l1 l2 last nxt :
  seg s p c (l1 ++ l2) last nxt ->
  exists m c2, seg s p c l1 m c2 /\ seg s m c2 l2 last nxt.
Proof.
  revert p c. induction l1 as [|a l1 IH]; simpl; intros p c H.
  - exists p, c. split; [constructor|done].
  - inversion H; subst.
    destruct (IH _ _ ltac:(eassumption)) as (m & c2 & Ha & Hb).
    exists m, c2. split; [|done]. econstructor; eauto.
Qed.

Lemma seg_ends s p c l lst nxt :
  seg s p c l lst nxt ->
  c = match l with [] => nxt | n :: _ => Some n end /\
  lst = match last l with None => p | Some x => Some x end.
Proof.
  intros H. induction H as [|p n nd l lst nxt Hn Hp Hseg [IH1 IH2]].
  - done.
  - split; [done|]. destruct l as [|b l].
    + inversion Hseg; subst. done.
    + rewrite last_cons_cons. rewrite IH2.
      destruct (last (b :: l)) eqn:E; [done|].
      by apply last_None in E.
Qed.

Lemma seg_nil_inv s p c last nxt :
  seg s p c [] last nxt -> last = p /\ nxt = c.
Proof. by inversion 1. Qed.

Lemma seg_head s p c l last :
  seg s p c l last None -> c = head l.
Proof.
  intros H. apply seg_ends in H as [-> _]. by destruct l.
Qed.

Lemma seg_last s c l lst nxt :
  seg s None c l lst nxt -> lst = last l.
Proof.
  intros H. apply seg_ends in H as [_ ->]. by destruct (last l).
Qed.

End PtrFacts.

Module UnlinkFacts.
Import GPUTextureCache Rep PtrFacts.

Lemma meta_lookup s id e :
  meta s !! id = Some e <-> exists o, heap s !! id = Some o /\ e = erase_src o.
Proof.
  unfold meta. rewrite lookup_fmap. destruct (heap s !! id) as [o|]; simpl.
  - split; [intros [= <-]; eauto|]. intros (o' & [= <-] & ->). done.
  - split; [done|]. by intros (? & ? & ?).
Qed.

Lemma meta_node s id e i r l :
  meta s !! id = Some e -> e_nodes e !! i = Some (r, l) ->
  exists nd, get_node s (id, i) = Some nd /\ node_ref nd = r /\ node_list nd = l.
Proof.
  intros (o & Ho & ->)%meta_lookup. simpl. rewrite list_lookup_fmap.
  unfold get_node. simpl. rewrite Ho. simpl.
  destruct (src_page_refs o !! i) as [nd|]; simpl; [|done].
  intros [= <- <-]. eauto.
Qed.

Lemma get_node_meta s n nd :
  get_node s n = Some nd ->
  exists e, meta s !! n.1 = Some e /\ e_nodes e !! n.2 = Some (erase_node nd).
Proof.
  unfold get_node. destruct (heap s !! n.1) as [o|] eqn:Ho; simpl; [|done].
  intros Hnd. exists (erase_src o). split.
  - apply meta_lookup. eauto.
  - simpl. by rewrite list_lookup_fmap, Hnd.
Qed.

Lemma ptr_ok_node L s pn n :
  ptr_ok L s -> n ∈ L pn ->
  exists nd, get_node s n = Some nd /\ node_ref nd = Some n.1 /\ node_list nd = Some pn.
Proof.
  intros H Hn. destruct (po_node _ _ H _ _ Hn) as (e & He & _ & Hnd).
  destruct n as [id i]. eapply meta_node; eauto.
Qed.

Lemma ptr_ok_disjoint L s pn pn' n :
  ptr_ok L s -> n ∈ L pn -> n ∈ L pn' -> pn = pn'.
Proof.
  intros H H1 H2.
  destruct (ptr_ok_node _ _ _ _ H H1) as (nd & Hnd & _ & Hl).
  destruct (ptr_ok_node _ _ _ _ H H2) as (nd' & Hnd' & _ & Hl').
  congruence.
Qed.

Lemma ptr_ok_slot L s pn n :
  ptr_ok L s -> n ∈ L pn -> exists sl, m_page_sources s !! pn = Some sl.
Proof.
  intros H Hn. apply lookup_lt_is_Some. rewrite (po_len _ _ H).
  destruct (decide (pn < Z.to_nat NUM_PAGES)%nat); [done|].
  rewrite (po_out _ _ H pn) in Hn by lia. by apply elem_of_nil in Hn.
Qed.

Lemma ptr_ok_NoDup L s pn : ptr_ok L s -> NoDup (L pn).
Proof. intros H. eapply NoDup_fmap_1, (po_nodup _ _ H). Qed.

Lemma ptr_ok_ext L L' s :
  (forall pn, L pn = L' pn) -> ptr_ok L s -> ptr_ok L' s.
Proof.
  intros HL [H1 H2 H3 H4 H5]. split; [done|..]; intros pn; rewrite <- ?HL; eauto.
Qed.

(** *** Segments under stores *)

Lemma seg_store_node_frame f n s s' p c l last nxt :
  store_node f n s = Some s' -> n ∉ l ->
  seg s p c l last nxt -> seg s' p c l last nxt.
Proof.
  intros Hst Hn. apply seg_frame. intros m Hm.
  rewrite (store_node_get _ _ _ _ m Hst). case_decide; [subst; done|done].
Qed.

Lemma seg_store_list_frame f k s s' p c l last nxt :
  store_list f k s = Some s' ->
  seg s p c l last nxt -> seg s' p c l last nxt.
Proof.
  intros Hst. apply seg_frame. intros m _. by rewrite (store_list_get _ _ _ _ m Hst).
Qed.

Lemma seg_set_next_last s s' pr c l p last nxt x :
  seg s pr c (l ++ [p]) last nxt -> p ∉ l ->
  store_node (set_next x) p s = Some s' ->
  seg s' pr c (l ++ [p]) last x.
Proof.
  intros Hseg Hp Hst. apply seg_split in Hseg as (m & c2 & H1 & H2).
  eapply seg_app; [eapply seg_store_node_frame; eauto|].
  inversion H2 as [|? ? nd ? ? ? Hn Hpr Hrest]; subst.
  apply seg_nil_inv in Hrest as [-> ->].
  econstructor.
  - rewrite (store_node_get _ _ _ _ p Hst), decide_True by done. by rewrite Hn.
  - done.
  - simpl. constructor.
Qed.

Lemma seg_set_prev_first s s' pr q l last nxt m :
  seg s pr (Some q) (q :: l) last nxt -> q ∉ l ->
  store_node (set_prev m) q s = Some s' ->
  seg s' m (Some q) (q :: l) last nxt.
Proof.
  intros Hseg Hq Hst.
  inversion Hseg as [|? ? nd ? ? ? Hn Hpr Hrest]; subst.
  econstructor.
  - rewrite (store_node_get _ _ _ _ q Hst), decide_True by done. by rewrite Hn.
  - done.
  - simpl. eapply seg_store_node_frame; eauto.
Qed.

End UnlinkFacts.

Module UnlinkSpec.
Import GPUTextureCache Rep PtrFacts UnlinkFacts.

Lemma erase_set_next v nd : erase_node (set_next v nd) = erase_node nd.
Proof. done. Qed.
Lemma erase_set_prev v nd : erase_node (set_prev v nd) = erase_node nd.
Proof. done. Qed.

Lemma frame_refl U pn s : frame U pn s s.
Proof. by repeat split. Qed.

Lemma frame_trans U U' pn s s1 s2 :
  frame U pn s s1 -> frame U' pn s1 s2 -> frame (U ++ U') pn s s2.
Proof.
  intros (A1 & A2 & A3 & A4 & A5 & A6) (B1 & B2 & B3 & B4 & B5 & B6).
  unfold frame. split_and!; [congruence| | |congruence|congruence|congruence].
  - intros k Hk. rewrite B2, A2; done.
  - intros m Hm. rewrite elem_of_app in Hm. rewrite B3, A3; tauto.
Qed.

Lemma store_node_frame f p pn s s1 :
  (forall nd, erase_node (f nd) = erase_node nd) ->
  store_node f p s = Some s1 -> frame [p] pn s s1.
Proof.
  intros Hf Hst. destruct (store_node_meta _ _ _ _ Hf Hst) as (M1 & M2 & M3).
  pose proof (store_node_pages _ _ _ _ Hst) as Hp.
  unfold frame. split_and!; [congruence|intros; congruence| |done|done|done].
  intros m Hm. rewrite (store_node_get _ _ _ _ m Hst).
  rewrite decide_False; [done|]. intros ->. apply Hm. by left.
Qed.

Lemma store_list_frame f pn s s1 :
  store_list f pn s = Some s1 -> frame [] pn s s1.
Proof.
  intros Hst. destruct (store_list_heap _ _ _ _ Hst) as (M1 & M2 & M3).
  unfold frame. split_and!; [| | | |done|done].
  - eapply store_list_length; eauto.
  - intros k Hk. pose proof (store_list_pages _ _ _ _ k Hst) as E.
    rewrite decide_False in E by done. exact E.
  - intros m _. eapply store_list_get; eauto.
  - unfold meta. by rewrite M1.
Qed.

Lemma frame_seg U pn s s1 p c l lst nxt :
  frame U pn s s1 -> (forall x, x ∈ l -> x ∉ U) ->
  seg s p c l lst nxt -> seg s1 p c l lst nxt.
Proof.
  intros (_ & _ & Hg & _) Hl. apply seg_frame. intros m Hm.
  rewrite Hg; [done|]. by apply Hl.
Qed.

Lemma filter_ne_id (n : NodePtr) (l : list NodePtr) :
  n ∉ l -> filter (fun m => m <> n) l = l.
Proof.
  induction l as [|a l IH]; intros Hn; [done|].
  apply not_elem_of_cons in Hn as [? ?].
  rewrite filter_cons_True by done. f_equal. by apply IH.
Qed.

Lemma ListUnlink_spec L s pn n :
  ptr_ok L s -> n ∈ L pn ->
  exists s', ListUnlink n s = Some s' /\
    ptr_ok (fun p => filter (fun m => m <> n) (L p)) s' /\
    meta s' = meta s /\ next_addr s' = next_addr s /\ recycled s' = recycled s.
Proof.
  intros Hok Hn.
  destruct (ptr_ok_slot _ _ _ _ Hok Hn) as [sl Hsl].
  pose proof (po_seg _ _ Hok _ _ Hsl) as Hseg.
  pose proof (ptr_ok_NoDup L s pn Hok) as Hnd.
  destruct (list_elem_of_split _ _ Hn) as (l1 & l2 & HL).
  rewrite HL in Hseg, Hnd.
  apply NoDup_app in Hnd as (Hnd1 & Hn1 & Hnd2).
  apply NoDup_cons in Hnd2 as (Hn2 & Hnd2).
  assert (n ∉ l1) as Hn1'.
  { intros Hin. apply (Hn1 _ Hin). by left. }
  apply seg_split in Hseg as (m & c2 & Hleft & Hright).
  inversion Hright as [|? ? nd ? ? ? Hgn Hpr Hrest]; subst c2 m.
  subst.
  destruct (ptr_ok_node _ _ _ _ Hok Hn) as (nd' & Hgn' & _ & Hlist).
  rewrite Hgn in Hgn'. injection Hgn' as <-.
  (* the nodes of the list of [pn] occur in no other list *)
  assert (forall U k sl' s1, frame U pn s s1 -> (forall x, x ∈ U -> x ∈ L pn) ->
            k <> pn -> m_page_sources s1 !! k = Some sl' ->
            seg s1 None (sl_head sl') (L k) (sl_tail sl') None) as Hothers.
  { intros U k sl' s1 Hfr HU Hk Hsl'.
    eapply frame_seg; [exact Hfr| |].
    - intros x Hx HxU. apply Hk. eapply ptr_ok_disjoint; eauto.
    - destruct Hfr as (_ & Hp & _). rewrite Hp in Hsl' by done.
      by apply (po_seg _ _ Hok). }
  (* first store: the predecessor's [next], or the list's [head] *)
  assert (exists s1 U sl1,
    match node_prev nd with
    | Some p => store_node (set_next (node_next nd)) p s
    | None => l ← node_list nd; store_list (set_head (node_next nd)) l s
    end = Some s1 /\ frame U pn s s1 /\ (forall x, x ∈ U -> x ∈ l1) /\
    m_page_sources s1 !! pn = Some sl1 /\ sl_tail sl1 = sl_tail sl /\
    seg s1 None (sl_head sl1) l1 (node_prev nd) (node_next nd))
    as (s1 & U1 & sl1 & Hst1 & Hfr1 & HU1 & Hsl1 & Htl1 & Hleft1).
  { pose proof (seg_last _ _ _ _ _ Hleft) as Hlast.
    destruct (node_prev nd) as [p|] eqn:Hp.
    - symmetry in Hlast. apply last_Some in Hlast as [l1' ->].
      assert (p ∈ L pn) as HpL.
      { rewrite HL. rewrite !elem_of_app. left. right. by left. }
      destruct (ptr_ok_node _ _ _ _ Hok HpL) as (ndp & Hgp & _).
      destruct (store_node_Some (set_next (node_next nd)) _ _ _ Hgp) as [s1 Hst1].
      exists s1, [p], sl. split; [done|].
      split; [by eapply store_node_frame; eauto using erase_set_next|].
      split. { intros x ->%list_elem_of_singleton. rewrite elem_of_app. right. by left. }
      split. { by rewrite (store_node_pages _ _ _ _ Hst1). }
      split; [done|].
      eapply seg_set_next_last; eauto.
      apply NoDup_app in Hnd1 as (_ & Hd & _). intros Hin. apply (Hd _ Hin). by left.
    - symmetry in Hlast. apply last_None in Hlast as ->.
      apply seg_nil_inv in Hleft as [_ Hhd].
      rewrite Hlist. simpl.
      rewrite (store_list_Some _ _ _ _ Hsl).
      eexists _, [], _. split; [done|].
      split. { eapply store_list_frame. by apply store_list_Some. }
      split. { by intros x ?%elem_of_nil. }
      split. { simpl. apply list_lookup_insert_eq. by eapply lookup_lt_Some. }
      split; [done|]. simpl. constructor. }
  assert (get_node s1 n = Some nd) as Hgn1.
  { destruct Hfr1 as (_ & _ & Hg & _). rewrite Hg; [done|]. intros Hin. by apply Hn1', HU1. }
  assert (seg s1 (Some n) (node_next nd) l2 (sl_tail sl) None) as Hrest1.
  { eapply frame_seg; [exact Hfr1| |exact Hrest].
    intros x Hx HxU. apply (Hn1 x); [by apply HU1|]. by right. }
  (* second store: the successor's [prev], or the list's [tail] *)
  assert (exists s2 U sl2,
    match node_next nd with
    | Some q => store_node (set_prev (node_prev nd)) q s1
    | None => l ← node_list nd; store_list (set_tail (node_prev nd)) l s1
    end = Some s2 /\ frame U pn s1 s2 /\ (forall x, x ∈ U -> x ∈ l2) /\
    m_page_sources s2 !! pn = Some sl2 /\ sl_head sl2 = sl_head sl1 /\
    seg s2 (node_prev nd) (node_next nd) l2 (sl_tail sl2) None)
    as (s2 & U2 & sl2 & Hst2 & Hfr2 & HU2 & Hsl2 & Hhd2 & Hright2).
  { pose proof (seg_head _ _ _ _ _ Hrest1) as Hhead.
    destruct (node_next nd) as [q|] eqn:Hq.
    - symmetry in Hhead. apply head_Some in Hhead as [l2' ->].
      inversion Hrest1 as [|? ? ndq ? ? ? Hgq _ _]; subst.
      destruct (store_node_Some (set_prev (node_prev nd)) _ _ _ Hgq) as [s2 Hst2].
      exists s2, [q], sl1. split; [done|].
      split; [by eapply store_node_frame; eauto using erase_set_prev|].
      split. { intros x ->%list_elem_of_singleton. by left. }
      split. { by rewrite (store_node_pages _ _ _ _ Hst2). }
      split; [done|]. rewrite Htl1.
      eapply seg_set_prev_first; eauto.
      by apply NoDup_cons in Hnd2 as [? _].
    - symmetry in Hhead. apply head_None in Hhead as ->.
      rewrite Hlist. simpl.
      rewrite (store_list_Some _ _ _ _ Hsl1).
      eexists _, [], _. split; [done|].
      split. { eapply store_list_frame. by apply store_list_Some. }
      split. { by intros x ?%elem_of_nil. }
      split. { simpl. apply list_lookup_insert_eq. by eapply lookup_lt_Some. }
      split; [done|]. simpl. constructor. }
  exists s2. split.
  { unfold ListUnlink. rewrite Hgn. simpl. rewrite Hst1. simpl. rewrite Hgn1. simpl. exact Hst2. }
  pose proof (frame_trans _ _ _ _ _ _ Hfr1 Hfr2) as Hfr.
  assert (forall x, x ∈ U1 ++ U2 -> x ∈ L pn) as HU.
  { intros x [H|H]%elem_of_app; rewrite HL, elem_of_app.
    - left. by apply HU1.
    - right. right. by apply HU2. }
  destruct Hfr as (F1 & F2 & F3 & F4 & F5 & F6).
  split; [|done]. split.
  - rewrite F1. apply (po_len _ _ Hok).
  - intros k slk Hk. destruct (decide (k = pn)) as [->|Hne].
    + rewrite Hsl2 in Hk. injection Hk as <-. rewrite HL.
      rewrite filter_app.
      rewrite filter_cons_False; [|intros Hnn; apply Hnn; reflexivity].
      rewrite !filter_ne_id by done. rewrite Hhd2.
      eapply seg_app; [|exact Hright2].
      eapply frame_seg; [exact Hfr2| |exact Hleft1].
      intros x Hx HxU. apply (Hn1 x Hx). right. by apply HU2.
    + assert (filter (fun m => m <> n) (L k) = L k) as ->.
      { apply filter_ne_id. intros Hin. apply Hne. eapply ptr_ok_disjoint; eauto. }
      eapply (Hothers (U1 ++ U2)); eauto.
      by repeat split.
  - intros k Hk. by rewrite (po_out _ _ Hok k Hk).
  - intros k x [_ Hx]%list_elem_of_filter. rewrite F4. by apply (po_node _ _ Hok).
  - intros k. eapply sublist_NoDup; [apply (po_nodup _ _ Hok k)|].
    apply fmap_sublist, sublist_filter.
Qed.

End UnlinkSpec.

Module InvalidateFacts.
Import GPUTextureCache Rep PtrFacts UnlinkFacts UnlinkSpec.

Lemma unlink_page_refs_spec id count :
  forall i L s,
  ptr_ok L s ->
  (forall j, (i <= j < i + count)%nat -> exists pn, (id, j) ∈ L pn) ->
  exists s', unlink_page_refs id count i s = Some s' /\
    ptr_ok (fun p => filter (fun m => ~ (m.1 = id /\ (i <= m.2 < i + count)%nat)) (L p)) s' /\
    meta s' = meta s /\ next_addr s' = next_addr s /\ recycled s' = recycled s.
Proof.
  induction count as [|count IH]; intros i L s Hok Hin.
  - exists s. split; [done|]. split; [|done].
    eapply ptr_ok_ext; [|exact Hok]. intros pn. simpl.
    symmetry. induction (L pn) as [|a l IHl]; [done|].
    rewrite filter_cons_True by lia. by f_equal.
  - destruct (Hin i ltac:(lia)) as [pn Hpn].
    destruct (ListUnlink_spec _ _ _ _ Hok Hpn) as (s1 & Hs1 & Hok1 & M1 & N1 & R1).
    destruct (IH (S i) _ _ Hok1) as (s2 & Hs2 & Hok2 & M2 & N2 & R2).
    { intros j Hj. destruct (Hin j ltac:(lia)) as [pj Hpj]. exists pj.
      apply list_elem_of_filter. split; [|done]. intros [= ?]. lia. }
    exists s2. split. { simpl. rewrite Hs1. simpl. exact Hs2. }
    split; [|by rewrite M2, N2, R2].
    eapply ptr_ok_ext; [|exact Hok2]. intros p. simpl.
    rewrite list_filter_filter. apply list_filter_iff. intros [a b]. simpl.
    split.
    + intros [H1 H2] [-> H3]. destruct (decide (b = i)) as [->|]; [done|].
      apply H1. split; [done|]. lia.
    + intros H. split.
      * intros [-> ?]. apply H. split; [done|]. lia.
      * intros [= -> ->]. apply H. split; [done|]. lia.
Qed.

Lemma delete_source_get id s s' m :
  delete_source id s = Some s' -> m.1 <> id -> get_node s' m = get_node s m.
Proof.
  unfold delete_source, get_node. destruct (heap s !! id); simpl; [|done].
  intros [= <-] Hm. simpl. by rewrite lookup_delete_ne.
Qed.

Lemma delete_source_facts id s o :
  heap s !! id = Some o ->
  exists s', delete_source id s = Some s' /\
    m_page_sources s' = m_page_sources s /\
    meta s' = delete id (meta s) /\ next_addr s' = next_addr s /\
    recycled s' = src_texture o :: recycled s.
Proof.
  intros Ho. unfold delete_source. rewrite Ho. simpl.
  eexists. split; [done|]. simpl. repeat split.
  unfold meta. simpl. by rewrite fmap_delete.
Qed.

Lemma filter_iff_elem {A} (P1 P2 : A -> Prop)
    `{!forall x, Decision (P1 x), !forall x, Decision (P2 x)} (l : list A) :
  (forall x, x ∈ l -> P1 x <-> P2 x) -> filter P1 l = filter P2 l.
Proof.
  induction l as [|a l IH]; intros Hiff; [done|].
  assert (filter P1 l = filter P2 l) as E.
  { apply IH. intros x Hx. apply Hiff. by right. }
  destruct (decide (P1 a)) as [Ha|Ha].
  - rewrite !filter_cons_True; [by rewrite E| |done]. apply Hiff; [by left|done].
  - rewrite !filter_cons_False; [done| |done]. intros Hb. apply Ha, Hiff; [by left|done].
Qed.

Lemma ptr_ok_delete L s1 s2 id :
  ptr_ok L s1 -> (forall p m, m ∈ L p -> m.1 <> id) ->
  delete_source id s1 = Some s2 -> ptr_ok L s2.
Proof.
  intros Hok Hne Hdel.
  assert (exists o, heap s1 !! id = Some o) as [o Ho].
  { unfold delete_source in Hdel. destruct (heap s1 !! id); [eauto|done]. }
  destruct (delete_source_facts _ _ _ Ho) as (s2' & Hs2 & P2 & M2 & N2 & R2).
  rewrite Hdel in Hs2. injection Hs2 as <-.
  split.
  - rewrite P2. apply (po_len _ _ Hok).
  - intros pn sl Hsl. rewrite P2 in Hsl.
    eapply seg_frame; [|by apply (po_seg _ _ Hok)].
    intros m Hm. rewrite (delete_source_get _ _ _ m Hdel); [done|]. eauto.
  - apply (po_out _ _ Hok).
  - intros pn n Hn. rewrite M2, lookup_delete_ne by (intros E; eapply Hne; eauto).
    by apply (po_node _ _ Hok).
  - apply (po_nodup _ _ Hok).
Qed.

(** One iteration of the loop of [InvalidatePage]: the source [id] leaves
    every list and the heap. *)
Lemma invalidate_source_spec L s id o :
  inv L s -> heap s !! id = Some o ->
  exists s1 s2,
    unlink_page_refs id (src_num_page_refs o) O s = Some s1 /\
    delete_source id s1 = Some s2 /\
    inv (fun p => filter (fun m => m.1 <> id) (L p)) s2 /\
    meta s2 = delete id (meta s) /\ next_addr s2 = next_addr s /\
    recycled s2 = src_texture o :: recycled s.
Proof.
  intros (Hok & Hown & Hpos) Ho.
  assert (meta s !! id = Some (erase_src o)) as Hm by (apply meta_lookup; eauto).
  destruct (unlink_page_refs_spec id (src_num_page_refs o) O L s Hok)
    as (s1 & Hs1 & Hok1 & M1 & N1 & R1).
  { intros j Hj. destruct (oo_linked _ _ Hown _ _ j Hm) as (pn & _ & Hin).
    - simpl. lia.
    - eauto. }
  assert (exists o1, heap s1 !! id = Some o1 /\ src_texture o1 = src_texture o) as (o1 & Ho1 & Ht).
  { rewrite <- M1 in Hm. apply meta_lookup in Hm as (o1 & Ho1 & E).
    exists o1. split; [done|]. by injection E. }
  destruct (delete_source_facts _ _ _ Ho1) as (s2 & Hs2 & P2 & M2 & N2 & R2).
  exists s1, s2. split; [done|]. split; [done|].
  assert (forall p, filter (fun m => ~ (m.1 = id /\ (0 <= m.2 < 0 + src_num_page_refs o)%nat)) (L p)
                    = filter (fun m => m.1 <> id) (L p)) as HLeq.
  { intros p. apply filter_iff_elem. intros m Hin. split.
    - intros H E. apply H. split; [done|].
      destruct (po_node _ _ Hok _ _ Hin) as (e & He & Hlt & _).
      destruct m as [a b]. simpl in *. subst a.
      rewrite Hm in He. injection He as <-. simpl in Hlt. lia.
    - intros H [E _]. done. }
  assert (ptr_ok (fun p => filter (fun m => m.1 <> id) (L p)) s1) as Hok1'.
  { eapply ptr_ok_ext; [|exact Hok1]. intros p. simpl. apply HLeq. }
  split; [|rewrite M2, M1, N2, N1, R2, R1, Ht; done].
  split.
  { eapply ptr_ok_delete; [exact Hok1'| |exact Hs2].
    by intros p m [? _]%list_elem_of_filter. }
  assert (forall a e, meta s2 !! a = Some e -> a <> id /\ meta s !! a = Some e) as Hlk.
  { intros a e. rewrite M2, M1. by intros [? ?]%lookup_delete_Some. }
  split; [|intros a e [Ha He]%Hlk; by eapply Hpos].
  split.
  - intros a e i [Ha He]%Hlk Hi.
    destruct (oo_linked _ _ Hown _ _ _ He Hi) as (pn & Hnd & Hin).
    exists pn. split; [done|]. apply list_elem_of_filter. by split.
  - intros a e [Ha He]%Hlk. rewrite N2, N1. by apply (oo_bounds _ _ Hown).
  - intros a e [Ha He]%Hlk. by apply (oo_first _ _ Hown).
  - intros a b ea eb [Ha Hea]%Hlk [Hb Heb]%Hlk. by eapply (oo_keys _ _ Hown).
  - intros a e i r pn [Ha He]%Hlk. by eapply (oo_pages _ _ Hown).
Qed.

End InvalidateFacts.

Module InvalidateSpec.
Import GPUTextureCache Rep PtrFacts UnlinkFacts UnlinkSpec InvalidateFacts.

Lemma inv_ext L L' s : (forall pn, L pn = L' pn) -> inv L s -> inv L' s.
Proof.
  intros HL (Hok & [H1 H2 H3 H4 H5] & Hpos). split; [by eapply ptr_ok_ext|].
  split; [|done]. split; try done.
  intros id e i He Hi. destruct (H1 id e i He Hi) as (pn & ? & ?).
  exists pn. by rewrite <- HL.
Qed.

Lemma filter_all {A} (P : A -> Prop) `{!forall x, Decision (P x)} (l : list A) :
  (forall x, x ∈ l -> P x) -> filter P l = l.
Proof.
  induction l as [|a l IH]; intros Hall; [done|].
  rewrite filter_cons_True by (apply Hall; by left).
  f_equal. apply IH. intros x Hx. apply Hall. by right.
Qed.

Lemma page_slot_lt pn ps : page_slot pn = Some ps -> (ps < Z.to_nat NUM_PAGES)%nat /\ pn = Z.of_nat ps.
Proof.
  unfold page_slot. destruct (0 <=? pn) eqn:E1; simpl; [|done].
  destruct (pn <? NUM_PAGES) eqn:E2; [|done]. intros [= <-]. lia.
Qed.

Lemma inv_slot L s ps :
  inv L s -> (ps < Z.to_nat NUM_PAGES)%nat ->
  exists sl, m_page_sources s !! ps = Some sl /\
             seg s None (sl_head sl) (L ps) (sl_tail sl) None.
Proof.
  intros (Hok & _) Hlt.
  destruct (lookup_lt_is_Some_2 (m_page_sources s) ps) as [sl Hsl].
  { by rewrite (po_len _ _ Hok). }
  exists sl. split; [done|]. by apply (po_seg _ _ Hok).
Qed.

Lemma InvalidatePage_loop_spec ps fuel :
  forall L s,
  inv L s -> (ps < Z.to_nat NUM_PAGES)%nat ->
  ((length (L ps) <= fuel)%nat ->
     exists s', InvalidatePage_loop fuel (head (L ps)) s = Some s' /\
       inv (fun p => filter (fun m => m.1 ∉ (L ps).*1) (L p)) s' /\
       (forall id, meta s' !! id =
                   if decide (id ∈ (L ps).*1) then None else meta s !! id) /\
       next_addr s' = next_addr s /\
       length (recycled s') = (length (recycled s) + length (L ps))%nat) /\
  ((fuel < length (L ps))%nat -> InvalidatePage_loop fuel (head (L ps)) s = None).
Proof.
  induction fuel as [|fuel IH]; intros L s Hinv Hps.
  - destruct (L ps) as [|n rest] eqn:HL; simpl.
    + split; [|lia]. intros _. exists s. split; [done|]. split.
      { eapply inv_ext; [|exact Hinv]. intros p. simpl. symmetry.
        apply filter_all. by intros x _ ?%elem_of_nil. }
      split; [|split; [done|lia]].
      done.
    + split; [lia|done].
  - destruct (L ps) as [|n rest] eqn:HL.
    + simpl. split; [|lia]. intros _. exists s. split; [done|]. split.
      { eapply inv_ext; [|exact Hinv]. intros p. simpl. symmetry.
        apply filter_all. by intros x _ ?%elem_of_nil. }
      split; [|split; [done|lia]].
      done.
    + destruct (inv_slot _ _ _ Hinv Hps) as (sl & Hsl & Hseg).
      rewrite HL in Hseg.
      inversion Hseg as [|? ? nd ? ? ? Hgn Hpr Hrest]; subst.
      pose proof (seg_head _ _ _ _ _ Hrest) as Hnext.
      destruct Hinv as (Hok & Hown & Hpos).
      assert (n ∈ L ps) as Hin by (rewrite HL; by left).
      destruct (ptr_ok_node _ _ _ _ Hok Hin) as (nd' & Hgn' & Href & _).
      rewrite Hgn in Hgn'. injection Hgn' as <-.
      destruct (po_node _ _ Hok _ _ Hin) as (e & He & _).
      apply meta_lookup in He as (o & Ho & ->).
      destruct (invalidate_source_spec L s n.1 o (conj Hok (conj Hown Hpos)) Ho)
        as (s1 & s2 & Hs1 & Hs2 & Hinv2 & M2 & N2 & R2).
      pose proof (po_nodup _ _ Hok ps) as Hnd. rewrite HL in Hnd.
      simpl in Hnd. apply NoDup_cons in Hnd as [Hn1 Hnd].
      set (L1 := fun p => filter (fun m => m.1 <> n.1) (L p)) in *.
      assert (L1 ps = rest) as HL1.
      { unfold L1. rewrite HL.
        rewrite filter_cons_False; [|intros Hnn; apply Hnn; reflexivity].
        apply filter_all. intros m Hm E.
        apply Hn1. rewrite <- E. by apply list_elem_of_fmap_2. }
      destruct (IH L1 s2 Hinv2 Hps) as [IHa IHb]. rewrite HL1 in IHa, IHb.
      assert (InvalidatePage_loop (S fuel) (Some n) s =
              InvalidatePage_loop fuel (head rest) s2) as Hstep.
      { simpl. rewrite Hgn. simpl. rewrite Href. simpl. rewrite Ho. simpl.
        rewrite Hs1. simpl. rewrite Hs2. simpl. by rewrite Hnext. }
      change (head (n :: rest)) with (Some n). rewrite Hstep. split.
      * intros Hlen. simpl in Hlen.
        destruct (IHa ltac:(lia)) as (s' & Hs' & Hinv' & M' & N' & R').
        exists s'. split; [done|]. split.
        { eapply inv_ext; [|exact Hinv']. intros p. simpl. unfold L1.
          rewrite list_filter_filter. apply list_filter_iff. intros m.
          rewrite not_elem_of_cons. tauto. }
        split.
        { intros id. rewrite M', M2. rewrite fmap_cons.
          destruct (decide (id = n.1)) as [->|Hne].
          - rewrite lookup_delete_eq. rewrite (decide_True (P := n.1 ∈ n.1 :: rest.*1)) by left.
            by case_decide.
          - rewrite lookup_delete_ne by done.
            destruct (decide (id ∈ rest.*1)) as [H2|H2].
            + rewrite decide_True; [done|by right].
            + rewrite decide_False; [done|].
              intros [?|?]%elem_of_cons; done. }
        split; [congruence|]. rewrite R', R2. simpl. lia.
      * intros Hlen. simpl in Hlen. apply IHb. lia.
Qed.

Lemma with_page_sources_id s : with_page_sources (m_page_sources s) s = s.
Proof. by destruct s. Qed.

Lemma store_list_noop f ps s sl :
  m_page_sources s !! ps = Some sl -> f sl = sl -> store_list f ps s = Some s.
Proof.
  intros Hsl Hf. rewrite (store_list_Some _ _ _ _ Hsl), Hf.
  by rewrite list_insert_id, with_page_sources_id.
Qed.

Lemma InvalidatePage_spec L s fuel pn ps :
  inv L s -> page_slot pn = Some ps ->
  ((length (L ps) <= fuel)%nat ->
     exists s', InvalidatePage fuel pn s = Some s' /\ invalidated L ps s s') /\
  ((fuel < length (L ps))%nat -> InvalidatePage fuel pn s = None).
Proof.
  intros Hinv Hslot. destruct (page_slot_lt _ _ Hslot) as [Hps _].
  destruct (inv_slot _ _ _ Hinv Hps) as (sl & Hsl & Hseg).
  apply seg_head in Hseg as Hhd.
  destruct (InvalidatePage_loop_spec ps fuel L s Hinv Hps) as [Ha Hb].
  unfold InvalidatePage. rewrite Hslot. simpl. unfold get_list. rewrite Hsl. simpl.
  rewrite Hhd. split.
  - intros Hlen. destruct (Ha Hlen) as (s' & Hs' & Hinv' & M' & N' & R').
    rewrite Hs'. simpl.
    destruct (inv_slot _ _ _ Hinv' Hps) as (sl' & Hsl' & Hseg').
    assert (filter (fun m : nat * nat => m.1 ∉ (L ps).*1) (L ps) = []) as Hnil.
    { destruct (filter _ (L ps)) as [|m l] eqn:E; [done|].
      assert (m ∈ filter (fun m : nat * nat => m.1 ∉ (L ps).*1) (L ps)) as Hm
        by (rewrite E; by left).
      apply list_elem_of_filter in Hm as [Hm1 Hm2].
      exfalso. apply Hm1. by apply list_elem_of_fmap_2. }
    simpl in Hseg'. rewrite Hnil in Hseg'.
    inversion Hseg' as [? ? E1 E2 E3 E4 E5|]; subst.
    assert (sl' = null_list) as -> by (unfold null_list; destruct sl'; simpl in *; congruence).
    rewrite (store_list_noop _ _ _ _ Hsl') by done. simpl.
    rewrite (store_list_noop _ _ _ _ Hsl') by done.
    exists s'. split; [done|]. unfold invalidated. split_and!; try done.
  - intros Hlen. by rewrite (Hb Hlen).
Qed.

Lemma InvalidatePage_Some L s fuel pn s' :
  inv L s -> InvalidatePage fuel pn s = Some s' ->
  exists ps, page_slot pn = Some ps /\ invalidated L ps s s'.
Proof.
  intros Hinv Hs'. destruct (page_slot pn) as [ps|] eqn:Hslot.
  - exists ps. split; [done|].
    destruct (InvalidatePage_spec L s fuel pn ps Hinv Hslot) as [Ha Hb].
    destruct (decide (length (L ps) <= fuel)%nat) as [Hle|Hgt].
    + destruct (Ha Hle) as (s'' & Hs'' & Hpost). congruence.
    + rewrite Hb in Hs' by lia. done.
  - unfold InvalidatePage in Hs'. rewrite Hslot in Hs'. done.
Qed.

End InvalidateSpec.

Module AppendSpec.
Import GPUTextureCache Rep PtrFacts UnlinkFacts UnlinkSpec InvalidateFacts InvalidateSpec.

Lemma store_node_compose f g n s s1 :
  store_node f n s = Some s1 ->
  store_node g n s1 = store_node (fun nd => g (f nd)) n s.
Proof.
  unfold store_node. intros H.
  destruct (heap s !! n.1) as [o|] eqn:Ho; simpl in *; [|done].
  destruct (src_page_refs o !! n.2) as [nd|] eqn:Hnd; simpl in *; [|done].
  injection H as <-. simpl. rewrite lookup_insert_eq. simpl.
  rewrite list_lookup_insert_eq by (by eapply lookup_lt_Some). simpl.
  unfold with_heap, with_page_refs. simpl.
  by rewrite insert_insert_eq, list_insert_insert_eq.
Qed.

Lemma store_node_meta_gen f n s s' nd :
  get_node s n = Some nd -> store_node f n s = Some s' ->
  exists e, meta s !! n.1 = Some e /\
    meta s' = <[n.1 := set_enode n.2 (erase_node (f nd)) e]> (meta s) /\
    next_addr s' = next_addr s /\ recycled s' = recycled s.
Proof.
  unfold get_node, store_node. intros Hg Hst.
  destruct (heap s !! n.1) as [o|] eqn:Ho; simpl in *; [|done].
  rewrite Hg in Hst. simpl in Hst. injection Hst as <-.
  exists (erase_src o). split; [apply meta_lookup; eauto|]. split; [|done].
  unfold meta. simpl. rewrite fmap_insert. f_equal.
  unfold erase_src, set_enode. simpl. f_equal. by rewrite list_fmap_insert.
Qed.

Lemma ListAppend_unfold l item n s sl :
  get_list s l = Some sl ->
  ListAppend l item n s =
    s ← store_node (fun _ => appended l item (sl_tail sl)) n s;
    match sl_tail sl with
    | Some t =>
        s ← store_node (set_next (Some n)) t s;
        store_list (set_tail (Some n)) l s
    | None =>
        s ← store_list (set_head (Some n)) l s;
        store_list (set_tail (Some n)) l s
    end.
Proof.
  intros Hsl. unfold ListAppend.
  destruct (store_node (set_ref (Some item)) n s) as [s1|] eqn:H1; simpl.
  2:{ unfold store_node in *.
      destruct (heap s !! n.1) as [o|]; simpl in *; [|done].
      destruct (src_page_refs o !! n.2); simpl in *; done. }
  rewrite (store_node_compose _ _ _ _ _ H1).
  destruct (store_node (fun nd => set_list (Some l) (set_ref (Some item) nd)) n s)
    as [s2|] eqn:H2; simpl.
  2:{ unfold store_node in *.
      destruct (heap s !! n.1) as [o|]; simpl in *; [|done].
      destruct (src_page_refs o !! n.2); simpl in *; done. }
  rewrite (store_node_compose _ _ _ _ _ H2).
  destruct (store_node (fun nd => set_next None (set_list (Some l) (set_ref (Some item) nd))) n s)
    as [s3|] eqn:H3; simpl.
  2:{ unfold store_node in *.
      destruct (heap s !! n.1) as [o|]; simpl in *; [|done].
      destruct (src_page_refs o !! n.2); simpl in *; done. }
  assert (get_list s3 l = Some sl) as ->.
  { unfold get_list in *. by rewrite (store_node_pages _ _ _ _ H3). }
  simpl. destruct (sl_tail sl) as [t|] eqn:Ht.
  - rewrite (store_node_compose _ _ _ _ _ H3).
    unfold store_node at 1 3.
    destruct (heap s !! n.1) as [o|]; simpl in *; [|done].
    destruct (src_page_refs o !! n.2); simpl in *; done.
  - rewrite (store_node_compose _ _ _ _ _ H3).
    unfold store_node at 1 2.
    destruct (heap s !! n.1) as [o|]; simpl in *; [|done].
    destruct (src_page_refs o !! n.2); simpl in *; done.
Qed.

Lemma store_node_const_Some v n s nd :
  get_node s n = Some nd ->
  exists s', store_node (fun _ => v) n s = Some s' /\ get_node s' n = Some v.
Proof.
  intros Hg. destruct (store_node_Some (fun _ => v) _ _ _ Hg) as [s' Hs'].
  exists s'. split; [done|].
  rewrite (store_node_get _ _ _ _ n Hs'), decide_True by done. by rewrite Hg.
Qed.

Lemma ListAppend_spec L s l id ri nd0 e :
  ptr_ok L s ->
  get_node s (id, ri) = Some nd0 ->
  meta s !! id = Some e -> (ri < e_num e)%nat ->
  (forall p, (id, ri) ∉ L p) ->
  id ∉ (L l).*1 ->
  (l < Z.to_nat NUM_PAGES)%nat ->
  exists s', ListAppend l id (id, ri) s = Some s' /\
    ptr_ok (fun p => if decide (p = l) then L p ++ [(id, ri)] else L p) s' /\
    meta s' = <[id := set_enode ri (Some id, Some l) e]> (meta s) /\
    next_addr s' = next_addr s /\ recycled s' = recycled s.
Proof.
  intros Hok Hg He Hri Hfresh Hid Hl.
  set (n := (id, ri)) in *.
  destruct (lookup_lt_is_Some_2 (m_page_sources s) l) as [sl Hsl].
  { by rewrite (po_len _ _ Hok). }
  pose proof (po_seg _ _ Hok _ _ Hsl) as Hseg.
  rewrite (ListAppend_unfold _ _ _ _ sl Hsl).
  destruct (store_node_const_Some (appended l id (sl_tail sl)) _ _ _ Hg) as (s1 & Hs1 & Hg1).
  rewrite Hs1. simpl.
  destruct (store_node_meta_gen _ _ _ _ _ Hg Hs1) as (e' & He' & M1 & N1 & R1).
  simpl in He', M1. rewrite He in He'. injection He' as <-.
  pose proof (store_node_pages _ _ _ _ Hs1) as P1.
  assert (forall p c lst, seg s None c (L p) lst None -> seg s1 None c (L p) lst None) as Hfr1.
  { intros p c lst. eapply seg_store_node_frame; eauto. }
  (* the remaining stores *)
  assert (exists s3 sl3,
    match sl_tail sl with
    | Some t => s ← store_node (set_next (Some n)) t s1; store_list (set_tail (Some n)) l s
    | None => s ← store_list (set_head (Some n)) l s1; store_list (set_tail (Some n)) l s
    end = Some s3 /\
    length (m_page_sources s3) = length (m_page_sources s) /\
    m_page_sources s3 !! l = Some sl3 /\
    seg s3 None (sl_head sl3) (L l ++ [n]) (sl_tail sl3) None /\
    (forall p, p <> l -> m_page_sources s3 !! p = m_page_sources s !! p) /\
    (forall p c lst, p <> l -> seg s1 None c (L p) lst None -> seg s3 None c (L p) lst None) /\
    meta s3 = meta s1 /\ next_addr s3 = next_addr s1 /\ recycled s3 = recycled s1)
    as (s3 & sl3 & Hs3 & Hlen3 & Hsl3 & Hseg3 & Hp3 & Hfr3 & M3 & N3 & R3).
  { pose proof (seg_last _ _ _ _ _ Hseg) as Hlast.
    destruct (sl_tail sl) as [t|] eqn:Ht.
    - symmetry in Hlast. apply last_Some in Hlast as [l' HLl].
      assert (t ∈ L l) as HtL by (rewrite HLl, elem_of_app; right; by left).
      assert (t <> n) as Htn by (intros ->; by apply (Hfresh l)).
      assert (exists ndt, get_node s1 t = Some ndt) as [ndt Hgt].
      { destruct (ptr_ok_node _ _ _ _ Hok HtL) as (ndt & Hgt & _). exists ndt.
        rewrite (store_node_get _ _ _ _ t Hs1), decide_False by done. done. }
      destruct (store_node_Some (set_next (Some n)) _ _ _ Hgt) as [s2 Hs2].
      rewrite Hs2. simpl.
      assert (m_page_sources s2 !! l = Some sl) as Hsl2.
      { by rewrite (store_node_pages _ _ _ _ Hs2), P1. }
      rewrite (store_list_Some _ _ _ _ Hsl2).
      eexists _, _. split; [done|]. simpl.
      split. { by rewrite length_insert, (store_node_pages _ _ _ _ Hs2), P1. }
      split. { apply list_lookup_insert_eq. by eapply lookup_lt_Some. }
      split.
      { apply seg_frame with (s := s2); [done|]. simpl.
        eapply seg_app.
        - rewrite HLl. eapply seg_set_next_last; [|  |exact Hs2].
          + rewrite <- HLl. by apply Hfr1.
          + pose proof (ptr_ok_NoDup L s l Hok) as Hnd. rewrite HLl in Hnd.
            apply NoDup_app in Hnd as (_ & Hd & _). intros Hin. apply (Hd _ Hin). by left.
        - econstructor.
          + rewrite (store_node_get _ _ _ _ n Hs2), decide_False by done. exact Hg1.
          + done.
          + simpl. constructor. }
      split. { intros p Hp. rewrite list_lookup_insert_ne by done.
               by rewrite (store_node_pages _ _ _ _ Hs2), P1. }
      split.
      { intros p c lst Hp Hsg. apply seg_frame with (s := s2); [done|].
        eapply seg_store_node_frame; [exact Hs2| |exact Hsg].
        intros Hin. apply Hp. eapply ptr_ok_disjoint; eauto. }
      destruct (store_node_meta _ _ _ _ (erase_set_next (Some n)) Hs2) as (? & ? & ?).
      done.
    - symmetry in Hlast. apply last_None in Hlast as HLl.
      assert (m_page_sources s1 !! l = Some sl) as Hsl1 by (by rewrite P1).
      rewrite (store_list_Some _ _ _ _ Hsl1). simpl.
      rewrite (store_list_Some _ _ _ (set_head (Some n) sl));
        [|simpl; apply list_lookup_insert_eq; by eapply lookup_lt_Some].
      eexists _, _. split; [done|]. simpl.
      split. { by rewrite !length_insert, P1. }
      split. { apply list_lookup_insert_eq. rewrite length_insert. by eapply lookup_lt_Some. }
      split.
      { rewrite HLl. simpl. econstructor; [exact Hg1|done|]. simpl. constructor. }
      split. { intros p Hp. rewrite !list_lookup_insert_ne by done. by rewrite P1. }
      split. { intros p c lst Hp Hsg. by apply seg_frame with (s := s1). }
      done. }
  exists s3. split; [exact Hs3|].
  split; [|by rewrite M3, M1, N3, N1, R3, R1].
  split.
  - rewrite Hlen3. apply (po_len _ _ Hok).
  - intros p slp Hslp. case_decide as Hp.
    + subst p. rewrite Hsl3 in Hslp. by injection Hslp as <-.
    + rewrite Hp3 in Hslp by done. apply Hfr3; [done|]. apply Hfr1.
      by apply (po_seg _ _ Hok).
  - intros p Hp. rewrite decide_False by lia. by apply (po_out _ _ Hok).
  - intros p m Hm. rewrite M3, M1.
    assert (m = n /\ p = l \/ m ∈ L p) as [[-> ->]|Hm'].
    { case_decide; [|by right]. subst p. apply elem_of_app in Hm as [?|Hm]; [by right|].
      left. by apply list_elem_of_singleton in Hm. }
    + simpl. rewrite lookup_insert_eq. eexists. split; [done|]. simpl. split; [done|].
      apply list_lookup_insert_eq.
      apply get_node_meta in Hg as (e0 & He0 & Hn0). simpl in He0, Hn0.
      rewrite He in He0. injection He0 as <-. by eapply lookup_lt_Some.
    + destruct (po_node _ _ Hok _ _ Hm') as (e1 & He1 & Hlt1 & Hnd1).
      destruct m as [a b]. simpl in *.
      destruct (decide (a = id)) as [->|E].
      * rewrite lookup_insert_eq. rewrite He in He1. injection He1 as <-.
        eexists. split; [done|]. simpl. split; [done|].
        rewrite list_lookup_insert_ne; [done|].
        intros <-. by apply (Hfresh p).
      * rewrite lookup_insert_ne by done. eauto.
  - intros p. case_decide as Hp; [|apply (po_nodup _ _ Hok)].
    subst p. rewrite fmap_app. apply NoDup_app. split; [apply (po_nodup _ _ Hok)|].
    split; [|apply NoDup_singleton].
    intros x Hx ->%list_elem_of_singleton. done.
Qed.

End AppendSpec.

Module CreateFacts.
Import GPUTextureCache Rep PtrFacts UnlinkFacts UnlinkSpec InvalidateFacts InvalidateSpec AppendSpec.

Lemma existsb_eqb_false pn (l : list Z) : pn ∉ l -> existsb (Z.eqb pn) l = false.
Proof.
  induction l as [|a l IH]; intros H; [done|]. simpl.
  apply not_elem_of_cons in H as [Hne Hl]. rewrite IH by done.
  rewrite orb_false_r. by apply Z.eqb_neq.
Qed.

Lemma existsb_eqb_true pn (l : list Z) : pn ∈ l -> existsb (Z.eqb pn) l = true.
Proof.
  induction l as [|a l IH]; intros H; [by apply elem_of_nil in H|]. simpl.
  apply elem_of_cons in H as [->|Hl]; [by rewrite Z.eqb_refl|].
  rewrite IH by done. apply orb_true_r.
Qed.

Lemma bumped_get id o s m :
  heap s !! id = Some o -> get_node (bumped id o s) m = get_node s m.
Proof.
  intros Ho. unfold get_node, bumped. simpl.
  destruct (decide (m.1 = id)) as [->|Hne].
  - by rewrite lookup_insert_eq, Ho.
  - by rewrite lookup_insert_ne.
Qed.

Lemma bumped_meta id o s :
  meta (bumped id o s) = <[id := set_enum (S (src_num_page_refs o)) (erase_src o)]> (meta s).
Proof. unfold meta, bumped. simpl. by rewrite fmap_insert. Qed.

Lemma ptr_ok_bumped L s id o :
  ptr_ok L s -> heap s !! id = Some o -> ptr_ok L (bumped id o s).
Proof.
  intros Hok Ho. split.
  - apply (po_len _ _ Hok).
  - intros pn sl Hsl. eapply seg_frame; [|by apply (po_seg _ _ Hok)].
    intros m _. by rewrite bumped_get.
  - apply (po_out _ _ Hok).
  - intros pn n Hn. destruct (po_node _ _ Hok _ _ Hn) as (e & He & Hlt & Hnd).
    rewrite bumped_meta. destruct (decide (n.1 = id)) as [E|E].
    + rewrite E, lookup_insert_eq. rewrite E in He.
      assert (e = erase_src o) as -> by (apply meta_lookup in He as (o' & ? & ->); congruence).
      eexists. split; [done|]. simpl in *. split; [lia|]. by rewrite <- E.
    + rewrite lookup_insert_ne by done. eauto.
  - apply (po_nodup _ _ Hok).
Qed.

Lemma page_slot_inj pn pn' ps :
  page_slot pn = Some ps -> page_slot pn' = Some ps -> pn = pn'.
Proof. intros [_ ->]%page_slot_lt [_ ->]%page_slot_lt. done. Qed.

Lemma add_page_ref_old L s id key pages refns pn :
  creating L s id key pages refns -> pn ∈ pages ->
  add_page_ref id pn (s, refns) = Some (s, refns).
Proof.
  intros (_ & _ & _ & (e & He & _ & Hnum & _) & _ & Htake) Hin.
  apply meta_lookup in He as (o & Ho & ->). simpl in Hnum.
  unfold add_page_ref. rewrite Ho. simpl. rewrite Hnum, Htake.
  by rewrite existsb_eqb_true.
Qed.

Lemma add_page_ref_new L s id key pages refns pn ps :
  creating L s id key pages refns -> pn ∉ pages ->
  page_slot pn = Some ps -> pn ∈ registered_pages key ->
  (pages = [] -> pn = key_page key) ->
  (length pages < MAX_PAGE_REFS_PER_SOURCE)%nat ->
  exists s' L',
    add_page_ref id pn (s, refns) = Some (s', <[length pages := pn]> refns) /\
    creating L' s' id key (pages ++ [pn]) (<[length pages := pn]> refns) /\
    next_addr s' = next_addr s /\ recycled s' = recycled s /\
    m_page_sources s' !! ps <> Some null_list /\
    (forall a, a <> id -> meta s' !! a = meta s !! a).
Proof.
  intros (Hok & Hown & Hoth & (e & He & Hkey & Hnum & Hnodes) & Hlen & Htake)
         Hnin Hslot Hreg Hfirst Hlt.
  pose proof He as He0.
  apply meta_lookup in He as (o & Ho & ->). simpl in Hnum, Hkey, Hnodes.
  set (ri := length pages) in *.
  destruct (page_slot_lt _ _ Hslot) as [Hps Hpn].
  destruct (oo_bounds _ _ Hown _ _ He0) as (Hid & _ & Hlen6). simpl in Hlen6.
  assert (exists nd0, get_node s (id, ri) = Some nd0) as [nd0 Hg0].
  { unfold get_node. simpl. rewrite Ho. simpl. apply lookup_lt_is_Some.
    rewrite length_fmap in Hlen6. lia. }
  assert (forall p, (id, ri) ∉ L p) as Hfresh.
  { intros p Hin. destruct (po_node _ _ Hok _ _ Hin) as (e' & He' & Hlt' & _).
    simpl in *. rewrite He0 in He'. injection He' as <-. simpl in Hlt'. lia. }
  assert (id ∉ (L ps).*1) as Hidps.
  { intros (m & Hm1 & Hm)%list_elem_of_fmap. destruct m as [a i]. simpl in Hm1. subst a.
    destruct (po_node _ _ Hok _ _ Hm) as (e' & He' & Hlt' & Hnd').
    simpl in *. rewrite He0 in He'. injection He' as <-. simpl in Hlt', Hnd'.
    destruct (lookup_lt_is_Some_2 pages i) as [pn' Hpn']; [lia|].
    destruct (Hnodes _ _ Hpn') as (ps' & Hslot' & Hnd'').
    rewrite Hnd' in Hnd''. injection Hnd'' as <-.
    apply Hnin. rewrite (page_slot_inj _ _ _ Hslot Hslot').
    by eapply list_elem_of_lookup_2. }
  destruct (ListAppend_spec L (bumped id o s) ps id ri nd0
              (set_enum (S (src_num_page_refs o)) (erase_src o)))
    as (s' & Hs' & Hok' & M' & N' & R'); try done.
  { by apply ptr_ok_bumped. }
  { by rewrite bumped_get. }
  { by rewrite bumped_meta, lookup_insert_eq. }
  { simpl. lia. }
  rewrite bumped_meta, insert_insert_eq in M'.
  set (e' := set_enode ri (Some id, Some ps)
               (set_enum (S (src_num_page_refs o)) (erase_src o))) in *.
  exists s', (fun p => if decide (p = ps) then L p ++ [(id, ri)] else L p).
  split.
  { unfold add_page_ref. rewrite Ho. simpl. rewrite Hnum. fold ri. rewrite Htake.
    rewrite existsb_eqb_false by done.
    rewrite decide_True by (rewrite Hlen; lia).
    rewrite Hslot. simpl. unfold bumped in Hs'. rewrite Hnum in Hs'. rewrite Hs'. done. }
  split; [|split; [done|split; [done|split]]].
  2:{ intros Hnull.
      pose proof (po_seg _ _ Hok' _ _ Hnull) as Hsg. simpl in Hsg.
      rewrite decide_True in Hsg by done.
      apply seg_head in Hsg. simpl in Hsg. by destruct (L ps). }
  2:{ intros a Ha. by rewrite M', lookup_insert_ne. }
  assert (forall a ea, meta s' !! a = Some ea ->
            (a = id /\ ea = e') \/ (a <> id /\ meta s !! a = Some ea)) as Hlk.
  { intros a ea. rewrite M'. destruct (decide (a = id)) as [->|Hne].
    - rewrite lookup_insert_eq. intros [= <-]. by left.
    - rewrite lookup_insert_ne by done. by right. }
  assert (forall p m, m ∈ L p -> m ∈ (if decide (p = ps) then L p ++ [(id, ri)] else L p)) as Hmono.
  { intros p m Hm. case_decide; [|done]. apply elem_of_app. by left. }
  assert (e_nodes e' !! ri = Some (Some id, Some ps)) as Hnew.
  { simpl. apply list_lookup_insert_eq. lia. }
  assert (forall i, i <> ri -> e_nodes e' !! i = e_nodes (erase_src o) !! i) as Hold.
  { intros i Hi. simpl. by rewrite list_lookup_insert_ne. }
  split; [exact Hok'|]. split; [split|].
  - intros a ea i [[-> ->]|[Hne Hea]]%Hlk Hi.
    + simpl in Hi. destruct (decide (i = ri)) as [->|Hi'].
      * exists ps. split; [done|]. rewrite decide_True by done.
        apply elem_of_app. right. by left.
      * rewrite Hold by done.
        destruct (oo_linked _ _ Hown _ _ i He0) as (p & Hp1 & Hp2); [simpl; lia|].
        exists p. split; [done|]. by apply Hmono.
    + destruct (oo_linked _ _ Hown _ _ i Hea Hi) as (p & Hp1 & Hp2).
      exists p. split; [done|]. by apply Hmono.
  - intros a ea [[-> ->]|[Hne Hea]]%Hlk.
    + rewrite N'. simpl. rewrite length_insert. split; [done|]. split; [lia|done].
    + rewrite N'. by apply (oo_bounds _ _ Hown).
  - intros a ea [[-> ->]|[Hne Hea]]%Hlk Hpos.
    + simpl e_key. rewrite Hkey. destruct (decide (ri = O)) as [E|E].
      * exists ps. rewrite <- Hfirst; [|by apply nil_length_inv].
        split; [done|]. by rewrite <- E.
      * rewrite Hold by done.
        destruct (oo_first _ _ Hown _ _ He0) as (p & Hp1 & Hp2); [simpl; lia|].
        exists p. simpl in Hp1. rewrite Hkey in Hp1. done.
    + by apply (oo_first _ _ Hown).
  - intros a b ea eb [[-> ->]|[Hne Hea]]%Hlk [[-> ->]|[Hne' Heb]]%Hlk Hk; try done.
    + exfalso. destruct (Hoth _ _ Heb Hne') as [_ Hk']. apply Hk'. by rewrite <- Hk.
    + exfalso. destruct (Hoth _ _ Hea Hne) as [_ Hk']. apply Hk'. by rewrite Hk.
    + by eapply (oo_keys _ _ Hown).
  - intros a ea i r p [[-> ->]|[Hne Hea]]%Hlk Hi Hnd.
    + simpl e_key. rewrite Hkey. simpl in Hi. destruct (decide (i = ri)) as [->|Hi'].
      * rewrite Hnew in Hnd. injection Hnd as <- <-. by rewrite <- Hpn.
      * rewrite Hold in Hnd by done. rewrite <- Hkey.
        eapply (oo_pages _ _ Hown _ (erase_src o)); eauto. simpl. lia.
    + by eapply (oo_pages _ _ Hown).
  - split; [|split; [|split]].
    + intros a ea [[-> ->]|[Hne Hea]]%Hlk Ha; [done|]. by eapply Hoth.
    + exists e'. split; [by rewrite M', lookup_insert_eq|]. split; [done|].
      split; [simpl; rewrite length_app; simpl; lia|].
      intros i pn' Hi. destruct (decide (i = ri)) as [->|Hi'].
      * rewrite lookup_app_r in Hi by (unfold ri; lia).
        replace (ri - length pages)%nat with O in Hi by (unfold ri; lia).
        injection Hi as <-. exists ps. done.
      * rewrite Hold by done. apply Hnodes.
        rewrite lookup_app_l in Hi; [done|].
        apply lookup_lt_Some in Hi. rewrite length_app in Hi. simpl in Hi. unfold ri in *. lia.
    + by rewrite length_insert.
    + rewrite length_app. simpl. fold ri. replace (ri + 1)%nat with (S ri) by lia.
      rewrite (take_S_r _ _ pn) by (apply list_lookup_insert_eq; lia).
      rewrite take_insert_ge by lia. by rewrite Htake.
Qed.

End CreateFacts.

Module LoopFacts.
Import GPUTextureCache Rep.

Lemma wrap32_small z : 0 <= z < 2 ^ 32 -> wrap32 z = z.
Proof. intros H. unfold wrap32. by apply Z.mod_small. Qed.

Lemma LoopPages_x_fix {St} (f : Z -> St -> option St) c pn st :
  f pn st = Some st -> forall y, LoopPages_x f c pn y st = Some st.
Proof.
  intros Hf. induction c as [|c IH]; intros y; simpl; [done|].
  rewrite Hf. simpl. apply IH.
Qed.

Lemma LoopPages_x_idem {St} (f : Z -> St -> option St) c pn y st st' :
  f pn st = Some st' -> f pn st' = Some st' ->
  LoopPages_x f (S c) pn y st = Some st'.
Proof.
  intros H1 H2. simpl. rewrite H1. simpl. by apply LoopPages_x_fix.
Qed.

(** A rectangle inside one row of pages: [f] only ever sees the page
    of the rectangle's top-left corner. *)
Lemma LoopPages_single {St} (f : Z -> St -> option St) x y w h st st' :
  0 <= x -> 0 <= y -> 0 < w -> 0 < h -> x + w <= 2 ^ 31 -> y + h <= 2 ^ 31 ->
  (y + h - 1) / VRAM_PAGE_HEIGHT = y / VRAM_PAGE_HEIGHT ->
  f (VRAMCoordinateToPage x y) st = Some st' ->
  f (VRAMCoordinateToPage x y) st' = Some st' ->
  LoopPages f x y w h st = Some st'.
Proof.
  intros Hx Hy Hw Hh Hxw Hyh Hrow H1 H2. unfold LoopPages.
  rewrite (wrap32_small (w - 1)) by lia.
  rewrite (wrap32_small (h - 1)) by lia.
  rewrite (wrap32_small (x + (w - 1))) by lia.
  rewrite (wrap32_small (y + (h - 1))) by lia.
  replace (y + (h - 1)) with (y + h - 1) by lia. rewrite Hrow.
  replace (y / VRAM_PAGE_HEIGHT + 1 - y / VRAM_PAGE_HEIGHT) with 1 by lia.
  assert (x / VRAM_PAGE_WIDTH <= (x + (w - 1)) / VRAM_PAGE_WIDTH) as Hle.
  { apply Z.div_le_mono; unfold VRAM_PAGE_WIDTH; lia. }
  destruct (Z.to_nat ((x + (w - 1)) / VRAM_PAGE_WIDTH + 1 - x / VRAM_PAGE_WIDTH)) as [|c] eqn:E;
    [lia|].
  change (Z.to_nat 1) with 1%nat. cbn [LoopPages_y].
  fold (VRAMCoordinateToPage x y).
  rewrite (LoopPages_x_idem f c _ _ st st' H1 H2). done.
Qed.

Lemma PageStart_facts p :
  0 <= p < NUM_PAGES ->
  0 <= PageStartX p /\ PageStartX p + 256 <= 2 ^ 31 /\
  0 <= PageStartY p /\ PageStartY p + 256 <= 2 ^ 31 /\
  (PageStartY p + TEXTURE_PAGE_HEIGHT - 1) / VRAM_PAGE_HEIGHT = PageStartY p / VRAM_PAGE_HEIGHT /\
  VRAMCoordinateToPage (PageStartX p) (PageStartY p) = p.
Proof.
  intros Hp. unfold PageStartX, PageStartY, VRAMCoordinateToPage, PageIndex, NUM_PAGES,
    VRAM_PAGES_WIDE, VRAM_PAGES_HIGH, VRAM_WIDTH, VRAM_HEIGHT, VRAM_PAGE_WIDTH,
    VRAM_PAGE_HEIGHT, TEXTURE_PAGE_HEIGHT, wrap32 in *.
  change (1024 / 64) with 16 in *. change (512 / 256) with 2 in *.
  assert (0 <= p mod 16 < 16) by (apply Z.mod_pos_bound; lia).
  assert (0 <= p / 16 < 2) by (split; [apply Z.div_pos; lia|apply Z.div_lt_upper_bound; lia]).
  rewrite (Z.mod_small (p mod 16 * 64)) by lia.
  rewrite (Z.mod_small (p / 16 * 256)) by lia.
  rewrite Z.div_mul by lia. rewrite Z.div_mul by lia.
  replace (p / 16 * 256 + 256 - 1) with (255 + p / 16 * 256) by lia.
  rewrite Z.div_add by lia. change (255 / 256) with 0.
  rewrite (Z.mod_small (p / 16 * 16)) by lia.
  rewrite (Z.mod_small (p / 16 * 16 + p mod 16)) by lia.
  pose proof (Z.div_mod p 16 ltac:(lia)). lia.
Qed.

Lemma WidthForMode_range m : 0 < WidthForMode m <= 256.
Proof. destruct m; vm_compute; split; congruence. Qed.

Lemma palette_facts (pal : GPUTexturePaletteReg) :
  0 <= GetXBase pal <= 1008 /\ 0 <= GetYBase pal <= 511.
Proof.
  unfold GetXBase, GetYBase.
  change 63 with (Z.ones 6). change 511 with (Z.ones 9).
  rewrite !Z.land_ones by lia.
  pose proof (Z.mod_pos_bound (bits pal) (2 ^ 6) ltac:(lia)).
  pose proof (Z.mod_pos_bound (Z.shiftr (bits pal) 6) (2 ^ 9) ltac:(lia)).
  change (2 ^ 6) with 64 in *. change (2 ^ 9) with 512 in *. change (Z.ones 9) with 511. lia.
Qed.

Lemma palette_page_range k : 0 <= palette_page k < NUM_PAGES.
Proof.
  unfold palette_page, VRAMCoordinateToPage, PageIndex, NUM_PAGES,
    VRAM_PAGES_WIDE, VRAM_PAGES_HIGH, VRAM_WIDTH, VRAM_HEIGHT, VRAM_PAGE_WIDTH,
    VRAM_PAGE_HEIGHT, wrap32.
  change (1024 / 64) with 16. change (512 / 256) with 2.
  destruct (palette_facts (key_palette k)) as [Hx Hy].
  assert (0 <= GetXBase (key_palette k) / 64 < 16)
    by (split; [apply Z.div_pos; lia|apply Z.div_lt_upper_bound; lia]).
  assert (0 <= GetYBase (key_palette k) / 256 < 2)
    by (split; [apply Z.div_pos; lia|apply Z.div_lt_upper_bound; lia]).
  rewrite (Z.mod_small (GetYBase (key_palette k) / 256 * 16)) by lia.
  rewrite Z.mod_small by lia. lia.
Qed.

End LoopFacts.

Module CreateSpec.
Import GPUTextureCache Rep PtrFacts UnlinkFacts UnlinkSpec InvalidateFacts InvalidateSpec
       AppendSpec CreateFacts LoopFacts.

Lemma page_slot_Some pn : 0 <= pn < NUM_PAGES -> page_slot pn = Some (Z.to_nat pn).
Proof.
  intros H. unfold page_slot.
  destruct (0 <=? pn) eqn:E1; [|lia]. destruct (pn <? NUM_PAGES) eqn:E2; [done|lia].
Qed.

Lemma inv_fresh_addr L s : inv L s -> heap s !! next_addr s = None.
Proof.
  intros (_ & Hown & _).
  destruct (heap s !! next_addr s) as [o|] eqn:E; [|done].
  assert (meta s !! next_addr s = Some (erase_src o)) as Hm by (apply meta_lookup; eauto).
  destruct (oo_bounds _ _ Hown _ _ Hm) as [? _]. lia.
Qed.

Lemma creating_allocated L s key tex :
  inv L s -> (forall id e, meta s !! id = Some e -> e_key e <> key) ->
  creating L (allocated key tex s) (next_addr s) key []
           (replicate MAX_PAGE_REFS_PER_SOURCE 0).
Proof.
  intros Hinv Hfresh. pose proof (inv_fresh_addr _ _ Hinv) as Hnone.
  destruct Hinv as (Hok & Hown & Hpos).
  set (id := next_addr s). set (s0 := allocated key tex s).
  set (e0 := {| e_key := key; e_num := O; e_texture := tex;
                e_nodes := replicate MAX_PAGE_REFS_PER_SOURCE (None, None) |}).
  assert (meta s0 = <[id := e0]> (meta s)) as M0.
  { unfold meta, s0, allocated. simpl. by rewrite fmap_insert. }
  assert (forall a ea, meta s0 !! a = Some ea ->
            (a = id /\ ea = e0) \/ (a <> id /\ meta s !! a = Some ea)) as Hlk.
  { intros a ea. rewrite M0. destruct (decide (a = id)) as [->|Hne].
    - rewrite lookup_insert_eq. intros [= <-]. by left.
    - rewrite lookup_insert_ne by done. by right. }
  assert (forall p m, m ∈ L p -> m.1 <> id) as Hne.
  { intros p m Hm E. destruct (po_node _ _ Hok _ _ Hm) as (e & He & _).
    apply meta_lookup in He as (o & Ho & _). rewrite E in Ho. fold id in Hnone. congruence. }
  split; [|split; [|split; [|split; [|split]]]].
  - split.
    + apply (po_len _ _ Hok).
    + intros pn sl Hsl. eapply seg_frame; [|by apply (po_seg _ _ Hok)].
      intros m Hm. unfold get_node. simpl.
      rewrite lookup_insert_ne; [done|]. intros E. by eapply Hne.
    + apply (po_out _ _ Hok).
    + intros pn n Hn. rewrite M0, lookup_insert_ne by (intros E; by eapply Hne).
      by apply (po_node _ _ Hok).
    + apply (po_nodup _ _ Hok).
  - split.
    + intros a ea i [[-> ->]|[Ha Hea]]%Hlk Hi; [simpl in Hi; lia|].
      by apply (oo_linked _ _ Hown).
    + intros a ea [[-> ->]|[Ha Hea]]%Hlk; simpl.
      * unfold id. split; [lia|]. split; [lia|]. by rewrite ?length_replicate.
      * destruct (oo_bounds _ _ Hown _ _ Hea) as (? & ? & ?). split; [lia|done].
    + intros a ea [[-> ->]|[Ha Hea]]%Hlk Hi; [simpl in Hi; lia|].
      by apply (oo_first _ _ Hown).
    + intros a b ea eb [[-> ->]|[Ha Hea]]%Hlk [[-> ->]|[Hb Heb]]%Hlk Hk; try done.
      * exfalso. by eapply Hfresh.
      * exfalso. by eapply Hfresh.
      * by eapply (oo_keys _ _ Hown).
    + intros a ea i r p [[-> ->]|[Ha Hea]]%Hlk Hi; [simpl in Hi; lia|].
      by eapply (oo_pages _ _ Hown).
  - intros a ea [[-> ->]|[Ha Hea]]%Hlk Hne'; [done|]. split; [by eapply Hpos|by eapply Hfresh].
  - exists e0. split; [by rewrite M0, lookup_insert_eq|]. split; [done|]. split; [done|].
    intros i pn Hi. by rewrite lookup_nil in Hi.
  - by rewrite length_replicate.
  - done.
Qed.

Lemma creating_inv L s id key pages refns :
  creating L s id key pages refns -> pages <> [] -> inv L s.
Proof.
  intros (Hok & Hown & Hoth & (e & He & _ & Hnum & _) & _) Hne.
  split; [done|]. split; [done|].
  intros a ea Hea. destruct (decide (a = id)) as [->|Ha].
  - rewrite He in Hea. injection Hea as <-. rewrite Hnum. destruct pages; [done|simpl; lia].
  - by eapply Hoth.
Qed.

Lemma CreateSource_unfold vram key s tex :
  DecodeTexture VRAMRGBA5551ToRGBA8888 vram (key_page key) (key_palette key) (key_mode key)
    = Some tex ->
  CreateSource true vram key s =
    st ← LoopPages (add_page_ref (next_addr s)) (PageStartX (key_page key))
         (PageStartY (key_page key)) (WidthForMode (key_mode key)) TEXTURE_PAGE_HEIGHT
         (allocated key tex s, replicate MAX_PAGE_REFS_PER_SOURCE 0);
    st ← (if mode_is_paletted (key_mode key)
          then LoopPages (add_page_ref (next_addr s)) (GetXBase (key_palette key))
                 (GetYBase (key_palette key)) (GetWidth (key_mode key)) 1 st
          else Some st);
    Some (Some (next_addr s), st.1).
Proof. intros H. unfold CreateSource. rewrite H. reflexivity. Qed.

Lemma DecodeTexture_Some conv vram page pal mode :
  mode <> Disabled -> is_Some (DecodeTexture conv vram page pal mode).
Proof. destruct mode; simpl; eauto. done. Qed.

Lemma CreateSource_spec L s vram key ps :
  inv L s -> page_slot (key_page key) = Some ps -> key_mode key <> Disabled ->
  (forall id e, meta s !! id = Some e -> e_key e <> key) ->
  exists s' L',
    CreateSource true vram key s = Some (Some (next_addr s), s') /\
    inv L' s' /\
    next_addr s' = S (next_addr s) /\ recycled s' = recycled s /\
    (forall a, a <> next_addr s -> meta s' !! a = meta s !! a) /\
    (exists e', meta s' !! next_addr s = Some e' /\ e_key e' = key /\
                (1 <= e_num e' <= 2)%nat).
Proof.
  intros Hinv Hslot Hmode Hfresh.
  destruct (DecodeTexture_Some VRAMRGBA5551ToRGBA8888 vram (key_page key)
              (key_palette key) (key_mode key) Hmode) as [tex Htex].
  rewrite (CreateSource_unfold _ _ _ _ Htex).
  set (id := next_addr s).
  pose proof (creating_allocated L s key tex Hinv Hfresh) as Hc0. fold id in Hc0.
  destruct (page_slot_lt _ _ Hslot) as [Hps Hkp].
  assert (0 <= key_page key < NUM_PAGES) as Hrange by lia.
  destruct (PageStart_facts _ Hrange) as (Hx0 & Hx1 & Hy0 & Hy1 & Hrow & Hpage).
  pose proof (WidthForMode_range (key_mode key)) as Hw.
  (* the page of the key *)
  destruct (add_page_ref_new L _ id key [] _ (key_page key) ps Hc0)
    as (s1 & L1 & Ha1 & Hc1 & N1 & R1 & _ & M1); try done.
  { by intros ?%elem_of_nil. }
  { by left. }
  { simpl. unfold MAX_PAGE_REFS_PER_SOURCE. lia. }
  simpl app in Hc1. simpl length in Ha1, Hc1.
  set (refns1 := <[O := key_page key]> (replicate MAX_PAGE_REFS_PER_SOURCE 0)) in *.
  assert (LoopPages (add_page_ref id) (PageStartX (key_page key))
            (PageStartY (key_page key)) (WidthForMode (key_mode key))
            TEXTURE_PAGE_HEIGHT
            (allocated key tex s, replicate MAX_PAGE_REFS_PER_SOURCE 0)
          = Some (s1, refns1)) as ->.
  { apply LoopPages_single; try lia; try done.
    - by rewrite Hpage.
    - rewrite Hpage. eapply add_page_ref_old; [exact Hc1|]. by left. }
  cbn [mbind option_bind].
  (* the page of the palette *)
  assert (exists s2 L2 pages refns2,
    (if mode_is_paletted (key_mode key)
     then LoopPages (add_page_ref id) (GetXBase (key_palette key))
            (GetYBase (key_palette key)) (GetWidth (key_mode key)) 1 (s1, refns1)
     else Some (s1, refns1)) = Some (s2, refns2) /\
    creating L2 s2 id key pages refns2 /\ (1 <= length pages <= 2)%nat /\
    next_addr s2 = next_addr s1 /\ recycled s2 = recycled s1 /\
    (forall a, a <> id -> meta s2 !! a = meta s1 !! a))
    as (s2 & L2 & pages & refns2 & -> & Hc2 & Hlen2 & N2 & R2 & M2).
  { destruct (mode_is_paletted (key_mode key)) eqn:Hpal.
    2:{ exists s1, L1, [key_page key], refns1. split; [done|]. split; [done|].
        simpl. split; [lia|]. done. }
    destruct (palette_facts (key_palette key)) as [Hpx Hpy].
    pose proof (palette_page_range key) as Hpr.
    pose proof (page_slot_Some _ Hpr) as Hpslot.
    assert (0 < GetWidth (key_mode key) <= 256) as Hgw.
    { destruct (key_mode key); simpl in *; try done; lia. }
    destruct (decide (palette_page key = key_page key)) as [E|E].
    - exists s1, L1, [key_page key], refns1. split.
      + assert (VRAMCoordinateToPage (GetXBase (key_palette key))
                  (GetYBase (key_palette key)) = key_page key) as E' by exact E.
        apply LoopPages_single; try lia; try (f_equal; lia); rewrite E';
          (eapply add_page_ref_old; [exact Hc1|]; by left).
      + split; [done|]. simpl. split; [lia|]. done.
    - destruct (add_page_ref_new L1 s1 id key [key_page key] refns1
                  (palette_page key) (Z.to_nat (palette_page key)) Hc1)
        as (s2 & L2 & Ha2 & Hc2 & N2 & R2 & _ & M2); try done.
      { by intros Hin%list_elem_of_singleton. }
      { unfold registered_pages. rewrite Hpal. right. by left. }
      { simpl. unfold MAX_PAGE_REFS_PER_SOURCE. lia. }
      eexists s2, L2, _, _. split.
      + apply LoopPages_single; try lia; try (f_equal; lia).
        * exact Ha2.
        * eapply add_page_ref_old; [exact Hc2|].
          apply elem_of_app. right. by left.
      + split; [exact Hc2|]. simpl. split; [lia|]. done. }
  cbn [mbind option_bind fst].
  exists s2, L2. split; [done|].
  split. { eapply creating_inv; [exact Hc2|]. intros ->. simpl in Hlen2. lia. }
  split. { rewrite N2, N1. done. }
  split. { rewrite R2, R1. done. }
  split. { intros a Ha. rewrite M2, M1 by done. unfold meta, allocated. simpl.
           rewrite fmap_insert, lookup_insert_ne; done. }
  destruct Hc2 as (_ & _ & _ & (e & He & Hk & Hn & _) & _).
  exists e. split; [done|]. split; [done|]. lia.
Qed.

End CreateSpec.

Module LookupSpec.
Import GPUTextureCache Rep PtrFacts UnlinkFacts UnlinkSpec InvalidateFacts InvalidateSpec
       AppendSpec CreateFacts LoopFacts CreateSpec.

Lemma scan_seg s key fuel :
  forall l p c lst,
  seg s p c l lst None ->
  (forall n, n ∈ l -> exists nd, get_node s n = Some nd /\ node_ref nd = Some n.1) ->
  LookupSource_scan fuel key c s = scan_list fuel key l s.
Proof.
  induction fuel as [|fuel IH]; intros l p c lst Hseg Hn.
  - inversion Hseg; subst; done.
  - inversion Hseg as [|? n nd ? ? ? Hg Hp Hrest]; subst; [done|].
    destruct (Hn n ltac:(left)) as (nd' & Hg' & Href).
    rewrite Hg in Hg'. injection Hg' as <-.
    simpl. rewrite Hg. simpl. rewrite Href. simpl.
    destruct (heap s !! n.1) as [o|]; simpl; [|done].
    case_decide; [done|].
    eapply IH; [exact Hrest|]. intros m Hm. apply Hn. by right.
Qed.

Lemma scan_list_hit s key fuel l id :
  scan_list fuel key l s = Some (Some id) ->
  id ∈ l.*1 /\ exists o, heap s !! id = Some o /\ src_key o = key.
Proof.
  revert fuel. induction l as [|n l IH]; intros fuel; simpl; [done|].
  destruct fuel as [|fuel]; [done|].
  destruct (heap s !! n.1) as [o|] eqn:Ho; simpl; [|done].
  case_decide as Hk.
  - intros [= <-]. split; [by left|eauto].
  - intros H. destruct (IH _ H) as [? ?]. split; [by right|done].
Qed.

Lemma scan_list_miss s key fuel l :
  scan_list fuel key l s = Some None ->
  forall n o, n ∈ l -> heap s !! n.1 = Some o -> src_key o <> key.
Proof.
  revert fuel. induction l as [|n l IH]; intros fuel; simpl.
  - intros _ n o Hn. by apply elem_of_nil in Hn.
  - destruct fuel as [|fuel]; [done|].
    destruct (heap s !! n.1) as [o|] eqn:Ho; simpl; [|done].
    case_decide as Hk; [done|].
    intros H m o' [->|Hm]%elem_of_cons Ho'.
    + congruence.
    + eapply IH; eauto.
Qed.

Lemma scan_list_total s key fuel l :
  (length l <= fuel)%nat ->
  (forall n, n ∈ l -> is_Some (heap s !! n.1)) ->
  is_Some (scan_list fuel key l s).
Proof.
  revert fuel. induction l as [|n l IH]; intros fuel Hlen Hl; simpl; [eauto|].
  destruct fuel as [|fuel]; [simpl in Hlen; lia|].
  destruct (Hl n ltac:(left)) as [o Ho]. rewrite Ho. simpl.
  case_decide; [eauto|]. apply IH; [simpl in Hlen; lia|].
  intros m Hm. apply Hl. by right.
Qed.

(** The list of a page holds at most one node per live source. *)
Lemma inv_length L s ps : inv L s -> (length (L ps) <= size (heap s))%nat.
Proof.
  intros (Hok & _).
  rewrite <- (length_fmap fst (L ps)).
  rewrite <- (size_list_to_set (C := gset nat)) by apply (po_nodup _ _ Hok).
  rewrite <- (size_dom (heap s)).
  apply subseteq_size. intros id Hid.
  apply elem_of_list_to_set, list_elem_of_fmap in Hid as (m & -> & Hm).
  destruct (po_node _ _ Hok _ _ Hm) as (e & (o & Ho & _)%meta_lookup & _).
  apply elem_of_dom. eauto.
Qed.

(** A live source is on the list of the page of its key. *)
Lemma inv_on_key_page L s id e :
  inv L s -> meta s !! id = Some e ->
  exists ps, page_slot (key_page (e_key e)) = Some ps /\ (id, O) ∈ L ps.
Proof.
  intros (Hok & Hown & Hpos) He.
  pose proof (Hpos _ _ He) as Hp.
  destruct (oo_first _ _ Hown _ _ He Hp) as (ps & Hslot & Hnd).
  destruct (oo_linked _ _ Hown _ _ O He Hp) as (ps' & Hnd' & Hin).
  rewrite Hnd in Hnd'. injection Hnd' as <-. eauto.
Qed.

Lemma inv_scan L s key ps fuel sl :
  inv L s -> page_slot (key_page key) = Some ps ->
  m_page_sources s !! ps = Some sl ->
  LookupSource_scan fuel key (sl_head sl) s = scan_list fuel key (L ps) s.
Proof.
  intros (Hok & _) Hslot Hsl.
  eapply scan_seg; [by apply (po_seg _ _ Hok)|].
  intros n Hn. destruct (ptr_ok_node _ _ _ _ Hok Hn) as (nd & ? & ? & _). eauto.
Qed.

(** The outcome of [LookupSource], when it returns. *)
Lemma LookupSource_Some L s fuel fetched vram key r s' :
  inv L s -> LookupSource fuel fetched vram key s = Some (r, s') ->
  (exists id e, r = Some id /\ s' = s /\ meta s !! id = Some e /\ e_key e = key) \/
  ((forall id e, meta s !! id = Some e -> e_key e <> key) /\
   CreateSource fetched vram key s = Some (r, s')).
Proof.
  intros Hinv. unfold LookupSource.
  destruct (page_slot (key_page key)) as [ps|] eqn:Hslot; simpl; [|done].
  unfold get_list. destruct (m_page_sources s !! ps) as [sl|] eqn:Hsl; simpl; [|done].
  rewrite (inv_scan L s key ps fuel sl Hinv Hslot Hsl).
  destruct (scan_list fuel key (L ps) s) as [[id|]|] eqn:Hscan; simpl; [| |done].
  - intros [= <- <-]. left.
    apply scan_list_hit in Hscan as (_ & o & Ho & Hk).
    exists id, (erase_src o). split; [done|]. split; [done|].
    split; [apply meta_lookup; eauto|done].
  - intros Hc. right. split; [|done].
    intros id e He Hk.
    destruct (inv_on_key_page _ _ _ _ Hinv He) as (ps' & Hslot' & Hin).
    rewrite Hk, Hslot in Hslot'. injection Hslot' as <-.
    apply meta_lookup in He as (o & Ho & ->).
    by eapply (scan_list_miss _ _ _ _ Hscan (id, O) o Hin Ho).
Qed.

(** A cached key is found, and the cache is left as it is. *)
Lemma LookupSource_hit L s fuel fetched vram id e :
  inv L s -> meta s !! id = Some e -> (size (heap s) <= fuel)%nat ->
  LookupSource fuel fetched vram (e_key e) s = Some (Some id, s).
Proof.
  intros Hinv He Hfuel.
  destruct (inv_on_key_page _ _ _ _ Hinv He) as (ps & Hslot & Hin).
  destruct (page_slot_lt _ _ Hslot) as [Hps _].
  destruct (inv_slot _ _ _ Hinv Hps) as (sl & Hsl & _).
  unfold LookupSource. rewrite Hslot. simpl. unfold get_list. rewrite Hsl. simpl.
  rewrite (inv_scan L s _ ps fuel sl Hinv Hslot Hsl).
  destruct (scan_list_total s (e_key e) fuel (L ps)) as [r Hr].
  { pose proof (inv_length L s ps Hinv). lia. }
  { intros n Hn. destruct Hinv as (Hok & _).
    destruct (po_node _ _ Hok _ _ Hn) as (e' & (o & Ho & _)%meta_lookup & _). eauto. }
  rewrite Hr. simpl. destruct r as [id'|].
  - apply scan_list_hit in Hr as (_ & o & Ho & Hk).
    destruct Hinv as (_ & Hown & _).
    assert (id' = id) as ->; [|done].
    eapply (oo_keys _ _ Hown); [apply meta_lookup; eauto|exact He|done].
  - exfalso. apply meta_lookup in He as (o & Ho & ->).
    by eapply (scan_list_miss _ _ _ _ Hr (id, O) o Hin Ho).
Qed.

(** A key that is not cached goes to [CreateSource]. *)
Lemma LookupSource_miss L s fuel fetched vram key ps :
  inv L s -> page_slot (key_page key) = Some ps ->
  (forall id e, meta s !! id = Some e -> e_key e <> key) ->
  (size (heap s) <= fuel)%nat ->
  LookupSource fuel fetched vram key s = CreateSource fetched vram key s.
Proof.
  intros Hinv Hslot Hfresh Hfuel.
  destruct (page_slot_lt _ _ Hslot) as [Hps _].
  destruct (inv_slot _ _ _ Hinv Hps) as (sl & Hsl & _).
  unfold LookupSource. rewrite Hslot. simpl. unfold get_list. rewrite Hsl. simpl.
  rewrite (inv_scan L s _ ps fuel sl Hinv Hslot Hsl).
  destruct (scan_list_total s key fuel (L ps)) as [r Hr].
  { pose proof (inv_length L s ps Hinv). lia. }
  { intros n Hn. destruct Hinv as (Hok & _).
    destruct (po_node _ _ Hok _ _ Hn) as (e' & (o & Ho & _)%meta_lookup & _). eauto. }
  rewrite Hr. simpl. destruct r as [id'|]; [|done].
  exfalso. apply scan_list_hit in Hr as (_ & o & Ho & Hk).
  eapply (Hfresh id' (erase_src o)); [apply meta_lookup; eauto|done].
Qed.

End LookupSpec.

Module Reach.
Import GPUTextureCache Trace Spec Rep PtrFacts UnlinkFacts UnlinkSpec InvalidateFacts
       InvalidateSpec AppendSpec CreateFacts LoopFacts CreateSpec LookupSpec.

Lemma inv_init : inv (fun _ => []) init.
Proof.
  split; [|split].
  - split.
    + unfold init. cbn [m_page_sources]. by rewrite length_replicate.
    + intros pn sl Hsl. unfold init in Hsl. cbn [m_page_sources] in Hsl.
      apply lookup_replicate in Hsl as [-> _]. constructor.
    + done.
    + intros pn n Hn. by apply elem_of_nil in Hn.
    + intros pn. constructor.
  - split; unfold meta, init; simpl; intros *; rewrite fmap_empty, lookup_empty; done.
  - intros id e. unfold meta, init. simpl. by rewrite fmap_empty, lookup_empty.
Qed.

Lemma wf_init : wf init.
Proof. eexists. apply inv_init. Qed.

(** *** [LoopPages] and invariants *)

Lemma LoopPages_x_preserves {St} (P : St -> Prop) (f : Z -> St -> option St) pn :
  (forall st st', P st -> f pn st = Some st' -> P st') ->
  forall c y st st', P st -> LoopPages_x f c pn y st = Some st' -> P st'.
Proof.
  intros Hf. induction c as [|c IH]; intros y st st' HP; simpl.
  - by intros [= <-].
  - destruct (f pn st) as [st1|] eqn:E; simpl; [|done].
    apply IH. eapply Hf; eauto.
Qed.

Lemma LoopPages_y_preserves {St} (P : St -> Prop) (f : Z -> St -> option St) cx :
  forall cy pn st st',
  (forall q st st', q ∈ row_pages cy pn -> P st -> f q st = Some st' -> P st') ->
  P st -> LoopPages_y f cy cx pn st = Some st' -> P st'.
Proof.
  induction cy as [|cy IH]; intros pn st st' Hf HP; simpl.
  - by intros [= <-].
  - destruct (LoopPages_x f cx pn pn st) as [st1|] eqn:E; simpl; [|done].
    apply IH.
    + intros q a b Hq. apply Hf. by right.
    + eapply (LoopPages_x_preserves P f pn); [|exact HP|exact E].
      intros a b. apply Hf. by left.
Qed.

Lemma LoopPages_preserves_all {St} (P : St -> Prop) (f : Z -> St -> option St) x y w h st st' :
  (forall q st st', P st -> f q st = Some st' -> P st') ->
  P st -> LoopPages f x y w h st = Some st' -> P st'.
Proof.
  intros Hf HP. unfold LoopPages. apply LoopPages_y_preserves; [|done].
  intros q a b _. apply Hf.
Qed.

(** *** Every operation keeps the invariant *)

Lemma InvalidatePage_wf fuel pn s s' :
  wf s -> InvalidatePage fuel pn s = Some s' -> wf s'.
Proof.
  intros [L Hinv] Hs. destruct (InvalidatePage_Some L s fuel pn s' Hinv Hs)
    as (ps & _ & Hinv' & _). eexists. exact Hinv'.
Qed.

Lemma Clear_loop_wf fuel c : forall i s s',
  wf s -> Clear_loop fuel c i s = Some s' -> wf s'.
Proof.
  induction c as [|c IH]; intros i s s' Hwf; simpl.
  - by intros [= <-].
  - destruct (InvalidatePage fuel i s) as [s1|] eqn:E; simpl; [|done].
    apply IH. eapply InvalidatePage_wf; eauto.
Qed.

Lemma CreateSource_Some_mode fetched vram key s r s' :
  CreateSource fetched vram key s = Some (r, s') ->
  (fetched = false /\ r = None /\ s' = s) \/ (fetched = true /\ key_mode key <> Disabled).
Proof.
  unfold CreateSource. destruct fetched.
  - intros H. right. split; [done|]. intros E. rewrite E in H. done.
  - intros [= <- <-]. by left.
Qed.

Lemma LookupSource_wf fuel fetched vram key s r s' :
  wf s -> LookupSource fuel fetched vram key s = Some (r, s') -> wf s'.
Proof.
  intros [L Hinv] Hs.
  destruct (LookupSource_Some L s fuel fetched vram key r s' Hinv Hs)
    as [(id & e & -> & -> & _)|[Hfresh Hc]]; [by exists L|].
  destruct (CreateSource_Some_mode _ _ _ _ _ _ Hc) as [(-> & -> & ->)|[-> Hmode]];
    [by exists L|].
  assert (exists ps, page_slot (key_page key) = Some ps) as [ps Hslot].
  { unfold LookupSource in Hs. destruct (page_slot (key_page key)); [eauto|done]. }
  destruct (CreateSource_spec L s vram key ps Hinv Hslot Hmode Hfresh)
    as (s'' & L' & Hc' & Hinv' & _).
  rewrite Hc in Hc'. injection Hc' as _ <-. by exists L'.
Qed.

Lemma step_wf fuel op s s' : wf s -> step fuel op s = Some s' -> wf s'.
Proof.
  intros Hwf. destruct op as [fetched vram key|pn|x y w h|]; simpl.
  - destruct (LookupSource fuel fetched vram key s) as [[r s1]|] eqn:E; simpl; [|done].
    intros [= <-]. eapply LookupSource_wf; eauto.
  - by apply InvalidatePage_wf.
  - unfold InvalidatePages. apply LoopPages_preserves_all; [|done].
    intros q a b. apply InvalidatePage_wf.
  - unfold Clear. by apply Clear_loop_wf.
Qed.

Lemma run_wf fuel ops : forall s s', wf s -> run fuel ops s = Some s' -> wf s'.
Proof.
  induction ops as [|op ops IH]; intros s s' Hwf; simpl.
  - by intros [= <-].
  - destruct (step fuel op s) as [s1|] eqn:E; simpl; [|done].
    apply IH. eapply step_wf; eauto.
Qed.

Lemma reachable_wf fuel ops s : run fuel ops init = Some s -> wf s.
Proof. apply run_wf, wf_init. Qed.

End Reach.

Module Geometry.
Import GPUTextureCache Trace Spec Rep LoopFacts.

Lemma page_coords sx sy :
  0 <= sx < 16 -> 0 <= sy < 2 ->
  PageIndex sx sy = sy * 16 + sx /\
  PageStartX (sy * 16 + sx) = sx * 64 /\
  PageStartY (sy * 16 + sx) = sy * 256 /\
  0 <= sy * 16 + sx < NUM_PAGES.
Proof.
  intros Hx Hy.
  unfold PageIndex, PageStartX, PageStartY, NUM_PAGES, VRAM_PAGES_WIDE, VRAM_PAGES_HIGH,
    VRAM_WIDTH, VRAM_HEIGHT, VRAM_PAGE_WIDTH, VRAM_PAGE_HEIGHT, wrap32.
  change (1024 / 64) with 16. change (512 / 256) with 2.
  rewrite (Z.mod_small (sy * 16)) by lia.
  rewrite (Z.mod_small (sy * 16 + sx)) by lia.
  rewrite (Z.add_comm (sy * 16) sx), Z.mod_add by lia.
  rewrite Z.div_add by lia.
  rewrite (Z.mod_small sx 16) by lia. rewrite (Z.div_small sx 16) by lia.
  rewrite (Z.mod_small (sx * 64)) by lia.
  rewrite (Z.mod_small ((0 + sy) * 256)) by lia.
  lia.
Qed.

Lemma in_covering x y w h pn :
  0 <= pn < NUM_PAGES -> page_in_rect x y w h pn = true -> pn ∈ covering_pages x y w h.
Proof.
  intros Hpn Hin. unfold covering_pages. apply list_elem_of_filter. split; [done|].
  apply elem_of_seqZ. lia.
Qed.

Lemma div_bounds a d : 0 < d -> d * (a / d) <= a < d * (a / d) + d.
Proof.
  intros Hd. pose proof (Z.mul_div_le a d Hd). pose proof (Z.mul_succ_div_gt a d Hd). lia.
Qed.

(** A page of the key's own tile or of the palette's first word. *)
Lemma corner_in_covering x y w h :
  0 <= x < VRAM_WIDTH -> 0 <= y < VRAM_HEIGHT -> 0 < w -> 0 < h ->
  VRAMCoordinateToPage x y ∈ covering_pages x y w h.
Proof.
  unfold VRAM_WIDTH, VRAM_HEIGHT. intros Hx Hy Hw Hh.
  pose proof (div_bounds x 64 ltac:(lia)). pose proof (div_bounds y 256 ltac:(lia)).
  assert (0 <= x / 64 < 16) as Hsx
    by (split; [apply Z.div_pos; lia|apply Z.div_lt_upper_bound; lia]).
  assert (0 <= y / 256 < 2) as Hsy
    by (split; [apply Z.div_pos; lia|apply Z.div_lt_upper_bound; lia]).
  destruct (page_coords _ _ Hsx Hsy) as (E1 & E2 & E3 & E4).
  unfold VRAMCoordinateToPage, VRAM_PAGE_WIDTH, VRAM_PAGE_HEIGHT. rewrite E1.
  apply in_covering; [done|]. unfold page_in_rect. rewrite E2, E3.
  unfold VRAM_PAGE_WIDTH, VRAM_PAGE_HEIGHT.
  repeat (apply andb_true_intro; split); apply Z.ltb_lt; lia.
Qed.

Lemma registered_dependency k ps :
  page_slot (key_page k) = Some ps ->
  forall pn, pn ∈ registered_pages k -> pn ∈ dependency_pages k.
Proof.
  intros Hslot pn Hpn. apply InvalidateSpec.page_slot_lt in Hslot as [Hps Hkp].
  assert (0 <= key_page k < NUM_PAGES) as Hrange by lia.
  destruct (PageStart_facts _ Hrange) as (Hx0 & Hx1 & Hy0 & Hy1 & Hrow & Hpage).
  unfold registered_pages in Hpn. unfold dependency_pages.
  apply elem_of_cons in Hpn as [->|Hpn].
  - apply elem_of_app. left. unfold pixel_footprint_pages.
    cut (VRAMCoordinateToPage (PageStartX (key_page k)) (PageStartY (key_page k))
           ∈ covering_pages (PageStartX (key_page k)) (PageStartY (key_page k))
               (WidthForMode (key_mode k)) TEXTURE_PAGE_HEIGHT);
      [by rewrite Hpage|].
    apply corner_in_covering.
    + unfold PageStartX, VRAM_PAGES_WIDE, VRAM_WIDTH, VRAM_PAGE_WIDTH, wrap32.
      change (1024 / 64) with 16.
      pose proof (Z.mod_pos_bound (key_page k) 16 ltac:(lia)).
      rewrite Z.mod_small; lia.
    + unfold PageStartY, NUM_PAGES, VRAM_PAGES_WIDE, VRAM_PAGES_HIGH, VRAM_WIDTH,
        VRAM_HEIGHT, VRAM_PAGE_HEIGHT, VRAM_PAGE_WIDTH, wrap32 in *.
      change (1024 / 64) with 16 in *. change (512 / 256) with 2 in *.
      assert (0 <= key_page k / 16 < 2)
        by (split; [apply Z.div_pos; lia|apply Z.div_lt_upper_bound; lia]).
      rewrite Z.mod_small; lia.
    + apply WidthForMode_range.
    + unfold TEXTURE_PAGE_HEIGHT. lia.
  - apply elem_of_app. right. unfold palette_footprint_pages.
    destruct (mode_is_paletted (key_mode k)) eqn:Hpal; [|by apply elem_of_nil in Hpn].
    apply list_elem_of_singleton in Hpn as ->.
    destruct (palette_facts (key_palette k)) as [Hpx Hpy].
    apply corner_in_covering; unfold VRAM_WIDTH, VRAM_HEIGHT; try lia.
    destruct (key_mode k); simpl in *; try done; lia.
Qed.

(** For a rectangle within video memory, every page [LoopPages] passes
    to its callback is a page of the covering set. *)
Lemma row_pages_covering x y w h q :
  valid_rect x y w h = true ->
  q ∈ row_pages (Z.to_nat (wrap32 (y + wrap32 (h - 1)) / VRAM_PAGE_HEIGHT + 1
                            - y / VRAM_PAGE_HEIGHT))
                (PageIndex (x / VRAM_PAGE_WIDTH) (y / VRAM_PAGE_HEIGHT)) ->
  q ∈ covering_pages x y w h.
Proof.
  unfold valid_rect, VRAM_WIDTH, VRAM_HEIGHT, VRAM_PAGE_WIDTH, VRAM_PAGE_HEIGHT.
  intros Hv.
  repeat (apply andb_prop in Hv as [Hv ?]).
  assert (0 < w) by (by apply Z.ltb_lt). assert (0 < h) by (by apply Z.ltb_lt).
  assert (0 <= x) by (by apply Z.leb_le). assert (0 <= y) by (by apply Z.leb_le).
  assert (x + w <= 1024) by (by apply Z.leb_le).
  assert (y + h <= 512) by (by apply Z.leb_le).
  rewrite (wrap32_small (h - 1)) by lia.
  rewrite (wrap32_small (y + (h - 1))) by lia.
  pose proof (div_bounds x 64 ltac:(lia)). pose proof (div_bounds y 256 ltac:(lia)).
  pose proof (div_bounds (y + (h - 1)) 256 ltac:(lia)).
  assert (0 <= x / 64 < 16) as Hsx
    by (split; [apply Z.div_pos; lia|apply Z.div_lt_upper_bound; lia]).
  assert (0 <= y / 256 < 2) as Hsy
    by (split; [apply Z.div_pos; lia|apply Z.div_lt_upper_bound; lia]).
  assert (y / 256 <= (y + (h - 1)) / 256 < 2) as Hey.
  { split; [apply Z.div_le_mono; lia|apply Z.div_lt_upper_bound; lia]. }
  destruct (page_coords _ _ Hsx Hsy) as (E1 & E2 & E3 & E4). rewrite E1.
  assert (forall sy, 0 <= sy < 2 -> y / 256 <= sy <= (y + (h - 1)) / 256 ->
            sy * 16 + x / 64 ∈ covering_pages x y w h) as Hrow.
  { intros sy Hsy' Hbetween.
    destruct (page_coords _ _ Hsx Hsy') as (F1 & F2 & F3 & F4).
    apply in_covering; [done|]. unfold page_in_rect. rewrite F2, F3.
    unfold VRAM_PAGE_WIDTH, VRAM_PAGE_HEIGHT.
    repeat (apply andb_true_intro; split); apply Z.ltb_lt; lia. }
  assert ((y + (h - 1)) / 256 = y / 256 \/
          (y / 256 = 0 /\ (y + (h - 1)) / 256 = 1)) as [Ee|[Es Ee]] by lia.
  - rewrite Ee. replace (y / 256 + 1 - y / 256) with 1 by lia.
    change (Z.to_nat 1) with 1%nat. simpl.
    intros ->%list_elem_of_singleton. apply Hrow; lia.
  - rewrite Ee, Es. change (Z.to_nat (1 + 1 - 0)) with 2%nat. simpl.
    rewrite wrap32_small by (unfold VRAM_PAGES_WIDE, VRAM_WIDTH, VRAM_PAGE_WIDTH;
                             change (1024 / 64) with 16; lia).
    unfold VRAM_PAGES_WIDE, VRAM_WIDTH, VRAM_PAGE_WIDTH. change (1024 / 64) with 16.
    intros [->|[->|Hq]%elem_of_cons]%elem_of_cons.
    + replace (0 * 16 + x / 64) with (0 * 16 + x / 64) by lia. apply Hrow; lia.
    + replace (0 * 16 + x / 64 + 16) with (1 * 16 + x / 64) by lia. apply Hrow; lia.
    + by apply elem_of_nil in Hq.
Qed.

End Geometry.

Module CachedFacts.
Import GPUTextureCache Trace Spec Rep PtrFacts UnlinkFacts UnlinkSpec InvalidateFacts
       InvalidateSpec AppendSpec CreateFacts LoopFacts CreateSpec LookupSpec Reach Geometry.

(** A source is only on lists of pages its key depends on. *)
Lemma inv_listed_dependency L s ps m e :
  inv L s -> m ∈ L ps -> meta s !! m.1 = Some e ->
  Z.of_nat ps ∈ dependency_pages (e_key e).
Proof.
  intros Hinv Hm He. pose proof Hinv as (Hok & Hown & Hpos).
  destruct (po_node _ _ Hok _ _ Hm) as (e' & He' & Hlt & Hnd).
  rewrite He in He'. injection He' as <-.
  destruct (inv_on_key_page _ _ _ _ Hinv He) as (kp & Hslot & _).
  eapply registered_dependency; [exact Hslot|].
  eapply (oo_pages _ _ Hown); eauto.
Qed.

Lemma cached_InvalidatePage k id fuel pn s s' :
  cached k id s -> pn ∉ dependency_pages k ->
  InvalidatePage fuel pn s = Some s' -> cached k id s'.
Proof.
  intros [[L Hinv] (e & He & Hk)] Hpn Hs.
  destruct (InvalidatePage_Some L s fuel pn s' Hinv Hs) as (ps & Hslot & Hinv' & M' & _).
  split; [eexists; exact Hinv'|].
  exists e. split; [|done]. rewrite M'. rewrite decide_False; [done|].
  intros (m & -> & Hm)%list_elem_of_fmap.
  apply Hpn. rewrite <- Hk.
  destruct (page_slot_lt _ _ Hslot) as [_ ->].
  exact (inv_listed_dependency L s ps m e Hinv Hm He).
Qed.

Lemma cached_Lookup k id fuel fetched vram key s r s' :
  cached k id s -> LookupSource fuel fetched vram key s = Some (r, s') -> cached k id s'.
Proof.
  intros [[L Hinv] (e & He & Hk)] Hs.
  destruct (LookupSource_Some L s fuel fetched vram key r s' Hinv Hs)
    as [(id' & e' & -> & -> & _)|[Hfresh Hc]].
  { split; [by exists L|eauto]. }
  destruct (CreateSource_Some_mode _ _ _ _ _ _ Hc) as [(-> & -> & ->)|[-> Hmode]].
  { split; [by exists L|eauto]. }
  assert (exists ps, page_slot (key_page key) = Some ps) as [ps Hslot].
  { unfold LookupSource in Hs. destruct (page_slot (key_page key)); [eauto|done]. }
  destruct (CreateSource_spec L s vram key ps Hinv Hslot Hmode Hfresh)
    as (s'' & L' & Hc' & Hinv' & _ & _ & M' & _).
  rewrite Hc in Hc'. injection Hc' as _ <-.
  split; [by exists L'|]. exists e. split; [|done].
  rewrite M'; [done|].
  destruct Hinv as (_ & Hown & _). destruct (oo_bounds _ _ Hown _ _ He) as [? _]. lia.
Qed.

Lemma cached_step k id fuel op s s' :
  cached k id s -> touches k op = false -> step fuel op s = Some s' -> cached k id s'.
Proof.
  intros Hc. destruct op as [fetched vram key|pn|x y w h|]; simpl; [| | |done].
  - intros _. destruct (LookupSource fuel fetched vram key s) as [[r s1]|] eqn:E;
      simpl; [|done].
    intros [= <-]. eapply cached_Lookup; eauto.
  - intros Hpn%bool_decide_eq_false. by apply cached_InvalidatePage.
  - intros [Hv Hex]%orb_false_elim. apply negb_false_iff in Hv.
    unfold InvalidatePages, LoopPages. apply LoopPages_y_preserves; [|done].
    intros q a b Hq Ha. apply cached_InvalidatePage; [done|].
    intros Hdep. apply (row_pages_covering _ _ _ _ _ Hv) in Hq.
    apply not_true_iff_false in Hex. apply Hex.
    apply existsb_exists. exists q. split; [by apply list_elem_of_In|].
    by apply bool_decide_eq_true.
Qed.

Lemma cached_run k id fuel ops : forall s s',
  cached k id s -> forallb (fun op => negb (touches k op)) ops = true ->
  run fuel ops s = Some s' -> cached k id s'.
Proof.
  induction ops as [|op ops IH]; intros s s' Hc; simpl.
  - by intros _ [= <-].
  - intros [Ht Hrest]%andb_prop. apply negb_true_iff in Ht.
    destruct (step fuel op s) as [s1|] eqn:E; simpl; [|done].
    apply IH; [|done]. eapply cached_step; eauto.
Qed.

(** *** [ListIterate] and the list contents *)

Lemma ListIterate_seg s fuel :
  forall l p c lst,
  seg s p c l lst None ->
  (forall n, n ∈ l -> exists nd, get_node s n = Some nd /\ node_ref nd = Some n.1) ->
  ((length l <= fuel)%nat ->
     ListIterate_from fuel c s = Some ((fun n : nat * nat => Some n.1) <$> l)) /\
  ((fuel < length l)%nat -> ListIterate_from fuel c s = None).
Proof.
  induction fuel as [|fuel IH]; intros l p c lst Hseg Hn.
  - inversion Hseg; subst; simpl; [split; [done|lia]|split; [lia|done]].
  - inversion Hseg as [|? n nd ? ? ? Hg Hp Hrest]; subst; simpl; [split; [done|lia]|].
    destruct (Hn n ltac:(left)) as (nd' & Hg' & Href).
    rewrite Hg in Hg'. injection Hg' as <-.
    rewrite Hg. simpl.
    destruct (IH _ _ _ _ Hrest) as [IHa IHb].
    { intros m Hm. apply Hn. by right. }
    split; intros Hlen.
    + rewrite IHa by lia. simpl. by rewrite Href.
    + rewrite IHb by lia. done.
Qed.

Lemma sources_on_page_inv L s fuel ps :
  inv L s -> (ps < Z.to_nat NUM_PAGES)%nat -> (size (heap s) <= fuel)%nat ->
  sources_on_page fuel ps s = Some ((fun n : nat * nat => Some n.1) <$> L ps).
Proof.
  intros Hinv Hps Hfuel. destruct (inv_slot _ _ _ Hinv Hps) as (sl & Hsl & Hseg).
  unfold sources_on_page, ListIterate. rewrite Hsl. simpl.
  pose proof (inv_length L s ps Hinv).
  destruct Hinv as (Hok & _).
  eapply ListIterate_seg; [exact Hseg| |lia].
  intros n Hn. destruct (ptr_ok_node _ _ _ _ Hok Hn) as (nd & ? & ? & _). eauto.
Qed.

Lemma sources_on_page_Some L s fuel ps refs :
  inv L s -> sources_on_page fuel ps s = Some refs ->
  refs = (fun n : nat * nat => Some n.1) <$> L ps.
Proof.
  intros Hinv. unfold sources_on_page, ListIterate.
  destruct (m_page_sources s !! ps) as [sl|] eqn:Hsl; simpl; [|done].
  destruct Hinv as (Hok & _).
  pose proof (po_seg _ _ Hok _ _ Hsl) as Hseg.
  destruct (ListIterate_seg s fuel _ _ _ _ Hseg) as [Ha Hb].
  { intros n Hn. destruct (ptr_ok_node _ _ _ _ Hok Hn) as (nd & ? & ? & _). eauto. }
  destruct (decide (length (L ps) <= fuel)%nat).
  - rewrite Ha by done. by intros [= <-].
  - rewrite Hb by lia. done.
Qed.

Lemma heap_size_invalidated L ps s s' :
  invalidated L ps s s' -> (size (heap s') <= size (heap s))%nat.
Proof.
  intros (_ & M' & _).
  rewrite <- !(map_size_fmap erase_src). fold (meta s') (meta s).
  rewrite <- !size_dom. apply subseteq_size. intros id Hid.
  apply elem_of_dom in Hid as [e He]. rewrite M' in He.
  case_decide; [done|]. apply elem_of_dom. eauto.
Qed.

End CachedFacts.

Module CacheTheorems.
Import GPUTextureCache Trace Spec Rep PtrFacts UnlinkFacts UnlinkSpec InvalidateFacts
       InvalidateSpec AppendSpec CreateFacts LoopFacts CreateSpec LookupSpec Reach Geometry
       CachedFacts.

(** [InvalidatePage] returns on every reachable cache given fuel for the
    live sources. It frees exactly the sources on the list of the page:
    they leave the heap and every list, the list of the page ends up
    empty, and every other source stays alive with its key. *)
Lemma InvalidatePage_frees fuel ops s pn :
  run fuel ops init = Some s -> 0 <= pn < NUM_PAGES -> (size (heap s) <= fuel)%nat ->
  exists s' refs,
    sources_on_page fuel (Z.to_nat pn) s = Some refs /\
    InvalidatePage fuel pn s = Some s' /\
    m_page_sources s' !! Z.to_nat pn = Some null_list /\
    sources_on_page fuel (Z.to_nat pn) s' = Some [] /\
    (forall p, Some p ∈ refs ->
       heap s' !! p = None /\
       forall q refs', sources_on_page fuel q s' = Some refs' -> Some p ∉ refs') /\
    (forall p o, Some p ∉ refs -> heap s !! p = Some o ->
       exists o', heap s' !! p = Some o' /\ src_key o' = src_key o) /\
    wf s' /\ (size (heap s') <= size (heap s))%nat.
Proof.
  intros Hrun Hpn Hfuel. destruct (reachable_wf _ _ _ Hrun) as [L Hinv].
  pose proof (page_slot_Some _ Hpn) as Hslot.
  destruct (page_slot_lt _ _ Hslot) as [Hps _].
  destruct (InvalidatePage_spec L s fuel pn _ Hinv Hslot) as [Ha _].
  destruct Ha as (s' & Hs' & Hpost).
  { pose proof (inv_length L s (Z.to_nat pn) Hinv). lia. }
  pose proof (heap_size_invalidated _ _ _ _ Hpost) as Hsize.
  destruct Hpost as (Hinv' & M' & N' & R' & Hnull).
  exists s', ((fun n : nat * nat => Some n.1) <$> L (Z.to_nat pn)).
  split; [by apply sources_on_page_inv|]. split; [done|]. split; [done|].
  split. { unfold sources_on_page, ListIterate. rewrite Hnull. by destruct fuel. }
  assert (forall p, Some p ∈ (fun n : nat * nat => Some n.1) <$> L (Z.to_nat pn)
                    <-> p ∈ (L (Z.to_nat pn)).*1) as Hrefs.
  { intros p. rewrite !list_elem_of_fmap. split.
    - intros (m & [= ->] & Hm). eauto.
    - intros (m & -> & Hm). eauto. }
  split; [|split; [|split; [by eexists|done]]].
  - intros p Hp%Hrefs. split.
    + specialize (M' p). rewrite decide_True in M' by done.
      destruct (heap s' !! p) as [o|] eqn:E; [|done].
      assert (meta s' !! p = Some (erase_src o)) by (apply meta_lookup; eauto). congruence.
    + intros q refs' Hq. rewrite (sources_on_page_Some _ _ _ _ _ Hinv' Hq).
      intros (m & [= ->] & Hm)%list_elem_of_fmap.
      apply list_elem_of_filter in Hm as [Hm _]. done.
  - intros p o Hp Ho. specialize (M' p). rewrite decide_False in M' by (by rewrite <- Hrefs).
    assert (meta s !! p = Some (erase_src o)) as Hm by (apply meta_lookup; eauto).
    rewrite Hm in M'. apply meta_lookup in M' as (o' & Ho' & E).
    exists o'. split; [done|]. by injection E.
Qed.

(** Enough fuel for the live sources lets [LookupSource] return a source
    for every valid key when the device hands out a texture. *)
Lemma LookupSource_total fuel ops s vram key :
  run fuel ops init = Some s -> 0 <= key_page key < NUM_PAGES ->
  key_mode key <> Disabled -> (size (heap s) <= fuel)%nat ->
  exists p s', LookupSource fuel true vram key s = Some (Some p, s') /\ wf s'.
Proof.
  intros Hrun Hpn Hmode Hfuel. destruct (reachable_wf _ _ _ Hrun) as [L Hinv].
  pose proof (page_slot_Some _ Hpn) as Hslot.
  destruct (decide (exists id e, meta s !! id = Some e /\ e_key e = key))
    as [(id & e & He & <-)|Hno].
  - exists id, s. split; [|by exists L]. by eapply LookupSource_hit.
  - assert (forall id e, meta s !! id = Some e -> e_key e <> key) as Hfresh.
    { intros id e He Hk. apply Hno. eauto. }
    destruct (CreateSource_spec L s vram key _ Hinv Hslot Hmode Hfresh)
      as (s' & L' & Hc & Hinv' & _).
    exists (next_addr s), s'. split; [|by exists L'].
    by rewrite (LookupSource_miss L s fuel true vram key _ Hinv Hslot Hfresh Hfuel).
Qed.

End CacheTheorems.

Module Claims.
Import GPUTextureCache Trace Spec Rep PtrFacts UnlinkFacts UnlinkSpec InvalidateFacts
       InvalidateSpec AppendSpec CreateFacts LoopFacts CreateSpec LookupSpec Reach Geometry
       CachedFacts CacheTheorems.

(** C3 -- cache identity.  In every cache reached from the empty one no
    two live sources have the same key.  If [LookupSource] returns a source
    for key [K] and the operations that follow invalidate no page [K]
    depends on, the next [LookupSource] for [K] returns the same source and
    leaves the whole state as it is: nothing is decoded or allocated. *)
Theorem lookup_twice_same_source fuel ops0 s0 :
  run fuel ops0 init = Some s0 ->
  (forall a b oa ob, heap s0 !! a = Some oa -> heap s0 !! b = Some ob ->
                     src_key oa = src_key ob -> a = b) /\
  (forall fetched vram K p s1 ops s2,
     LookupSource fuel fetched vram K s0 = Some (Some p, s1) ->
     run fuel ops s1 = Some s2 ->
     forallb (fun op => negb (touches K op)) ops = true ->
     (size (heap s2) <= fuel)%nat ->
     forall fetched' vram', LookupSource fuel fetched' vram' K s2 = Some (Some p, s2)).
Proof.
  intros Hrun. destruct (reachable_wf _ _ _ Hrun) as [L Hinv]. split.
  - intros a b oa ob Ha Hb Hk. destruct Hinv as (_ & Hown & _).
    eapply (oo_keys _ _ Hown a b (erase_src oa) (erase_src ob));
      [apply meta_lookup; eauto|apply meta_lookup; eauto|done].
  - intros fetched vram K p s1 ops s2 Hl Hops Hun Hfuel fetched' vram'.
    assert (cached K p s1) as Hc1.
    { destruct (LookupSource_Some L s0 fuel fetched vram K _ _ Hinv Hl)
        as [(id & e & [= <-] & -> & He & Hk)|[Hfresh Hc]].
      { split; [by exists L|eauto]. }
      destruct (CreateSource_Some_mode _ _ _ _ _ _ Hc) as [(_ & [=] & _)|[-> Hmode]].
      assert (exists ps, page_slot (key_page K) = Some ps) as [ps Hslot].
      { unfold LookupSource in Hl. destruct (page_slot (key_page K)); [eauto|done]. }
      destruct (CreateSource_spec L s0 vram K ps Hinv Hslot Hmode Hfresh)
        as (s'' & L' & Hc' & Hinv' & _ & _ & _ & (e' & He' & Hk' & _)).
      rewrite Hc in Hc'. injection Hc' as -> <-.
      split; [by exists L'|eauto]. }
    destruct (cached_run K p fuel ops s1 s2 Hc1 Hun Hops) as [[L2 Hinv2] (e & He & Hk)].
    rewrite <- Hk. by eapply LookupSource_hit.
Qed.

(** C7 -- allocation failure.  On a reachable cache that does not hold
    the key, a lookup during which [FetchTexture] fails returns null and
    leaves the state exactly as it was; the same lookup succeeds once the
    device hands out a texture. *)
Theorem failed_allocation_is_null_and_harmless fuel ops s vram key :
  run fuel ops init = Some s ->
  0 <= key_page key < NUM_PAGES ->
  (size (heap s) <= fuel)%nat ->
  (forall id o, heap s !! id = Some o -> src_key o <> key) ->
  CreateSource false vram key s = Some (None, s) /\
  LookupSource fuel false vram key s = Some (None, s) /\
  (key_mode key <> Disabled ->
   exists p s', LookupSource fuel true vram key s = Some (Some p, s')).
Proof.
  intros Hrun Hpn Hfuel Hno. destruct (reachable_wf _ _ _ Hrun) as [L Hinv].
  pose proof (page_slot_Some _ Hpn) as Hslot.
  assert (forall id e, meta s !! id = Some e -> e_key e <> key) as Hfresh.
  { intros id e (o & Ho & ->)%meta_lookup. by eapply Hno. }
  split; [done|]. split.
  - by rewrite (LookupSource_miss L s fuel false vram key _ Hinv Hslot Hfresh Hfuel).
  - intros Hmode.
    destruct (LookupSource_total fuel ops s vram key Hrun Hpn Hmode Hfuel) as (p & s' & ? & _).
    eauto.
Qed.

(** *** What the stores keep *)

Lemma keeps_trans s s1 s2 :
  keeps s s1 -> keeps s1 s2 -> keeps s s2.
Proof.
  intros H1 H2 id o Ho. destruct (H1 _ _ Ho) as (o1 & Ho1 & E1).
  destruct (H2 _ _ Ho1) as (o2 & Ho2 & E2). exists o2. split; [done|congruence].
Qed.

Lemma store_node_keeps f n s s' : store_node f n s = Some s' -> keeps s s'.
Proof.
  unfold store_node. intros H id o Ho.
  destruct (heap s !! n.1) as [o1|] eqn:Ho1; simpl in *; [|done].
  destruct (src_page_refs o1 !! n.2) as [nd|]; simpl in *; [|done].
  injection H as <-. simpl. destruct (decide (id = n.1)) as [->|Hne].
  - rewrite lookup_insert_eq. eexists. split; [done|]. simpl. congruence.
  - rewrite lookup_insert_ne by done. eauto.
Qed.

Lemma store_list_keeps f l s s' : store_list f l s = Some s' -> keeps s s'.
Proof.
  intros H id o Ho. apply store_list_heap in H as (-> & _). eauto.
Qed.

Lemma ListAppend_keeps l item n s s' : ListAppend l item n s = Some s' -> keeps s s'.
Proof.
  unfold ListAppend. intros H.
  destruct (store_node (set_ref (Some item)) n s) as [s1|] eqn:H1; simpl in H; [|done].
  destruct (store_node (set_list (Some l)) n s1) as [s2|] eqn:H2; simpl in H; [|done].
  destruct (store_node (set_next None) n s2) as [s3|] eqn:H3; simpl in H; [|done].
  assert (keeps s s3) as K3.
  { eapply keeps_trans; [|eapply store_node_keeps; eauto].
    eapply keeps_trans; eapply store_node_keeps; eauto. }
  destruct (get_list s3 l) as [sl|]; simpl in H; [|done].
  destruct (sl_tail sl) as [t|].
  - destruct (store_node (set_prev (Some t)) n s3) as [s4|] eqn:H4; simpl in H; [|done].
    destruct (store_node (set_next (Some n)) t s4) as [s5|] eqn:H5; simpl in H; [|done].
    eapply keeps_trans; [exact K3|].
    eapply keeps_trans; [eapply store_node_keeps; eauto|].
    eapply keeps_trans; [eapply store_node_keeps; eauto|].
    eapply store_list_keeps; eauto.
  - destruct (store_node (set_prev None) n s3) as [s4|] eqn:H4; simpl in H; [|done].
    destruct (store_list (set_head (Some n)) l s4) as [s5|] eqn:H5; simpl in H; [|done].
    eapply keeps_trans; [exact K3|].
    eapply keeps_trans; [eapply store_node_keeps; eauto|].
    eapply keeps_trans; [eapply store_list_keeps; eauto|].
    eapply store_list_keeps; eauto.
Qed.

Lemma add_page_ref_keeps src pn st st' :
  add_page_ref src pn st = Some st' -> keeps st.1 st'.1.
Proof.
  destruct st as [s refns]. unfold add_page_ref. simpl.
  destruct (heap s !! src) as [o|] eqn:Ho; simpl; [|done].
  destruct (existsb _ _).
  { intros [= <-]. intros id o' Ho'. eauto. }
  case_decide; [|done].
  destruct (page_slot pn) as [l|]; simpl; [|done].
  destruct (ListAppend _ _ _ _) as [s1|] eqn:E; simpl; [|done].
  intros [= <-]. simpl.
  eapply keeps_trans; [|eapply ListAppend_keeps; eauto].
  intros id o' Ho'. simpl. destruct (decide (id = src)) as [->|Hne].
  - rewrite lookup_insert_eq. eexists. split; [done|]. simpl. congruence.
  - rewrite lookup_insert_ne by done. eauto.
Qed.

Lemma LookupSource_scan_hit fuel key : forall n s r,
  LookupSource_scan fuel key n s = Some (Some r) ->
  exists o, heap s !! r = Some o /\ src_key o = key.
Proof.
  induction fuel as [|fuel IH]; intros [n|] s r; simpl; try done.
  destruct (get_node s n) as [nd|]; simpl; [|done].
  destruct (node_ref nd) as [r'|]; simpl; [|done].
  destruct (heap s !! r') as [o|] eqn:Ho; simpl; [|done].
  case_decide.
  - intros [= <-]. eauto.
  - apply IH.
Qed.

(** C8 -- the returned source has the requested key.  Whenever
    [LookupSource] returns a non-null source, by a hit or by creating it,
    that source is alive in the resulting state and its key is the
    requested key. *)
Theorem lookup_returns_requested_key fuel fetched vram key s p s' :
  LookupSource fuel fetched vram key s = Some (Some p, s') ->
  exists o, heap s' !! p = Some o /\ src_key o = key.
Proof.
  unfold LookupSource.
  destruct (page_slot (key_page key)) as [ps|]; simpl; [|done].
  destruct (get_list s ps) as [sl|]; simpl; [|done].
  destruct (LookupSource_scan fuel key (sl_head sl) s) as [[r|]|] eqn:Hscan; simpl; [| |done].
  - intros [= <- <-]. by eapply LookupSource_scan_hit.
  - unfold CreateSource. destruct fetched; [|done].
    destruct (DecodeTexture _ _ _ _ _) as [tex|]; simpl; [|done].
    set (s0 := {| m_page_sources := m_page_sources s; heap := _; next_addr := _;
                  recycled := _ |}).
    set (P := fun st : State * list Z =>
                exists o, heap st.1 !! next_addr s = Some o /\ src_key o = key).
    assert (forall q st st', P st -> add_page_ref (next_addr s) q st = Some st' -> P st')
      as Hstep.
    { intros q st st' (o & Ho & Hk) Hst.
      destruct (add_page_ref_keeps _ _ _ _ Hst _ _ Ho) as (o' & Ho' & Hk').
      exists o'. split; [done|congruence]. }
    assert (P (s0, replicate MAX_PAGE_REFS_PER_SOURCE 0)) as HP0.
    { eexists. split; [apply lookup_insert_eq|done]. }
    destruct (LoopPages _ _ _ _ _ (s0, _)) as [st1|] eqn:E1; simpl; [|done].
    pose proof (LoopPages_preserves_all P _ _ _ _ _ _ _ Hstep HP0 E1) as HP1.
    destruct (mode_is_paletted (key_mode key)).
    + destruct (LoopPages _ _ _ _ _ st1) as [st2|] eqn:E2; simpl; [|done].
      pose proof (LoopPages_preserves_all P _ _ _ _ _ _ _ Hstep HP1 E2) as HP2.
      intros [= <- <-]. exact HP2.
    + simpl. intros [= <- <-]. exact HP1.
Qed.

Lemma InvalidatePage_empty fuel pn ps s :
  page_slot pn = Some ps -> m_page_sources s !! ps = Some null_list ->
  InvalidatePage fuel pn s = Some s.
Proof.
  intros Hslot Hnull. unfold InvalidatePage. rewrite Hslot. simpl.
  unfold get_list. rewrite Hnull. simpl.
  assert (InvalidatePage_loop fuel None s = Some s) as -> by (by destruct fuel).
  simpl. rewrite (store_list_noop _ _ _ _ Hnull) by done. simpl.
  by rewrite (store_list_noop _ _ _ _ Hnull).
Qed.

(** C9 -- [InvalidatePage] is idempotent.  On every reachable cache and
    for every page number the call returns; afterwards head and tail of
    the page's list are null, and a second call returns the very same
    state: no source is freed and nothing else changes. *)
Theorem InvalidatePage_idempotent fuel ops s pn :
  run fuel ops init = Some s -> 0 <= pn < NUM_PAGES -> (size (heap s) <= fuel)%nat ->
  exists s', InvalidatePage fuel pn s = Some s' /\
    m_page_sources s' !! Z.to_nat pn = Some {| sl_head := None; sl_tail := None |} /\
    InvalidatePage fuel pn s' = Some s'.
Proof.
  intros Hrun Hpn Hfuel.
  destruct (InvalidatePage_frees fuel ops s pn Hrun Hpn Hfuel)
    as (s' & refs & _ & Hs' & Hnull & _).
  exists s'. split; [done|]. split; [done|].
  eapply InvalidatePage_empty; [by apply page_slot_Some|done].
Qed.

(** C10 -- page references of a source.  Every source alive in a
    reachable cache (each was produced by [CreateSource]) holds between 1
    and 6 page references; its first reference is a node on the list of
    the page of its own key; and invalidating that page returns, removes
    the source from the heap and leaves it on no list. *)
Theorem source_page_refs fuel ops s p o :
  run fuel ops init = Some s -> heap s !! p = Some o -> (size (heap s) <= fuel)%nat ->
  (1 <= src_num_page_refs o <= MAX_PAGE_REFS_PER_SOURCE)%nat /\
  0 <= key_page (src_key o) < NUM_PAGES /\
  (exists nd, src_page_refs o !! O = Some nd /\ node_ref nd = Some p /\
              node_list nd = Some (Z.to_nat (key_page (src_key o)))) /\
  (exists refs, sources_on_page fuel (Z.to_nat (key_page (src_key o))) s = Some refs /\
                Some p ∈ refs) /\
  exists s', InvalidatePage fuel (key_page (src_key o)) s = Some s' /\
    heap s' !! p = None /\
    forall q refs', sources_on_page fuel q s' = Some refs' -> Some p ∉ refs'.
Proof.
  intros Hrun Ho Hfuel. destruct (reachable_wf _ _ _ Hrun) as [L Hinv].
  assert (meta s !! p = Some (erase_src o)) as Hm by (apply meta_lookup; eauto).
  pose proof Hinv as (Hok & Hown & Hpos).
  pose proof (Hpos _ _ Hm) as Hp. simpl in Hp.
  destruct (oo_bounds _ _ Hown _ _ Hm) as (_ & Hle & _). simpl in Hle.
  destruct (oo_first _ _ Hown _ _ Hm Hp) as (ps & Hslot & Hnd). simpl in Hslot, Hnd.
  destruct (inv_on_key_page _ _ _ _ Hinv Hm) as (ps' & Hslot' & Hin). simpl in Hslot'.
  rewrite Hslot in Hslot'. injection Hslot' as <-.
  destruct (page_slot_lt _ _ Hslot) as [Hps Hkp].
  assert (Z.to_nat (key_page (src_key o)) = ps) as Hps' by lia.
  assert (0 <= key_page (src_key o) < NUM_PAGES) as Hrange by lia.
  rewrite Hps'.
  split; [lia|]. split; [done|]. split.
  { rewrite list_lookup_fmap in Hnd.
    destruct (src_page_refs o !! O) as [nd|]; simpl in Hnd; [|done].
    injection Hnd as ? ?. eauto. }
  assert (Some p ∈ (fun n : nat * nat => Some n.1) <$> L ps) as Hrefs.
  { apply list_elem_of_fmap. exists (p, O). done. }
  split. { eexists. split; [by apply sources_on_page_inv|done]. }
  destruct (InvalidatePage_frees fuel ops s _ Hrun Hrange Hfuel)
    as (s' & refs & Hr & Hs' & _ & _ & Hfreed & _).
  rewrite Hps', (sources_on_page_inv L s fuel ps Hinv Hps Hfuel) in Hr.
  injection Hr as <-.
  exists s'. split; [done|]. by apply Hfreed.
Qed.

End Claims.

Module DecodeFacts.

Section Rows.
Variable conv : Z -> Z.
Variable vram : VRAM.

Lemma load16_range i : 0 <= load16 vram i < 65536.
Proof. unfold load16, wrap16. apply Z.mod_pos_bound. lia. Qed.

Lemma top_nibble pp : 0 <= pp < 65536 -> Z.shiftr pp 12 = nibble 3 pp.
Proof.
  intros H. unfold nibble. change (4 * 3) with 12. change 15 with (Z.ones 4).
  rewrite Z.land_ones by lia. rewrite Z.shiftr_div_pow2 by lia.
  symmetry. apply Z.mod_small. split; [apply Z.div_pos; lia|].
  apply Z.div_lt_upper_bound; lia.
Qed.

Lemma top_byte pp : 0 <= pp < 65536 -> Z.shiftr pp 8 = byte_of 1 pp.
Proof.
  intros H. unfold byte_of. change (8 * 1) with 8. change 255 with (Z.ones 8).
  rewrite Z.land_ones by lia. rewrite Z.shiftr_div_pow2 by lia.
  symmetry. apply Z.mod_small. split; [apply Z.div_pos; lia|].
  apply Z.div_lt_upper_bound; lia.
Qed.

Lemma DecodeTexture4_row_lookup n pal : forall ptr x k,
  (x < n)%nat -> (k < 4)%nat ->
  DecodeTexture4_row conv vram n pal ptr !! (4 * x + k)%nat =
    Some (conv (load16 vram (pal + nibble (Z.of_nat k)
                                     (load16 vram (ptr + Z.of_nat x))))).
Proof.
  induction n as [|n IH]; intros ptr x k Hx Hk; [lia|].
  destruct x as [|x].
  - rewrite Z.add_0_r. cbn [DecodeTexture4_row].
    pose proof (load16_range ptr).
    destruct k as [|[|[|[|k]]]]; try lia; simpl lookup; unfold nibble; simpl Z.mul;
      rewrite ?Z.shiftr_0_r; try reflexivity.
    rewrite top_nibble by done. reflexivity.
  - replace (4 * S x + k)%nat with (S (S (S (S (4 * x + k))))) by lia.
    cbn [DecodeTexture4_row]. set (i := (4 * x + k)%nat).
    change (DecodeTexture4_row conv vram n pal (ptr + 1) !! i = 
            Some (conv (load16 vram (pal + nibble (Z.of_nat k)
                                           (load16 vram (ptr + Z.of_nat (S x))))))).
    unfold i. rewrite IH by lia.
    replace (ptr + 1 + Z.of_nat x) with (ptr + Z.of_nat (S x)) by lia. reflexivity.
Qed.

Lemma DecodeTexture4_row_length n pal ptr :
  length (DecodeTexture4_row conv vram n pal ptr) = (4 * n)%nat.
Proof. revert ptr. induction n as [|n IH]; intros ptr; simpl; [done|]. rewrite IH. lia. Qed.

Lemma DecodeTexture8_row_lookup n pal : forall ptr x k,
  (x < n)%nat -> (k < 2)%nat ->
  DecodeTexture8_row conv vram n pal ptr !! (2 * x + k)%nat =
    Some (conv (load16 vram (pal + byte_of (Z.of_nat k)
                                     (load16 vram (ptr + Z.of_nat x))))).
Proof.
  induction n as [|n IH]; intros ptr x k Hx Hk; [lia|].
  destruct x as [|x].
  - rewrite Z.add_0_r. cbn [DecodeTexture8_row].
    pose proof (load16_range ptr).
    destruct k as [|[|k]]; try lia; simpl lookup; unfold byte_of; simpl Z.mul;
      rewrite ?Z.shiftr_0_r; try reflexivity.
    rewrite top_byte by done. reflexivity.
  - replace (2 * S x + k)%nat with (S (S (2 * x + k))) by lia.
    cbn [DecodeTexture8_row]. set (i := (2 * x + k)%nat).
    change (DecodeTexture8_row conv vram n pal (ptr + 1) !! i = 
            Some (conv (load16 vram (pal + byte_of (Z.of_nat k)
                                           (load16 vram (ptr + Z.of_nat (S x))))))).
    unfold i. rewrite IH by lia.
    replace (ptr + 1 + Z.of_nat x) with (ptr + Z.of_nat (S x)) by lia. reflexivity.
Qed.

Lemma DecodeTexture16_row_lookup n : forall ptr x,
  (x < n)%nat ->
  DecodeTexture16_row conv vram n ptr !! x = Some (conv (load16 vram (ptr + Z.of_nat x))).
Proof.
  induction n as [|n IH]; intros ptr x Hx; [lia|].
  destruct x as [|x].
  - by rewrite Z.add_0_r.
  - cbn [DecodeTexture16_row].
    change (DecodeTexture16_row conv vram n (ptr + 1) !! x =
            Some (conv (load16 vram (ptr + Z.of_nat (S x))))).
    rewrite IH by lia.
    replace (ptr + 1 + Z.of_nat x) with (ptr + Z.of_nat (S x)) by lia. reflexivity.
Qed.

Lemma decode_rows_lookup (row : Z -> list Z) n : forall page y,
  (y < n)%nat ->
  decode_rows row n page !! y = Some (row (page + Z.of_nat y * VRAM_WIDTH)).
Proof.
  induction n as [|n IH]; intros page y Hy; [lia|].
  destruct y as [|y].
  - simpl. do 2 f_equal. lia.
  - cbn [decode_rows].
    change (decode_rows row n (page + VRAM_WIDTH) !! y =
            Some (row (page + Z.of_nat (S y) * VRAM_WIDTH))).
    rewrite IH by lia.
    replace (page + VRAM_WIDTH + Z.of_nat y * VRAM_WIDTH)
      with (page + Z.of_nat (S y) * VRAM_WIDTH) by lia. reflexivity.
Qed.

Lemma decode_rows_length (row : Z -> list Z) n page : length (decode_rows row n page) = n.
Proof. revert page. induction n as [|n IH]; intros page; simpl; [done|]. by rewrite IH. Qed.
End Rows.

Lemma texel_rows (row : Z -> list Z) n page x y :
  (y < n)%nat ->
  texel (decode_rows row n page) x y = row (page + Z.of_nat y * VRAM_WIDTH) !! x.
Proof. intros Hy. unfold texel. by rewrite decode_rows_lookup. Qed.

(** C4 -- decoding by depth mode.  In 4-bit mode the texel at column
    [4x+k] of row [y] is the conversion of the palette entry indexed by
    nibble [k] (from the low end) of word [x] of row [y] of the page; in
    8-bit mode column [2x+k] uses byte [k]; in 16-bit mode column [x] is
    the conversion of the word itself.  For a page whose words are all 0
    in 4-bit mode with palette entry 0 equal to 0x8000, every texel is
    RGBA(0,0,0,255) as soon as the conversion maps 0x8000 to it. *)
Theorem decode_by_mode conv vram pg pal :
  let page := VRAMPagePointer pg in
  let palette := GetYBase pal * VRAM_WIDTH + GetXBase pal in
  let word x y := load16 vram (page + Z.of_nat y * VRAM_WIDTH + Z.of_nat x) in
  (exists t, DecodeTexture conv vram pg pal Palette4Bit = Some t /\
     forall x y k, (x < 64)%nat -> (y < 256)%nat -> (k < 4)%nat ->
       texel t (4 * x + k) y =
         Some (conv (load16 vram (palette + nibble (Z.of_nat k) (word x y))))) /\
  (exists t, DecodeTexture conv vram pg pal Palette8Bit = Some t /\
     forall x y k, (x < 128)%nat -> (y < 256)%nat -> (k < 2)%nat ->
       texel t (2 * x + k) y =
         Some (conv (load16 vram (palette + byte_of (Z.of_nat k) (word x y))))) /\
  (forall mode, mode = Direct16Bit \/ mode = Reserved_Direct16Bit ->
   exists t, DecodeTexture conv vram pg pal mode = Some t /\
     forall x y, (x < 256)%nat -> (y < 256)%nat ->
       texel t x y = Some (conv (word x y))) /\
  ((forall x y, (x < 64)%nat -> (y < 256)%nat -> word x y = 0) ->
   load16 vram palette = 32768 ->
   conv 32768 = RGBA8888 0 0 0 255 ->
   exists t, DecodeTexture conv vram pg pal Palette4Bit = Some t /\
     forall X Y, (X < 256)%nat -> (Y < 256)%nat ->
       texel t X Y = Some (RGBA8888 0 0 0 255)).
Proof.
  intros page palette word.
  assert (forall x y k, (x < 64)%nat -> (y < 256)%nat -> (k < 4)%nat ->
    texel (DecodeTexture4 conv vram page palette) (4 * x + k) y =
      Some (conv (load16 vram (palette + nibble (Z.of_nat k) (word x y))))) as H4.
  { intros x y k Hx Hy Hk. unfold DecodeTexture4.
    rewrite texel_rows by (vm_compute; lia).
    apply DecodeTexture4_row_lookup; [vm_compute; lia|done]. }
  split; [|split; [|split]].
  - eexists. split; [reflexivity|]. exact H4.
  - eexists. split; [reflexivity|]. intros x y k Hx Hy Hk. unfold DecodeTexture8.
    rewrite texel_rows by (vm_compute; lia).
    apply DecodeTexture8_row_lookup; [vm_compute; lia|done].
  - intros mode Hmode. exists (DecodeTexture16 conv vram page).
    split; [by destruct Hmode as [-> | ->]|].
    intros x y Hx Hy. unfold DecodeTexture16.
    rewrite texel_rows by (vm_compute; lia).
    apply DecodeTexture16_row_lookup. vm_compute; lia.
  - intros Hzero Hpal Hconv. eexists. split; [reflexivity|].
    intros X Y HX HY.
    replace X with (4 * (X / 4) + X mod 4)%nat by (symmetry; apply Nat.div_mod_eq).
    assert (X / 4 < 64)%nat by (apply Nat.Div0.div_lt_upper_bound; lia).
    assert (X mod 4 < 4)%nat by (apply Nat.mod_upper_bound; lia).
    rewrite H4 by done. rewrite Hzero by done.
    unfold nibble. rewrite Z.shiftr_0_l, Z.land_0_l, Z.add_0_r.
    by rewrite Hpal, Hconv.
Qed.

End DecodeFacts.

Module Evaluations.
Import GPUTextureCache Trace Spec Examples Claims DecodeFacts.

(** C1 -- [InvalidatePages] does not invalidate the covering set. *)
Theorem InvalidatePages_skips_covered_page :
  LookupSource 4 true vram_zero key_p1_16bit init = Some (Some O, cache_p1) /\
  valid_rect 0 0 128 1 = true /\
  covering_pages 0 0 128 1 = [0; 1] /\
  dependency_pages key_p1_16bit = [1; 2; 3; 4] /\
  InvalidatePages 4 0 0 128 1 cache_p1 = Some cache_p1 /\
  LookupSource 4 true vram_written key_p1_16bit cache_p1 = Some (Some O, cache_p1) /\
  (o ← heap cache_p1 !! O; texel (src_texture o) 0 0) = Some 0 /\
  (t ← DecodeTexture VRAMRGBA5551ToRGBA8888 vram_written 1 {| bits := 0 |} Direct16Bit;
   texel t 0 0) = Some 16777215.
Proof. repeat split; vm_compute; reflexivity. Qed.

(** C2 -- a source is not listed on all the pages of its footprint. *)
Theorem CreateSource_registers_one_page_per_row :
  LookupSource 4 true vram_zero key_p0_16bit init = Some (Some O, cache_p0) /\
  pixel_footprint_pages key_p0_16bit = [0; 1; 2; 3] /\
  dependency_pages key_p0_16bit = [0; 1; 2; 3] /\
  pages_listing 4 O cache_p0 = [0] /\
  (src_num_page_refs <$> heap cache_p0 !! O) = Some 1%nat.
Proof. repeat split; vm_compute; reflexivity. Qed.

(** C5 -- two-pass rendering.  A textured batch with any enabled
    transparency mode on a device without dual-source blend needs two
    passes; its own render mode is [TransparentAndOpaque], and the flush
    draws it as [OnlyOpaque] then [OnlyTransparent]. *)
Theorem two_pass_without_dual_source (g : GPU_HW.t) :
  GPU_HW.texture_mode (GPU_HW.m_batch g) <> Disabled ->
  GPU_HW.transparency_mode (GPU_HW.m_batch g) <> TransparencyDisabledMode ->
  GPU_HW.m_supports_dual_source_blend g = false ->
  GPU_HW.NeedsTwoPassRendering g = true /\
  GPU_HW.GetRenderMode (GPU_HW.m_batch g) = GPU_HW.TransparentAndOpaque /\
  GPU_HW.FlushRender_draws g = [GPU_HW.OnlyOpaque; GPU_HW.OnlyTransparent].
Proof.
  intros Htex Htr Hdual.
  assert (GPU_HW.NeedsTwoPassRendering g = true) as Hneed.
  { unfold GPU_HW.NeedsTwoPassRendering. rewrite Hdual.
    rewrite (bool_decide_eq_true_2 (GPU_HW.texture_mode (GPU_HW.m_batch g) <> Disabled))
      by done.
    rewrite (bool_decide_eq_true_2
               (GPU_HW.transparency_mode (GPU_HW.m_batch g) <> TransparencyDisabledMode))
      by done.
    simpl. apply orb_true_r. }
  split; [done|]. split.
  - unfold GPU_HW.GetRenderMode. by rewrite decide_False.
  - unfold GPU_HW.FlushRender_draws. by rewrite Hneed.
Qed.

Lemma two_pass_without_dual_source_witness :
  GPU_HW.NeedsTwoPassRendering textured_subtractive = true /\
  GPU_HW.GetRenderMode (GPU_HW.m_batch textured_subtractive) = GPU_HW.TransparentAndOpaque /\
  GPU_HW.FlushRender_draws textured_subtractive = [GPU_HW.OnlyOpaque; GPU_HW.OnlyTransparent].
Proof.
  apply (two_pass_without_dual_source textured_subtractive);
    [discriminate|discriminate|reflexivity].
Defined.

Lemma decode_by_mode_witness :
  exists t, DecodeTexture VRAMRGBA5551ToRGBA8888 vram_palette 0 palette_at_64_0 Palette4Bit
              = Some t /\
    forall X Y, (X < 256)%nat -> (Y < 256)%nat -> texel t X Y = Some (RGBA8888 0 0 0 255).
Proof.
  apply (decode_by_mode VRAMRGBA5551ToRGBA8888 vram_palette 0 palette_at_64_0).
  - intros x y Hx Hy. unfold load16, vram_palette.
    destruct (Z.eqb_spec (VRAMPagePointer 0 + Z.of_nat y * VRAM_WIDTH + Z.of_nat x) 64)
      as [E|E]; [|reflexivity].
    change (VRAMPagePointer 0) with 0 in E. unfold VRAM_WIDTH in E. lia.
  - vm_compute. reflexivity.
  - vm_compute. reflexivity.
Defined.

Lemma lookup_twice_same_source_witness :
  LookupSource 4 false vram_written key_p0_4bit cache_p0_4bit_later
    = Some (Some O, cache_p0_4bit_later).
Proof.
  apply (proj2 (lookup_twice_same_source 4 [] init eq_refl)
           true vram_zero key_p0_4bit O cache_p0_4bit other_ops cache_p0_4bit_later).
  - vm_compute. reflexivity.
  - vm_compute. reflexivity.
  - vm_compute. reflexivity.
  - vm_compute. lia.
Defined.

Lemma failed_allocation_is_null_and_harmless_witness :
  CreateSource false vram_zero key_p0_4bit cache_p1 = Some (None, cache_p1) /\
  LookupSource 4 false vram_zero key_p0_4bit cache_p1 = Some (None, cache_p1) /\
  (key_mode key_p0_4bit <> Disabled ->
   exists p s', LookupSource 4 true vram_zero key_p0_4bit cache_p1 = Some (Some p, s')).
Proof.
  apply (failed_allocation_is_null_and_harmless 4
           [OpLookup true vram_zero key_p1_16bit] cache_p1 vram_zero key_p0_4bit).
  - vm_compute. reflexivity.
  - change (0 <= 0 < 32). lia.
  - vm_compute. lia.
  - intros id o Ho.
    assert (bool_decide (map_Forall (fun (_ : nat) o => src_key o <> key_p0_4bit)
                                    (heap cache_p1)) = true) as HF
      by (vm_compute; reflexivity).
    apply bool_decide_eq_true_1 in HF. exact (HF id o Ho).
Defined.

Lemma lookup_returns_requested_key_witness :
  exists o, heap cache_p1 !! O = Some o /\ src_key o = key_p1_16bit.
Proof.
  apply (lookup_returns_requested_key 4 true vram_zero key_p1_16bit init O cache_p1).
  vm_compute. reflexivity.
Defined.

Lemma InvalidatePage_idempotent_witness :
  exists s', InvalidatePage 4 1 cache_p1 = Some s' /\
    m_page_sources s' !! Z.to_nat 1 = Some {| sl_head := None; sl_tail := None |} /\
    InvalidatePage 4 1 s' = Some s'.
Proof.
  apply (InvalidatePage_idempotent 4 [OpLookup true vram_zero key_p1_16bit] cache_p1 1).
  - vm_compute. reflexivity.
  - change (0 <= 1 < 32). lia.
  - vm_compute. lia.
Defined.

Lemma source_page_refs_witness :
  let o := source_0 cache_p0_4bit in
  (1 <= src_num_page_refs o <= MAX_PAGE_REFS_PER_SOURCE)%nat /\
  0 <= key_page (src_key o) < NUM_PAGES /\
  (exists nd, src_page_refs o !! O = Some nd /\ node_ref nd = Some O /\
              node_list nd = Some (Z.to_nat (key_page (src_key o)))) /\
  (exists refs, sources_on_page 4 (Z.to_nat (key_page (src_key o))) cache_p0_4bit
                  = Some refs /\ Some O ∈ refs) /\
  exists s', InvalidatePage 4 (key_page (src_key o)) cache_p0_4bit = Some s' /\
    heap s' !! O = None /\
    forall q refs', sources_on_page 4 q s' = Some refs' -> Some O ∉ refs'.
Proof.
  apply (source_page_refs 4 [OpLookup true vram_zero key_p0_4bit] cache_p0_4bit O
           (source_0 cache_p0_4bit)).
  - vm_compute. reflexivity.
  - vm_compute. reflexivity.
  - vm_compute. lia.
Defined.

End Evaluations.

Module DepthFacts.
Import SpecFloat Depth.

Lemma literals :
  GPU_HW.f32_of_s32 1 = GPU_HW.f32_one /\ GPU_HW.f32_of_s32 65535 = GPU_HW.f32_65535 /\
  depth_at 0 = GPU_HW.f32_one /\ scaled40 GPU_HW.f32_one = Some (2 ^ 40).
Proof. repeat split; vm_compute; reflexivity. Qed.

(** The exhaustive check over the counter values 1 to 65535. *)
Lemma depth_chain_all : depth_chain (Z.to_nat 65535) 1 GPU_HW.f32_one (2 ^ 40) = true.
Proof. vm_compute. reflexivity. Qed.

End DepthFacts.

Module DepthTheorems.
Import SpecFloat Depth DepthFacts.

(** *** The order of non-negative finite numbers *)

Lemma SFltb_finite m1 e1 m2 e2 :
  SFltb (S754_finite false m1 e1) (S754_finite false m2 e2) = true <->
  e1 < e2 \/ (e1 = e2 /\ (m1 < m2)%positive).
Proof.
  unfold SFltb, SFcompare. change (Pos.compare_cont Eq m1 m2) with (Pos.compare m1 m2).
  destruct (Z.compare_spec e1 e2); destruct (Pos.compare_spec m1 m2);
    split; try done; try lia; intros _; lia.
Qed.

Lemma SFltb_trans a b c :
  finite_nonneg a = true -> finite_nonneg b = true -> finite_nonneg c = true ->
  SFltb a b = true -> SFltb b c = true -> SFltb a c = true.
Proof.
  destruct a as [sa| | |[] ma ea]; try done;
  destruct b as [sb| | |[] mb eb]; try done;
  destruct c as [sc| | |[] mc ec]; try done; intros _ _ _; try done.
  rewrite !SFltb_finite. lia.
Qed.

Lemma SFltb_leb a b : SFltb a b = true -> SFleb a b = true.
Proof. unfold SFltb, SFleb. by destruct (SFcompare a b) as [[]|]. Qed.

Lemma finite_nonneg_leb a : finite_nonneg a = true -> SFleb GPU_HW.f32_zero a = true.
Proof. by destruct a as [sa| | |[] ma ea]. Qed.

(** *** Reading the check *)

Lemma depth_chain_spec n : forall c prev pv,
  depth_chain n c prev pv = true ->
  forall k, (k < n)%nat ->
    checked (c + Z.of_nat k) /\
    match k with
    | O => below c prev pv
    | S k' => forall pv', scaled40 (depth_at (c + Z.of_nat k')) = Some pv' ->
                below (c + Z.of_nat k) (depth_at (c + Z.of_nat k')) pv'
    end.
Proof.
  induction n as [|n IH]; intros c prev pv Hch k Hk; [lia|].
  cbn [depth_chain] in Hch.
  destruct (scaled40 (depth_at c)) as [v|] eqn:Hv; [|done].
  apply andb_prop in Hch as [Hch Hrest].
  apply andb_prop in Hch as [Hch Hclose].
  apply andb_prop in Hch as [Hch Hvlt].
  apply andb_prop in Hch as [Hfin Hlt].
  destruct k as [|k].
  - rewrite Z.add_0_r. split.
    + split; [done|]. eauto.
    + split; [done|]. exists v. split; [done|]. by apply Z.ltb_lt.
  - destruct (IH (c + 1) (depth_at c) v Hrest k ltac:(lia)) as [Hc Hb].
    replace (c + Z.of_nat (S k)) with (c + 1 + Z.of_nat k) by lia.
    split; [done|].
    destruct k as [|k'].
    + cbn [Z.of_nat] in *. rewrite !Z.add_0_r in *. intros pv' Hpv'. rewrite Hv in Hpv'. injection Hpv' as <-. exact Hb.
    + replace (c + Z.of_nat (S k')) with (c + 1 + Z.of_nat k') by lia. exact Hb.
Qed.

Lemma checked_all c : 0 <= c <= 65535 -> checked c.
Proof.
  intros Hc. destruct (decide (c = 0)) as [->|Hne].
  - split; [by vm_compute|]. exists (2 ^ 40). split; by vm_compute.
  - destruct (depth_chain_spec _ _ _ _ depth_chain_all (Z.to_nat (c - 1)) ltac:(lia)) as [H _].
    by replace (1 + Z.of_nat (Z.to_nat (c - 1))) with c in H by lia.
Qed.

Lemma below_previous c :
  1 <= c <= 65535 ->
  forall pv, scaled40 (depth_at (c - 1)) = Some pv -> below c (depth_at (c - 1)) pv.
Proof.
  intros Hc pv Hpv.
  destruct (depth_chain_spec _ _ _ _ depth_chain_all (Z.to_nat (c - 1)) ltac:(lia)) as [_ H].
  destruct (Z.to_nat (c - 1)) as [|k'] eqn:E.
  - assert (c = 1) as -> by lia. change (1 - 1) with 0 in *.
    destruct literals as (_ & _ & Hzero & Hone). rewrite Hzero in *.
    rewrite Hone in Hpv. injection Hpv as <-. exact H.
  - replace (1 + Z.of_nat (S k')) with c in H by lia.
    replace (1 + Z.of_nat k') with (c - 1) in H by lia. by apply H.
Qed.

Lemma decreasing_from c n :
  0 <= c -> c + Z.of_nat (S n) <= 65535 ->
  forall v, scaled40 (depth_at c) = Some v ->
  below (c + Z.of_nat (S n)) (depth_at c) v.
Proof.
  intros Hc. induction n as [|n IH]; intros Hn v Hv.
  - replace c with (c + Z.of_nat 1 - 1) in Hv at 1 by lia.
    replace (depth_at c) with (depth_at (c + Z.of_nat 1 - 1)) by (f_equal; lia).
    apply below_previous; [lia|done].
  - destruct (IH ltac:(lia) v Hv) as (Hlt & v1 & Hv1 & Hlt1).
    set (c1 := c + Z.of_nat (S n)) in *.
    destruct (below_previous (c1 + 1) ltac:(lia) v1) as (Hlt' & v2 & Hv2 & Hlt2).
    { by replace (c1 + 1 - 1) with c1 by lia. }
    replace (c1 + 1 - 1) with c1 in Hlt' by lia.
    replace (c + Z.of_nat (S (S n))) with (c1 + 1) by lia.
    split.
    + eapply SFltb_trans; [..|exact Hlt'|exact Hlt]; apply checked_all; lia.
    + exists v2. split; [done|]. lia.
Qed.

(** C6 -- the normalized depth.  The depth is computed in single
    precision as [1.0f - float(counter) / 65535.0f].  For a counter in
    [0, 65535] it compares above or equal to 0 and below or equal to 1,
    and its exact value lies in [0, 1] within 2^-24 of
    [1 - counter / 65535].  It is strictly decreasing in the counter:
    a larger counter gives a depth that compares strictly below, with a
    strictly smaller exact value. *)
Theorem normalized_depth (g : GPU_HW.t) :
  let c := GPU_HW.m_current_depth g in
  GPU_HW.GetCurrentNormalizedVertexDepth g =
    GPU_HW.f32_sub GPU_HW.f32_one (GPU_HW.f32_div (GPU_HW.f32_of_s32 c) GPU_HW.f32_65535) /\
  (0 <= c <= 65535 ->
   SFleb GPU_HW.f32_zero (GPU_HW.GetCurrentNormalizedVertexDepth g) = true /\
   SFleb (GPU_HW.GetCurrentNormalizedVertexDepth g) GPU_HW.f32_one = true /\
   exists v, scaled40 (GPU_HW.GetCurrentNormalizedVertexDepth g) = Some v /\
     0 <= v <= 2 ^ 40 /\
     Z.abs (65535 * v - (65535 - c) * 2 ^ 40) <= 65535 * 2 ^ 16) /\
  (forall g', 0 <= c -> c < GPU_HW.m_current_depth g' -> GPU_HW.m_current_depth g' <= 65535 ->
   SFltb (GPU_HW.GetCurrentNormalizedVertexDepth g')
         (GPU_HW.GetCurrentNormalizedVertexDepth g) = true /\
   exists v v', scaled40 (GPU_HW.GetCurrentNormalizedVertexDepth g) = Some v /\
     scaled40 (GPU_HW.GetCurrentNormalizedVertexDepth g') = Some v' /\ v' < v).
Proof.
  intros c. change (GPU_HW.GetCurrentNormalizedVertexDepth g) with (depth_at c).
  split; [reflexivity|]. split.
  - intros Hc. destruct (checked_all c Hc) as (Hfin & v & Hv & Hclose).
    split; [by apply finite_nonneg_leb|]. split.
    + destruct (decide (c = 0)) as [->|Hne]; [by vm_compute|].
      destruct (decreasing_from 0 (Z.to_nat (c - 1)) ltac:(lia) ltac:(lia) (2 ^ 40))
        as (Hlt & _); [by vm_compute|].
      replace (0 + Z.of_nat (S (Z.to_nat (c - 1)))) with c in Hlt by lia.
      apply SFltb_leb. destruct literals as (_ & _ & <- & _). exact Hlt.
    + exists v. split; [done|]. unfold close_to_ideal in Hclose.
      repeat (apply andb_prop in Hclose as [Hclose ?]).
      repeat split; try (by apply Z.leb_le).
  - intros g' H0 Hlt Hle. set (c' := GPU_HW.m_current_depth g') in *.
    change (GPU_HW.GetCurrentNormalizedVertexDepth g') with (depth_at c').
    destruct (checked_all c ltac:(lia)) as (_ & v & Hv & _).
    destruct (decreasing_from c (Z.to_nat (c' - c - 1)) ltac:(lia) ltac:(lia) v Hv)
      as (Hb & v' & Hv' & Hlt').
    replace (c + Z.of_nat (S (Z.to_nat (c' - c - 1)))) with c' in * by lia.
    split; [done|]. eauto.
Qed.

Lemma normalized_depth_witness :
  SFleb GPU_HW.f32_zero
    (GPU_HW.GetCurrentNormalizedVertexDepth Examples.textured_subtractive) = true /\
  SFleb (GPU_HW.GetCurrentNormalizedVertexDepth Examples.textured_subtractive)
    GPU_HW.f32_one = true /\
  SFltb (GPU_HW.GetCurrentNormalizedVertexDepth Examples.textured_subtractive_next)
    (GPU_HW.GetCurrentNormalizedVertexDepth Examples.textured_subtractive) = true.
Proof.
  destruct (normalized_depth Examples.textured_subtractive) as (_ & Hbounds & Hdecr).
  destruct Hbounds as (H0 & H1 & _); [change (0 <= 1 <= 65535); lia|].
  destruct (Hdecr Examples.textured_subtractive_next) as (Hlt & _).
  - change (0 <= 1); lia.
  - change (1 < 2); lia.
  - change (2 <= 65535); lia.
  - exact (conj H0 (conj H1 Hlt)).
Defined.

End DepthTheorems.

Module PageGeometry.
Import GPUTextureCache Rep LoopFacts Geometry.

Lemma page_split q : 0 <= q < NUM_PAGES ->
  0 <= q mod 16 < 16 /\ 0 <= q / 16 < 2 /\ q = q / 16 * 16 + q mod 16.
Proof.
  unfold NUM_PAGES, VRAM_PAGES_WIDE, VRAM_PAGES_HIGH, VRAM_WIDTH, VRAM_HEIGHT,
    VRAM_PAGE_WIDTH, VRAM_PAGE_HEIGHT.
  change (1024 / 64 * (512 / 256)) with 32. intros Hq.
  split; [apply Z.mod_pos_bound; lia|].
  split; [split; [apply Z.div_pos; lia|apply Z.div_lt_upper_bound; lia]|].
  pose proof (Z.div_mod q 16 ltac:(lia)). lia.
Qed.

(** X15 -- Every coordinate of video memory lies in the tile of exactly one
    page, the one [VRAMCoordinateToPage] names. *)
Theorem coordinate_in_one_page x y :
  0 <= x < VRAM_WIDTH -> 0 <= y < VRAM_HEIGHT ->
  0 <= VRAMCoordinateToPage x y < NUM_PAGES /\
  PageStartX (VRAMCoordinateToPage x y) <= x
    < PageStartX (VRAMCoordinateToPage x y) + VRAM_PAGE_WIDTH /\
  PageStartY (VRAMCoordinateToPage x y) <= y
    < PageStartY (VRAMCoordinateToPage x y) + VRAM_PAGE_HEIGHT /\
  forall q, 0 <= q < NUM_PAGES ->
    PageStartX q <= x < PageStartX q + VRAM_PAGE_WIDTH ->
    PageStartY q <= y < PageStartY q + VRAM_PAGE_HEIGHT ->
    q = VRAMCoordinateToPage x y.
Proof.
  unfold VRAM_WIDTH, VRAM_HEIGHT. intros Hx Hy.
  pose proof (div_bounds x 64 ltac:(lia)) as Bx.
  pose proof (div_bounds y 256 ltac:(lia)) as By.
  assert (0 <= x / 64 < 16) as Hsx
    by (split; [apply Z.div_pos; lia|apply Z.div_lt_upper_bound; lia]).
  assert (0 <= y / 256 < 2) as Hsy
    by (split; [apply Z.div_pos; lia|apply Z.div_lt_upper_bound; lia]).
  destruct (page_coords _ _ Hsx Hsy) as (E1 & E2 & E3 & E4).
  assert (VRAMCoordinateToPage x y = y / 256 * 16 + x / 64) as ->
    by (unfold VRAMCoordinateToPage, VRAM_PAGE_WIDTH, VRAM_PAGE_HEIGHT; exact E1).
  rewrite E2, E3. unfold VRAM_PAGE_WIDTH, VRAM_PAGE_HEIGHT.
  split; [done|]. split; [lia|]. split; [lia|].
  intros q Hq Hqx Hqy.
  destruct (page_split q Hq) as (Hm & Hd & Eq).
  destruct (page_coords _ _ Hm Hd) as (_ & F2 & F3 & _).
  rewrite <- Eq in F2, F3. rewrite F2 in Hqx. rewrite F3 in Hqy.
  assert (q mod 16 = x / 64) by lia.
  assert (q / 16 = y / 256) by lia.
  lia.
Qed.

Lemma coordinate_in_one_page_witness :
  VRAMCoordinateToPage 100 300 = 17 /\ PageStartX 17 = 64 /\ PageStartY 17 = 256.
Proof.
  destruct (coordinate_in_one_page 100 300) as (_ & _ & _ & Huniq).
  - unfold VRAM_WIDTH. lia.
  - unfold VRAM_HEIGHT. lia.
  - assert (PageStartX 17 = 64) as EX by reflexivity.
    assert (PageStartY 17 = 256) as EY by reflexivity.
    split; [|done]. symmetry. apply Huniq.
    + change NUM_PAGES with 32. lia.
    + rewrite EX. unfold VRAM_PAGE_WIDTH. lia.
    + rewrite EY. unfold VRAM_PAGE_HEIGHT. lia.
Defined.

(** X16 -- Every coordinate inside the tile of a page maps back to that page,
    and a page number is the index of its own column and row. *)
Theorem page_tile_maps_back pn dx dy :
  0 <= pn < NUM_PAGES -> 0 <= dx < VRAM_PAGE_WIDTH -> 0 <= dy < VRAM_PAGE_HEIGHT ->
  VRAMCoordinateToPage (PageStartX pn + dx) (PageStartY pn + dy) = pn /\
  PageIndex (pn mod VRAM_PAGES_WIDE) (pn / VRAM_PAGES_WIDE) = pn /\
  PageStartX pn + VRAM_PAGE_WIDTH <= VRAM_WIDTH /\
  PageStartY pn + VRAM_PAGE_HEIGHT <= VRAM_HEIGHT.
Proof.
  intros Hq Hdx Hdy.
  destruct (page_split pn Hq) as (Hm & Hd & Eq).
  destruct (page_coords _ _ Hm Hd) as (F1 & F2 & F3 & _).
  rewrite <- Eq in F2, F3. rewrite F2, F3.
  unfold VRAM_PAGES_WIDE, VRAM_WIDTH, VRAM_HEIGHT, VRAM_PAGE_WIDTH, VRAM_PAGE_HEIGHT in *.
  change (1024 / 64) with 16. rewrite F1.
  split; [|lia].
  unfold VRAMCoordinateToPage, VRAM_PAGE_WIDTH, VRAM_PAGE_HEIGHT.
  rewrite (Z.add_comm (pn mod 16 * 64)), Z.div_add by lia.
  rewrite (Z.add_comm (pn / 16 * 256)), Z.div_add by lia.
  rewrite (Z.div_small dx) by lia. rewrite (Z.div_small dy) by lia.
  rewrite !Z.add_0_l. rewrite F1. lia.
Qed.

Lemma page_tile_maps_back_witness :
  VRAMCoordinateToPage (PageStartX 31 + 63) (PageStartY 31 + 255) = 31.
Proof.
  apply (page_tile_maps_back 31 63 255).
  - change NUM_PAGES with 32. lia.
  - unfold VRAM_PAGE_WIDTH. lia.
  - unfold VRAM_PAGE_HEIGHT. lia.
Defined.

End PageGeometry.

Module DecodeLocality.
Import GPUTextureCache LoopFacts Geometry DecodeFacts PageGeometry.

Section TwoMemories.
Variable conv : Z -> Z.
Variables vram vram' : VRAM.

Lemma DecodeTexture4_row_ext pal n : forall ptr,
  (forall i, 0 <= i < 16 -> load16 vram (pal + i) = load16 vram' (pal + i)) ->
  (forall x, 0 <= x < Z.of_nat n -> load16 vram (ptr + x) = load16 vram' (ptr + x)) ->
  DecodeTexture4_row conv vram n pal ptr = DecodeTexture4_row conv vram' n pal ptr.
Proof.
  intros ptr Hpal. revert ptr. induction n as [|n IH]; intros ptr Hrow; [done|].
  cbn [DecodeTexture4_row].
  assert (load16 vram ptr = load16 vram' ptr) as <-.
  { specialize (Hrow 0). rewrite Z.add_0_r in Hrow. apply Hrow. lia. }
  pose proof (load16_range vram ptr) as Hr.
  set (pp := load16 vram ptr) in *.
  assert (forall k, 0 <= k < 4 -> 0 <= nibble k pp < 16) as Hnib.
  { intros k Hk. unfold nibble. change 15 with (Z.ones 4). rewrite Z.land_ones by lia.
    apply Z.mod_pos_bound. lia. }
  pose proof (Hnib 0 ltac:(lia)) as N0. pose proof (Hnib 1 ltac:(lia)) as N1.
  pose proof (Hnib 2 ltac:(lia)) as N2. pose proof (Hnib 3 ltac:(lia)) as N3.
  rewrite (top_nibble pp Hr).
  unfold nibble in N0, N1, N2, N3.
  change (4 * 0) with 0 in N0. rewrite Z.shiftr_0_r in N0.
  change (4 * 1) with 4 in N1. change (4 * 2) with 8 in N2.
  rewrite !Hpal by first [exact N0|exact N1|exact N2|exact N3].
  do 4 f_equal. apply IH. intros x Hx.
  replace (ptr + 1 + x) with (ptr + (1 + x)) by lia. apply Hrow. lia.
Qed.

Lemma DecodeTexture8_row_ext pal n : forall ptr,
  (forall i, 0 <= i < 256 -> load16 vram (pal + i) = load16 vram' (pal + i)) ->
  (forall x, 0 <= x < Z.of_nat n -> load16 vram (ptr + x) = load16 vram' (ptr + x)) ->
  DecodeTexture8_row conv vram n pal ptr = DecodeTexture8_row conv vram' n pal ptr.
Proof.
  intros ptr Hpal. revert ptr. induction n as [|n IH]; intros ptr Hrow; [done|].
  cbn [DecodeTexture8_row].
  assert (load16 vram ptr = load16 vram' ptr) as <-.
  { specialize (Hrow 0). rewrite Z.add_0_r in Hrow. apply Hrow. lia. }
  pose proof (load16_range vram ptr) as Hr.
  set (pp := load16 vram ptr) in *.
  assert (forall k, 0 <= k < 2 -> 0 <= byte_of k pp < 256) as Hb.
  { intros k Hk. unfold byte_of. change 255 with (Z.ones 8). rewrite Z.land_ones by lia.
    apply Z.mod_pos_bound. lia. }
  pose proof (Hb 0 ltac:(lia)) as B0. pose proof (Hb 1 ltac:(lia)) as B1.
  rewrite (top_byte pp Hr).
  unfold byte_of in B0. change (8 * 0) with 0 in B0. rewrite Z.shiftr_0_r in B0.
  rewrite !Hpal by first [exact B0|exact B1].
  do 2 f_equal. apply IH. intros x Hx.
  replace (ptr + 1 + x) with (ptr + (1 + x)) by lia. apply Hrow. lia.
Qed.

Lemma DecodeTexture16_row_ext n : forall ptr,
  (forall x, 0 <= x < Z.of_nat n -> load16 vram (ptr + x) = load16 vram' (ptr + x)) ->
  DecodeTexture16_row conv vram n ptr = DecodeTexture16_row conv vram' n ptr.
Proof.
  induction n as [|n IH]; intros ptr Hrow; [done|].
  cbn [DecodeTexture16_row].
  assert (load16 vram ptr = load16 vram' ptr) as <-.
  { specialize (Hrow 0). rewrite Z.add_0_r in Hrow. apply Hrow. lia. }
  f_equal. apply IH. intros x Hx.
  replace (ptr + 1 + x) with (ptr + (1 + x)) by lia. apply Hrow. lia.
Qed.

Lemma decode_rows_ext (row row' : Z -> list Z) n : forall page,
  (forall y, 0 <= y < Z.of_nat n -> row (page + y * VRAM_WIDTH) = row' (page + y * VRAM_WIDTH)) ->
  decode_rows row n page = decode_rows row' n page.
Proof.
  induction n as [|n IH]; intros page Hrows; [done|].
  cbn [decode_rows]. f_equal.
  - specialize (Hrows 0). rewrite Z.mul_0_l, Z.add_0_r in Hrows. apply Hrows. lia.
  - apply IH. intros y Hy.
    replace (page + VRAM_WIDTH + y * VRAM_WIDTH) with (page + (1 + y) * VRAM_WIDTH) by lia.
    apply Hrows. lia.
Qed.

(** X12 -- The decoded texture depends only on the words the key's footprint
    holds: [WidthForMode] words in each of the 256 lines from the page
    pointer on and, in the paletted modes, the 16 or 256 palette entries. *)
Theorem decode_depends_on_footprint_only pg pal mode :
  (forall x y, 0 <= x < WidthForMode mode -> 0 <= y < TEXTURE_PAGE_HEIGHT ->
     load16 vram (VRAMPagePointer pg + y * VRAM_WIDTH + x) =
     load16 vram' (VRAMPagePointer pg + y * VRAM_WIDTH + x)) ->
  (mode = Palette4Bit -> forall i, 0 <= i < 16 ->
     load16 vram (GetYBase pal * VRAM_WIDTH + GetXBase pal + i) =
     load16 vram' (GetYBase pal * VRAM_WIDTH + GetXBase pal + i)) ->
  (mode = Palette8Bit -> forall i, 0 <= i < 256 ->
     load16 vram (GetYBase pal * VRAM_WIDTH + GetXBase pal + i) =
     load16 vram' (GetYBase pal * VRAM_WIDTH + GetXBase pal + i)) ->
  DecodeTexture conv vram pg pal mode = DecodeTexture conv vram' pg pal mode.
Proof.
  intros Hpix H4 H8. unfold DecodeTexture.
  destruct mode; [| | | |done]; f_equal.
  - unfold DecodeTexture4. apply decode_rows_ext. intros y Hy.
    apply DecodeTexture4_row_ext; [by apply H4|].
    intros x Hx. apply Hpix; [|exact Hy]. exact Hx.
  - unfold DecodeTexture8. apply decode_rows_ext. intros y Hy.
    apply DecodeTexture8_row_ext; [by apply H8|].
    intros x Hx. apply Hpix; [|exact Hy]. exact Hx.
  - unfold DecodeTexture16. apply decode_rows_ext. intros y Hy.
    apply DecodeTexture16_row_ext. intros x Hx. apply Hpix; [|exact Hy]. exact Hx.
  - unfold DecodeTexture16. apply decode_rows_ext. intros y Hy.
    apply DecodeTexture16_row_ext. intros x Hx. apply Hpix; [|exact Hy]. exact Hx.
Qed.

End TwoMemories.

Lemma decode_depends_on_footprint_only_witness :
  DecodeTexture VRAMRGBA5551ToRGBA8888 Examples.vram_zero 0 {| bits := 0 |} Palette4Bit =
  DecodeTexture VRAMRGBA5551ToRGBA8888 Examples.vram_written 0 {| bits := 0 |} Palette4Bit.
Proof.
  assert (forall i, i <> 64 ->
            load16 Examples.vram_zero i = load16 Examples.vram_written i) as Hne.
  { intros i Hi. unfold load16, Examples.vram_zero, Examples.vram_written.
    destruct (Z.eqb_spec i 64); [done|reflexivity]. }
  apply decode_depends_on_footprint_only.
  - intros x y Hx Hy. apply Hne.
    change (VRAMPagePointer 0) with 0. change (WidthForMode Palette4Bit) with 64 in Hx.
    unfold VRAM_WIDTH. lia.
  - intros _ i Hi. apply Hne.
    change (GetYBase {| bits := 0 |} * VRAM_WIDTH + GetXBase {| bits := 0 |}) with 0. lia.
  - discriminate.
Defined.

Lemma row_lengths (row : Z -> list Z) n w : forall page,
  (forall p, length (row p) = w) ->
  Forall (fun r => length r = w) (decode_rows row n page).
Proof.
  induction n as [|n IH]; intros page Hrow; cbn [decode_rows]; [constructor|].
  constructor; [apply Hrow|by apply IH].
Qed.

Lemma DecodeTexture8_row_length conv vram n pal ptr :
  length (DecodeTexture8_row conv vram n pal ptr) = (2 * n)%nat.
Proof. revert ptr. induction n as [|n IH]; intros ptr; simpl; [done|]. rewrite IH. lia. Qed.

Lemma DecodeTexture16_row_length conv vram n ptr :
  length (DecodeTexture16_row conv vram n ptr) = n.
Proof. revert ptr. induction n as [|n IH]; intros ptr; simpl; [done|]. by rewrite IH. Qed.

Lemma DecodeTexture_dims conv vram pg pal mode t :
  DecodeTexture conv vram pg pal mode = Some t ->
  length t = Z.to_nat TEXTURE_PAGE_HEIGHT /\
  Forall (fun row => length row = Z.to_nat TEXTURE_PAGE_WIDTH) t.
Proof.
  unfold DecodeTexture. intros H.
  destruct mode; [| | | |done]; injection H as <-.
  - unfold DecodeTexture4. rewrite decode_rows_length. split; [done|].
    apply row_lengths. intros p. by rewrite DecodeTexture4_row_length.
  - unfold DecodeTexture8. rewrite decode_rows_length. split; [done|].
    apply row_lengths. intros p. by rewrite DecodeTexture8_row_length.
  - unfold DecodeTexture16. rewrite decode_rows_length. split; [done|].
    apply row_lengths. intros p. by rewrite DecodeTexture16_row_length.
  - unfold DecodeTexture16. rewrite decode_rows_length. split; [done|].
    apply row_lengths. intros p. by rewrite DecodeTexture16_row_length.
Qed.

(** X13 -- Whatever the mode and the content of video memory, a decoded texture
    has [TEXTURE_PAGE_HEIGHT] rows of [TEXTURE_PAGE_WIDTH] texels: each
    row reads [WidthForMode] words and writes 4, 2 or 1 texels per word. *)
Theorem decoded_texture_size conv vram pg pal mode t :
  DecodeTexture conv vram pg pal mode = Some t ->
  length t = Z.to_nat TEXTURE_PAGE_HEIGHT /\
  Forall (fun row => length row = Z.to_nat TEXTURE_PAGE_WIDTH) t /\
  TEXTURE_PAGE_WIDTH =
    WidthForMode mode * match mode with Palette4Bit => 4 | Palette8Bit => 2 | _ => 1 end.
Proof.
  intros H. destruct (DecodeTexture_dims _ _ _ _ _ _ H) as [Hlen Hrows].
  split; [done|]. split; [done|]. by destruct mode.
Qed.

Lemma decoded_texture_size_witness :
  length (DecodeTexture8 VRAMRGBA5551ToRGBA8888 Examples.vram_zero (VRAMPagePointer 3) 0)
    = 256%nat.
Proof.
  apply (decoded_texture_size VRAMRGBA5551ToRGBA8888 Examples.vram_zero 3 {| bits := 0 |}
           Palette8Bit _ eq_refl).
Defined.

(** X14 -- The word read for column [x] of line [y] of page [pg]: it is the
    word of video memory at [(PageStartX pg + x, PageStartY pg + y)] while
    that column is left of the right edge; past the edge the read
    continues in the following line, and past the last line it leaves
    the [VRAM_WIDTH * VRAM_HEIGHT] words of video memory. *)
Theorem decode_read_address pg mode x y :
  0 <= pg < NUM_PAGES -> 0 <= x < WidthForMode mode -> 0 <= y < TEXTURE_PAGE_HEIGHT ->
  let i := VRAMPagePointer pg + y * VRAM_WIDTH + x in
  let col := PageStartX pg + x in
  let line := PageStartY pg + y in
  (0 <= i) /\
  (col < VRAM_WIDTH ->
     i = line * VRAM_WIDTH + col /\ i < VRAM_WIDTH * VRAM_HEIGHT) /\
  (VRAM_WIDTH <= col ->
     i = (line + 1) * VRAM_WIDTH + (col - VRAM_WIDTH) /\
     (i < VRAM_WIDTH * VRAM_HEIGHT <-> line + 1 < VRAM_HEIGHT)) /\
  (x < VRAM_PAGE_WIDTH -> col < VRAM_WIDTH).
Proof.
  intros Hpg Hx Hy. pose proof (WidthForMode_range mode) as Hw.
  destruct (page_split pg Hpg) as (Hm & Hd & Eq).
  destruct (page_coords _ _ Hm Hd) as (_ & F2 & F3 & _).
  rewrite <- Eq in F2, F3.
  unfold VRAMPagePointer. rewrite F2, F3.
  unfold VRAM_WIDTH, VRAM_HEIGHT, TEXTURE_PAGE_HEIGHT, VRAM_PAGE_WIDTH in *.
  rewrite (wrap32_small (pg / 16 * 256 * 1024)) by lia.
  rewrite wrap32_small by lia.
  cbv zeta. lia.
Qed.

Lemma decode_read_address_witness :
  VRAMPagePointer 31 + 255 * VRAM_WIDTH + 255 = 512 * VRAM_WIDTH + 191.
Proof.
  destruct (decode_read_address 31 Direct16Bit 255 255) as (_ & _ & Hpast & _).
  - change NUM_PAGES with 32. lia.
  - change (WidthForMode Direct16Bit) with 256. lia.
  - unfold TEXTURE_PAGE_HEIGHT. lia.
  - destruct Hpast as [E _]; [|exact E].
    change (PageStartX 31) with 960. unfold VRAM_WIDTH. lia.
Defined.

End DecodeLocality.

Module BatchFacts.
Import GPU_HW LoopFacts.

Lemma land_shiftl_disjoint a b n :
  0 <= n -> 0 <= a < 2 ^ n -> Z.land a (Z.shiftl b n) = 0.
Proof.
  intros Hn Ha. apply Z.bits_inj'. intros i Hi.
  rewrite Z.land_spec, Z.bits_0.
  destruct (Z.lt_ge_cases i n) as [Hlt|Hge].
  - rewrite Z.shiftl_spec_low by done. apply andb_false_r.
  - replace a with (a mod 2 ^ n) by (apply Z.mod_small; lia).
    rewrite Z.mod_pow2_bits_high by lia. done.
Qed.

Lemma lor_shiftl_add a b n :
  0 <= n -> 0 <= a < 2 ^ n -> Z.lor a (Z.shiftl b n) = a + b * 2 ^ n.
Proof.
  intros Hn Ha. pose proof (land_shiftl_disjoint a b n Hn Ha) as Hd.
  rewrite <- Z.lxor_lor by done. rewrite <- Z.add_nocarry_lxor by done.
  by rewrite Z.shiftl_mul_pow2.
Qed.

Lemma PackUVLimits_sum min_u max_u min_v max_v :
  0 <= min_u < 256 -> 0 <= max_u < 256 -> 0 <= min_v < 256 -> 0 <= max_v < 256 ->
  PackUVLimits min_u max_u min_v max_v =
    min_u + min_v * 2 ^ 8 + max_u * 2 ^ 16 + max_v * 2 ^ 24.
Proof.
  intros H1 H2 H3 H4. unfold PackUVLimits.
  rewrite !Z.shiftl_mul_pow2 by lia.
  rewrite !wrap32_small by lia.
  rewrite <- !Z.shiftl_mul_pow2 by lia.
  rewrite (lor_shiftl_add min_u min_v 8) by lia.
  rewrite (lor_shiftl_add _ max_u 16) by lia.
  rewrite (lor_shiftl_add _ max_v 24) by lia.
  rewrite !Z.shiftl_mul_pow2 by lia. done.
Qed.

(** X17 -- [PackUVLimits] lays four limits below 256 out as the four bytes of a
    32-bit word, from the low end: [min_u], [min_v], [max_u], [max_v];
    each is recovered by a shift and a mask. *)
Theorem PackUVLimits_bytes min_u max_u min_v max_v :
  0 <= min_u < 256 -> 0 <= max_u < 256 -> 0 <= min_v < 256 -> 0 <= max_v < 256 ->
  0 <= PackUVLimits min_u max_u min_v max_v < 2 ^ 32 /\
  Z.land (PackUVLimits min_u max_u min_v max_v) 255 = min_u /\
  Z.land (Z.shiftr (PackUVLimits min_u max_u min_v max_v) 8) 255 = min_v /\
  Z.land (Z.shiftr (PackUVLimits min_u max_u min_v max_v) 16) 255 = max_u /\
  Z.shiftr (PackUVLimits min_u max_u min_v max_v) 24 = max_v.
Proof.
  intros H1 H2 H3 H4. rewrite PackUVLimits_sum by done.
  change 255 with (Z.ones 8). rewrite !Z.land_ones by lia.
  rewrite !Z.shiftr_div_pow2 by lia.
  change (2 ^ 8) with 256. change (2 ^ 16) with 65536. change (2 ^ 24) with 16777216.
  change (2 ^ 32) with 4294967296.
  split; [lia|].
  repeat split.
  - symmetry. apply (Z.mod_unique_pos _ _ (min_v + max_u * 256 + max_v * 65536)); lia.
  - replace (min_u + min_v * 256 + max_u * 65536 + max_v * 16777216)
      with (min_u + (min_v + max_u * 256 + max_v * 65536) * 256) by lia.
    rewrite Z.div_add by lia. rewrite (Z.div_small min_u) by lia. rewrite Z.add_0_l.
    symmetry. apply (Z.mod_unique_pos _ _ (max_u + max_v * 256)); lia.
  - replace (min_u + min_v * 256 + max_u * 65536 + max_v * 16777216)
      with (min_u + min_v * 256 + (max_u + max_v * 256) * 65536) by lia.
    rewrite Z.div_add by lia. rewrite (Z.div_small (min_u + min_v * 256)) by lia.
    rewrite Z.add_0_l.
    symmetry. apply (Z.mod_unique_pos _ _ max_v); lia.
  - replace (min_u + min_v * 256 + max_u * 65536 + max_v * 16777216)
      with (min_u + min_v * 256 + max_u * 65536 + max_v * 16777216) by lia.
    rewrite Z.div_add by lia.
    rewrite (Z.div_small (min_u + min_v * 256 + max_u * 65536)) by lia. lia.
Qed.

Lemma PackUVLimits_bytes_witness :
  Z.land (Z.shiftr (PackUVLimits 1 255 2 254) 16) 255 = 255.
Proof.
  destruct (PackUVLimits_bytes 1 255 2 254) as (_ & _ & _ & H & _); [lia..|exact H].
Defined.

(** X18 -- [Set] with a packed texture coordinate splits the 16-bit value into
    its low byte [u] and its high byte [v] without loss, and stores the
    other arguments unchanged. *)
Theorem Set_packed_splits_texcoord x y z w color texpage packed uv_limits :
  0 <= packed < 2 ^ 16 ->
  let bv := BatchVertex_Set_packed x y z w color texpage packed uv_limits in
  0 <= bv_u bv < 256 /\ 0 <= bv_v bv < 256 /\
  bv_u bv + 256 * bv_v bv = packed /\
  Z.lor (bv_u bv) (Z.shiftl (bv_v bv) 8) = packed /\
  bv = BatchVertex_Set x y z w color texpage (packed mod 256) (packed / 256) uv_limits.
Proof.
  intros Hp. unfold BatchVertex_Set_packed, BatchVertex_Set. cbn [bv_u bv_v].
  change 255 with (Z.ones 8). rewrite Z.land_ones by lia.
  rewrite Z.shiftr_div_pow2 by lia. change (2 ^ 8) with 256. change (2 ^ 16) with 65536 in Hp.
  pose proof (Z.mod_pos_bound packed 256 ltac:(lia)) as Hm.
  assert (0 <= packed / 256 < 256) as Hd
    by (split; [apply Z.div_pos; lia|apply Z.div_lt_upper_bound; lia]).
  unfold wrap16. rewrite (Z.mod_small (packed mod 256)) by lia.
  rewrite (Z.mod_small (packed / 256)) by lia.
  pose proof (Z.div_mod packed 256 ltac:(lia)) as Hdm.
  split; [done|]. split; [done|]. split; [lia|]. split; [|done].
  rewrite lor_shiftl_add by (change (2 ^ 8) with 256; lia). change (2 ^ 8) with 256. lia.
Qed.

Lemma Set_packed_splits_texcoord_witness :
  bv_u (BatchVertex_Set_packed f32_zero f32_zero f32_zero f32_one 0 0 513 0) +
  256 * bv_v (BatchVertex_Set_packed f32_zero f32_zero f32_zero f32_one 0 0 513 0) = 513.
Proof.
  destruct (Set_packed_splits_texcoord f32_zero f32_zero f32_zero f32_one 0 0 513 0)
    as (_ & _ & H & _); [lia|exact H].
Defined.

(** *** The vertex buffer *)

Lemma AddVertex_fold_current vs : forall b,
  m_batch_current_vertex_ptr (foldl (fun b v => AddVertex v b) b vs) =
    m_batch_current_vertex_ptr b + Z.of_nat (length vs) /\
  m_batch_start_vertex_ptr (foldl (fun b v => AddVertex v b) b vs) =
    m_batch_start_vertex_ptr b /\
  m_batch_end_vertex_ptr (foldl (fun b v => AddVertex v b) b vs) =
    m_batch_end_vertex_ptr b.
Proof.
  induction vs as [|v vs IH]; intros b; cbn [foldl length].
  - split; [lia|done].
  - destruct (IH (AddVertex v b)) as (-> & -> & ->). simpl. split; [lia|done].
Qed.

Lemma AddVertex_fold_mapped vs : forall b i,
  mapped (foldl (fun b v => AddVertex v b) b vs) i =
    if decide (m_batch_current_vertex_ptr b <= i
               < m_batch_current_vertex_ptr b + Z.of_nat (length vs))
    then vs !! Z.to_nat (i - m_batch_current_vertex_ptr b)
    else mapped b i.
Proof.
  induction vs as [|v vs IH]; intros b i; cbn [foldl length].
  - rewrite decide_False by lia. done.
  - rewrite IH. simpl.
    destruct (Z.eqb_spec i (m_batch_current_vertex_ptr b)) as [->|Hne].
    + rewrite decide_False by lia. rewrite decide_True by lia.
      by rewrite Z.sub_diag.
    + repeat case_decide; try lia; [|done].
      replace (Z.to_nat (i - m_batch_current_vertex_ptr b))
        with (S (Z.to_nat (i - (m_batch_current_vertex_ptr b + 1)))) by lia.
      done.
Qed.

(** X19 -- While the current pointer is between the start and the end of the
    buffer, count and free space add up to the capacity and the batch is
    flushed exactly when the count is zero; adding vertices that fit
    raises the count and lowers the space by their number, stores them in
    order from the old current position and leaves the rest of the buffer
    alone. *)
Theorem vertex_buffer_accounting b vs :
  m_batch_start_vertex_ptr b <= m_batch_current_vertex_ptr b <= m_batch_end_vertex_ptr b ->
  m_batch_end_vertex_ptr b - m_batch_start_vertex_ptr b < 2 ^ 32 ->
  Z.of_nat (length vs) <= GetBatchVertexSpace b ->
  let b' := foldl (fun b v => AddVertex v b) b vs in
  GetBatchVertexCount b + GetBatchVertexSpace b =
    m_batch_end_vertex_ptr b - m_batch_start_vertex_ptr b /\
  (IsFlushed b = true <-> GetBatchVertexCount b = 0) /\
  GetBatchVertexCount b' = GetBatchVertexCount b + Z.of_nat (length vs) /\
  GetBatchVertexSpace b' = GetBatchVertexSpace b - Z.of_nat (length vs) /\
  (IsFlushed b' = true <-> IsFlushed b = true /\ vs = []) /\
  (forall k v, vs !! k = Some v ->
     mapped b' (m_batch_current_vertex_ptr b + Z.of_nat k) = Some v) /\
  (forall i, i < m_batch_current_vertex_ptr b -> mapped b' i = mapped b i).
Proof.
  intros Hptr Hcap. unfold GetBatchVertexSpace, GetBatchVertexCount, IsFlushed.
  rewrite !wrap32_small by lia. intros Hfit. cbv zeta.
  destruct (AddVertex_fold_current vs b) as (-> & -> & ->).
  rewrite !wrap32_small by lia.
  split; [lia|]. split; [rewrite Z.eqb_eq; lia|]. split; [lia|]. split; [lia|].
  split; [|split].
  - rewrite !Z.eqb_eq. split.
    + intros H. split; [lia|]. apply nil_length_inv. lia.
    + intros [H ->]. simpl. lia.
  - intros k v Hk. rewrite AddVertex_fold_mapped.
    pose proof (lookup_lt_Some _ _ _ Hk).
    rewrite decide_True by lia.
    replace (Z.to_nat (m_batch_current_vertex_ptr b + Z.of_nat k
                       - m_batch_current_vertex_ptr b)) with k by lia.
    done.
  - intros i Hi. rewrite AddVertex_fold_mapped. by rewrite decide_False by lia.
Qed.

Lemma vertex_buffer_accounting_witness :
  GetBatchVertexCount
    (AddVertex Examples.vertex_b (AddVertex Examples.vertex_a Examples.buffer_of_four)) = 2 /\
  GetBatchVertexSpace
    (AddVertex Examples.vertex_b (AddVertex Examples.vertex_a Examples.buffer_of_four)) = 2.
Proof.
  destruct (vertex_buffer_accounting Examples.buffer_of_four
              [Examples.vertex_a; Examples.vertex_b])
    as (_ & _ & Hc & Hs & _).
  - simpl. lia.
  - simpl. lia.
  - change (2 <= 4). lia.
  - split; [exact Hc|exact Hs].
Defined.

(** *** Rendering passes and depth *)

(** X20 -- Two passes are only ever asked for a textured batch whose own render
    mode is [TransparentAndOpaque]; on a device with dual-source blend
    they are asked for exactly the textured batches that subtract the
    foreground from the background. *)
Theorem two_pass_only_when_blending (g : GPU_HW.t) :
  (NeedsTwoPassRendering g = true ->
     texture_mode (m_batch g) <> Disabled /\
     GetRenderMode (m_batch g) = TransparentAndOpaque) /\
  (m_supports_dual_source_blend g = true ->
     (NeedsTwoPassRendering g = true <->
      texture_mode (m_batch g) <> Disabled /\
      transparency_mode (m_batch g) = BackgroundMinusForeground)).
Proof.
  unfold NeedsTwoPassRendering, GetRenderMode. split.
  - intros [Ht Hr]%andb_prop. apply bool_decide_eq_true_1 in Ht. split; [done|].
    apply orb_prop in Hr as [Hr|[_ Hr]%andb_prop].
    + apply bool_decide_eq_true_1 in Hr. rewrite Hr. done.
    + apply bool_decide_eq_true_1 in Hr. by rewrite decide_False.
  - intros ->. simpl. rewrite orb_false_r. rewrite andb_true_iff.
    by rewrite !bool_decide_eq_true.
Qed.

(** X21 -- For every counter value up to [MAX_BATCH_VERTEX_COUNTER_IDS] the
    normalized depth is strictly above zero; one step further it is
    exactly zero. *)
Theorem depth_positive_up_to_limit (g : GPU_HW.t) :
  0 <= m_current_depth g <= MAX_BATCH_VERTEX_COUNTER_IDS ->
  SpecFloat.SFltb f32_zero (GetCurrentNormalizedVertexDepth g) = true /\
  (forall g', m_current_depth g' = MAX_BATCH_VERTEX_COUNTER_IDS + 1 ->
     GetCurrentNormalizedVertexDepth g' = f32_zero).
Proof.
  unfold MAX_BATCH_VERTEX_COUNTER_IDS. intros Hc. split.
  - change (GetCurrentNormalizedVertexDepth g) with (Depth.depth_at (m_current_depth g)).
    set (c := m_current_depth g) in *.
    destruct (DepthTheorems.checked_all c ltac:(lia)) as (_ & v & Hv & _).
    destruct (DepthTheorems.decreasing_from c (Z.to_nat (65535 - c - 1))
                ltac:(lia) ltac:(lia) v Hv) as (Hlt & _).
    replace (c + Z.of_nat (S (Z.to_nat (65535 - c - 1)))) with 65535 in Hlt by lia.
    assert (Depth.depth_at 65535 = f32_zero) as E by (vm_compute; reflexivity).
    by rewrite E in Hlt.
  - intros g' Hg'. unfold GetCurrentNormalizedVertexDepth. rewrite Hg'.
    vm_compute. reflexivity.
Qed.

Lemma depth_positive_up_to_limit_witness :
  SpecFloat.SFltb f32_zero
    (GetCurrentNormalizedVertexDepth Examples.textured_subtractive_last) = true.
Proof.
  apply (depth_positive_up_to_limit Examples.textured_subtractive_last).
  change (0 <= 65534 <= 65534). lia.
Defined.

End BatchFacts.

Module CacheAccounting.
Import GPUTextureCache Trace Rep PtrFacts UnlinkFacts InvalidateSpec CreateSpec LookupSpec
       Reach CachedFacts.

(** *** Induction over the reachable states *)

Lemma LookupSource_cases L s fuel fetched vram key r s' :
  inv L s -> LookupSource fuel fetched vram key s = Some (r, s') ->
  (exists id e, r = Some id /\ s' = s /\ meta s !! id = Some e /\ e_key e = key) \/
  (fetched = false /\ r = None /\ s' = s) \/
  (exists ps, fetched = true /\ page_slot (key_page key) = Some ps /\
     key_mode key <> Disabled /\
     (forall id e, meta s !! id = Some e -> e_key e <> key) /\
     CreateSource true vram key s = Some (r, s')).
Proof.
  intros Hinv Hl.
  destruct (LookupSource_Some _ _ _ _ _ _ _ _ Hinv Hl) as [Hhit|[Hfresh Hc]]; [by left|].
  right. destruct (CreateSource_Some_mode _ _ _ _ _ _ Hc) as [(-> & -> & ->)|[-> Hmode]];
    [by left|right].
  unfold LookupSource in Hl.
  destruct (page_slot (key_page key)) as [ps|] eqn:Hps; [|done].
  exists ps. done.
Qed.

Lemma reachable_ind fuel (P : State -> Prop) :
  P init ->
  (forall s pn s', wf s -> P s -> InvalidatePage fuel pn s = Some s' -> P s') ->
  (forall s fetched vram key r s', wf s -> P s ->
     LookupSource fuel fetched vram key s = Some (r, s') -> P s') ->
  forall ops s, run fuel ops init = Some s -> P s.
Proof.
  intros Hinit Hinval Hlook.
  assert (forall s pn s', wf s /\ P s -> InvalidatePage fuel pn s = Some s' -> wf s' /\ P s')
    as Hboth.
  { intros s pn s' [Hwf HP] Hs'. split; [by eapply InvalidatePage_wf|by eapply Hinval]. }
  assert (forall c i s s', wf s /\ P s -> Clear_loop fuel c i s = Some s' -> wf s' /\ P s')
    as Hclear.
  { induction c as [|c IH]; intros i s s' HP; simpl.
    - by intros [= <-].
    - destruct (InvalidatePage fuel i s) as [s1|] eqn:E; simpl; [|done].
      apply IH. by eapply Hboth. }
  assert (forall op s s', wf s /\ P s -> step fuel op s = Some s' -> wf s' /\ P s') as Hstep.
  { intros op s s' [Hwf HP]. destruct op as [fetched vram key|pn|x y w h|]; simpl.
    - destruct (LookupSource fuel fetched vram key s) as [[r s1]|] eqn:E; simpl; [|done].
      intros [= <-]. split; [by eapply LookupSource_wf|by eapply Hlook].
    - by apply Hboth.
    - unfold InvalidatePages.
      apply (LoopPages_preserves_all (fun st => wf st /\ P st)); [|done].
      intros q a b. apply Hboth.
    - unfold Clear. by apply Hclear. }
  assert (forall ops s s', wf s /\ P s -> run fuel ops s = Some s' -> P s') as Hrun.
  { induction ops as [|op ops IH]; intros s s' HP; simpl.
    - intros [= <-]. by destruct HP.
    - destruct (step fuel op s) as [s1|] eqn:E; simpl; [|done].
      apply IH. by eapply Hstep. }
  intros ops s. apply Hrun. split; [apply wf_init|done].
Qed.

(** A run of the example operations that does not fault ends in the
    state [after] names. *)
Lemma run_after ops :
  bool_decide (is_Some (run 4 ops init)) = true ->
  run 4 ops init = Some (Examples.after ops).
Proof.
  intros H%bool_decide_eq_true_1. unfold Examples.after.
  by destruct (run 4 ops init).
Qed.

(** *** Sizes *)

Lemma size_remove {A} (ids : list nat) : forall (m m' : gmap nat A),
  NoDup ids -> (forall id, id ∈ ids -> is_Some (m !! id)) ->
  (forall id, m' !! id = if decide (id ∈ ids) then None else m !! id) ->
  (size m' + length ids = size m)%nat.
Proof.
  induction ids as [|i ids IH]; intros m m' Hnd Hin Hm'.
  - simpl. rewrite Nat.add_0_r. f_equal. apply map_eq. intros id.
    rewrite Hm'. rewrite decide_False; [done|]. by intros ?%elem_of_nil.
  - apply NoDup_cons in Hnd as [Hni Hnd].
    assert (size m' + length ids = size (delete i m))%nat as E.
    { apply IH; [done| |].
      + intros id Hid. rewrite lookup_delete_ne by (intros ->; done).
        apply Hin. by right.
      + intros id. rewrite Hm'. destruct (decide (id = i)) as [->|Hne].
        * rewrite decide_True by (by left). rewrite lookup_delete_eq. by case_decide.
        * rewrite lookup_delete_ne by done.
          destruct (decide (id ∈ ids)) as [Hid|Hid].
          -- rewrite decide_True; [done|]. by right.
          -- rewrite decide_False; [done|]. intros [->|?]%elem_of_cons; done. }
    rewrite map_size_delete_Some in E by (apply Hin; by left). simpl.
    assert (size m <> 0)%nat; [|lia].
    apply map_size_ne_0_lookup_2 with i. apply Hin. by left.
Qed.

Lemma invalidated_size L ps s s' :
  inv L s -> invalidated L ps s s' ->
  (size (heap s') + length (L ps) = size (heap s))%nat.
Proof.
  intros (Hok & _) (_ & M' & _).
  rewrite <- !(map_size_fmap erase_src). fold (meta s') (meta s).
  rewrite <- (length_fmap fst (L ps)).
  apply size_remove; [apply (po_nodup _ _ Hok)| |exact M'].
  intros id (m & -> & Hm)%list_elem_of_fmap.
  destruct (po_node _ _ Hok _ _ Hm) as (e & He & _). eauto.
Qed.

Lemma refs_elem (l : list (nat * nat)) p :
  Some p ∈ (fun n : nat * nat => Some n.1) <$> l <-> p ∈ l.*1.
Proof.
  rewrite !list_elem_of_fmap. split.
  - intros (m & [= ->] & Hm). eauto.
  - intros (m & -> & Hm). eauto.
Qed.

Lemma refs_filter (ids : list (nat * nat)) (l : list (nat * nat)) :
  (fun n : nat * nat => Some n.1) <$> filter (fun m => m.1 ∉ ids.*1) l =
  filter (fun r => r ∉ (fun n : nat * nat => Some n.1) <$> ids)
         ((fun n : nat * nat => Some n.1) <$> l).
Proof.
  induction l as [|m l IH]; [done|].
  rewrite fmap_cons. destruct (decide (m.1 ∈ ids.*1)) as [Hin|Hin].
  - rewrite filter_cons_False by (intros H; by apply H).
    rewrite filter_cons_False; [done|]. intros H. apply H. by apply refs_elem.
  - rewrite filter_cons_True by done. rewrite fmap_cons.
    rewrite filter_cons_True; [by rewrite IH|]. by rewrite refs_elem.
Qed.

End CacheAccounting.

Module CacheProperties.
Import GPUTextureCache Trace Rep PtrFacts UnlinkFacts InvalidateSpec CreateSpec LookupSpec
       Reach CachedFacts CacheAccounting.

Lemma created_size L s vram key ps r s' :
  inv L s -> page_slot (key_page key) = Some ps -> key_mode key <> Disabled ->
  (forall id e, meta s !! id = Some e -> e_key e <> key) ->
  CreateSource true vram key s = Some (r, s') ->
  size (heap s') = S (size (heap s)) /\ next_addr s' = S (next_addr s) /\
  recycled s' = recycled s.
Proof.
  intros Hinv Hps Hmode Hfresh Hc.
  destruct (CreateSource_spec L s vram key ps Hinv Hps Hmode Hfresh)
    as (s1 & L1 & Hc1 & _ & N1 & R1 & M1 & (e' & He' & _)).
  rewrite Hc in Hc1. injection Hc1 as -> <-.
  split; [|done].
  rewrite <- !(map_size_fmap erase_src). fold (meta s') (meta s).
  assert (meta s' = <[next_addr s := e']> (meta s)) as ->.
  { apply map_eq. intros a. destruct (decide (a = next_addr s)) as [->|Hne].
    - by rewrite lookup_insert_eq.
    - rewrite lookup_insert_ne by done. by apply M1. }
  apply map_size_insert_None. unfold meta. rewrite lookup_fmap.
  by rewrite (inv_fresh_addr _ _ Hinv).
Qed.

(** X9 -- Every texture the cache ever took from the device is either held by
    a live source or was given back with [RecycleTexture]: in every state
    reached from the empty cache the number of live sources plus the
    number of recycled textures is the number of sources created. *)
Theorem no_texture_leak fuel ops s :
  run fuel ops init = Some s ->
  (size (heap s) + length (recycled s))%nat = next_addr s.
Proof.
  revert ops s.
  apply (reachable_ind fuel
           (fun s => (size (heap s) + length (recycled s))%nat = next_addr s)).
  - done.
  - intros s pn s' [L Hinv] HP Hs'.
    destruct (InvalidatePage_Some _ _ _ _ _ Hinv Hs') as (ps & Hps & Hpost).
    pose proof (invalidated_size _ _ _ _ Hinv Hpost) as Hsz.
    destruct Hpost as (_ & _ & N' & R' & _). lia.
  - intros s fetched vram key r s' [L Hinv] HP Hl.
    destruct (LookupSource_cases _ _ _ _ _ _ _ _ Hinv Hl)
      as [(id & e & _ & -> & _)|[(_ & _ & ->)|(ps & _ & Hps & Hmode & Hfresh & Hc)]];
      [done|done|].
    destruct (created_size _ _ _ _ _ _ _ Hinv Hps Hmode Hfresh Hc) as (-> & -> & ->). lia.
Qed.

Lemma no_texture_leak_witness :
  (size (heap (Examples.after (OpLookup true Examples.vram_zero Examples.key_p0_4bit :: Examples.other_ops)))
   + length (recycled (Examples.after (OpLookup true Examples.vram_zero Examples.key_p0_4bit :: Examples.other_ops))))%nat
  = next_addr (Examples.after (OpLookup true Examples.vram_zero Examples.key_p0_4bit :: Examples.other_ops)).
Proof.
  apply (no_texture_leak 4
           (OpLookup true Examples.vram_zero Examples.key_p0_4bit :: Examples.other_ops)).
  apply run_after. vm_compute. reflexivity.
Defined.

(** X5 -- [InvalidatePage] frees exactly the sources on the page's list, gives
    one texture back to the device for each, and leaves every other
    source as it was, with its key, its texture and its page references;
    the other pages' lists keep their order, without the freed sources. *)
Theorem InvalidatePage_keeps_rest fuel ops s pn :
  run fuel ops init = Some s -> 0 <= pn < NUM_PAGES -> (size (heap s) <= fuel)%nat ->
  exists s' refs,
    sources_on_page fuel (Z.to_nat pn) s = Some refs /\
    InvalidatePage fuel pn s = Some s' /\
    (size (heap s') + length refs = size (heap s))%nat /\
    length (recycled s') = (length (recycled s) + length refs)%nat /\
    next_addr s' = next_addr s /\
    (forall p o, Some p ∉ refs -> heap s !! p = Some o ->
       exists o', heap s' !! p = Some o' /\ src_key o' = src_key o /\
         src_texture o' = src_texture o /\
         src_num_page_refs o' = src_num_page_refs o) /\
    (forall q l, (q < Z.to_nat NUM_PAGES)%nat ->
       sources_on_page fuel q s = Some l ->
       sources_on_page fuel q s' = Some (filter (fun r => r ∉ refs) l)).
Proof.
  intros Hrun Hpn Hfuel. destruct (reachable_wf _ _ _ Hrun) as [L Hinv].
  pose proof (page_slot_Some _ Hpn) as Hslot.
  destruct (InvalidatePage_spec L s fuel pn _ Hinv Hslot) as [Ha _].
  destruct Ha as (s' & Hs' & Hpost).
  { pose proof (inv_length L s (Z.to_nat pn) Hinv). lia. }
  pose proof (invalidated_size _ _ _ _ Hinv Hpost) as Hsz.
  pose proof (heap_size_invalidated _ _ _ _ Hpost) as Hle.
  destruct Hpost as (Hinv' & M' & N' & R' & Hnull).
  exists s', ((fun n : nat * nat => Some n.1) <$> L (Z.to_nat pn)).
  rewrite length_fmap.
  split; [apply sources_on_page_inv; [done| |done]|].
  { by destruct (page_slot_lt _ _ Hslot). }
  split; [done|]. split; [done|]. split; [done|]. split; [done|]. split.
  - intros p o Hp Ho. specialize (M' p).
    rewrite decide_False in M' by (by rewrite <- refs_elem).
    assert (meta s !! p = Some (erase_src o)) as Hm by (apply meta_lookup; eauto).
    rewrite Hm in M'. apply meta_lookup in M' as (o' & Ho' & E).
    exists o'. split; [done|]. by injection E.
  - intros q l Hq Hl.
    rewrite (sources_on_page_inv L s fuel q Hinv Hq Hfuel) in Hl. injection Hl as <-.
    rewrite (sources_on_page_inv _ s' fuel q Hinv' Hq) by lia.
    by rewrite refs_filter.
Qed.

Lemma InvalidatePage_keeps_rest_witness :
  exists s', InvalidatePage 4 1 (Examples.after (OpLookup true Examples.vram_zero Examples.key_p0_4bit :: Examples.other_ops)) = Some s' /\
    (size (heap s') + 1 = size (heap (Examples.after (OpLookup true Examples.vram_zero Examples.key_p0_4bit :: Examples.other_ops))))%nat.
Proof.
  destruct (InvalidatePage_keeps_rest 4
              (OpLookup true Examples.vram_zero Examples.key_p0_4bit :: Examples.other_ops)
              (Examples.after (OpLookup true Examples.vram_zero Examples.key_p0_4bit :: Examples.other_ops)) 1)
    as (s' & refs & Hrefs & Hs' & Hsz & _).
  - apply run_after. vm_compute. reflexivity.
  - change NUM_PAGES with 32. lia.
  - vm_compute. lia.
  - exists s'. split; [exact Hs'|].
    assert (length refs = 1%nat) as <-; [|exact Hsz].
    assert (length <$> sources_on_page 4 (Z.to_nat 1) (Examples.after (OpLookup true Examples.vram_zero Examples.key_p0_4bit :: Examples.other_ops))
            = Some 1%nat) as E by (vm_compute; reflexivity).
    rewrite Hrefs in E. by injection E.
Defined.

(** *** [Clear] *)

Lemma filter_none {A} (P : A -> Prop) `{!forall x, Decision (P x)} (l : list A) :
  (forall x, x ∈ l -> ~ P x) -> filter P l = [].
Proof.
  induction l as [|x l IH]; intros Hno; [done|].
  rewrite filter_cons_False by (apply Hno; by left).
  apply IH. intros y Hy. apply Hno. by right.
Qed.

Lemma filter_own_nil (l : list (nat * nat)) :
  filter (fun m : nat * nat => m.1 ∉ l.*1) l = [].
Proof.
  apply filter_none. intros m Hm Hn. apply Hn. apply list_elem_of_fmap. eauto.
Qed.

Lemma inv_nil_empty L s :
  inv L s -> (forall p, L p = []) ->
  heap s = ∅ /\ m_page_sources s = replicate (Z.to_nat NUM_PAGES) null_list.
Proof.
  intros Hinv Hnil. split.
  - apply map_empty. intros id. destruct (heap s !! id) as [o|] eqn:Ho; [|done].
    assert (meta s !! id = Some (erase_src o)) as Hm by (apply meta_lookup; eauto).
    destruct (inv_on_key_page _ _ _ _ Hinv Hm) as (ps & _ & Hin).
    rewrite Hnil in Hin. by apply elem_of_nil in Hin.
  - apply list_eq. intros i.
    destruct (decide (i < Z.to_nat NUM_PAGES)%nat) as [Hi|Hi].
    + rewrite lookup_replicate_2 by done.
      destruct (inv_slot _ _ _ Hinv Hi) as (sl & -> & Hseg).
      rewrite Hnil in Hseg. apply seg_nil_inv in Hseg as [Ht Hh].
      destruct sl as [hd tl]. simpl in *. by subst.
    + destruct Hinv as (Hok & _).
      rewrite lookup_ge_None_2 by (rewrite (po_len _ _ Hok); lia).
      symmetry. apply lookup_replicate_None. lia.
Qed.

Lemma Clear_loop_spec fuel c : forall i L s,
  inv L s -> (size (heap s) <= fuel)%nat ->
  Z.of_nat c + i = NUM_PAGES -> 0 <= i ->
  (forall p, (p < Z.to_nat i)%nat -> L p = []) ->
  exists s' L',
    Clear_loop fuel c i s = Some s' /\ inv L' s' /\ (forall p, L' p = []) /\
    next_addr s' = next_addr s /\
    (size (heap s') + length (recycled s') = size (heap s) + length (recycled s))%nat.
Proof.
  induction c as [|c IH]; intros i L s Hinv Hfuel Hci Hi Hnil.
  - exists s, L. split; [done|]. split; [done|]. split; [|done].
    intros p. destruct (decide (p < Z.to_nat NUM_PAGES)%nat) as [Hp|Hp].
    + apply Hnil. lia.
    + destruct Hinv as (Hok & _). apply (po_out _ _ Hok). lia.
  - cbn [Clear_loop].
    assert (0 <= i < NUM_PAGES) as Hrange by lia.
    pose proof (page_slot_Some _ Hrange) as Hslot.
    destruct (InvalidatePage_spec L s fuel i _ Hinv Hslot) as [Ha _].
    destruct Ha as (s1 & Hs1 & Hpost).
    { pose proof (inv_length L s (Z.to_nat i) Hinv). lia. }
    pose proof (invalidated_size _ _ _ _ Hinv Hpost) as Hsz.
    pose proof (heap_size_invalidated _ _ _ _ Hpost) as Hle.
    destruct Hpost as (Hinv1 & _ & N1 & R1 & _).
    rewrite Hs1. cbn [mbind option_bind].
    destruct (IH (i + 1) _ s1 Hinv1) as (s' & L' & Hs' & Hinv' & Hnil' & N' & Hacc);
      [lia|lia|lia| |].
    { intros p Hp. destruct (decide (p = Z.to_nat i)) as [->|Hne].
      - apply filter_own_nil.
      - rewrite (Hnil p) by lia. done. }
    exists s', L'. split; [done|]. split; [done|]. split; [done|].
    split; [congruence|lia].
Qed.

(** X8 -- [Clear], which the destructor runs, frees every source: from any
    reachable state it leaves no source alive and every page list with a
    null head and tail, as in a new cache, and has given the texture of
    every source that was alive back to the device. *)
Theorem Clear_empties fuel ops s :
  run fuel ops init = Some s -> (size (heap s) <= fuel)%nat ->
  exists s',
    Clear fuel s = Some s' /\
    heap s' = ∅ /\
    m_page_sources s' = m_page_sources init /\
    (forall pn, 0 <= pn < NUM_PAGES -> sources_on_page fuel (Z.to_nat pn) s' = Some []) /\
    next_addr s' = next_addr s /\
    length (recycled s') = (length (recycled s) + size (heap s))%nat.
Proof.
  intros Hrun Hfuel. destruct (reachable_wf _ _ _ Hrun) as [L Hinv].
  assert (NUM_PAGES = 32) as HN by reflexivity.
  destruct (Clear_loop_spec fuel (Z.to_nat NUM_PAGES) 0 L s Hinv Hfuel)
    as (s' & L' & Hs' & Hinv' & Hnil & N' & Hacc); [lia|lia| |].
  { intros p Hp. simpl in Hp. lia. }
  destruct (inv_nil_empty _ _ Hinv' Hnil) as [Hheap Hlists].
  exists s'. split; [done|]. split; [done|]. split; [done|]. split; [|split; [done|]].
  - intros pn Hpn. unfold sources_on_page. rewrite Hlists.
    rewrite lookup_replicate_2 by lia. simpl. by destruct fuel.
  - rewrite Hheap, map_size_empty in Hacc. lia.
Qed.

Lemma Clear_empties_witness :
  exists s', Clear 4 (Examples.after (OpLookup true Examples.vram_zero Examples.key_p0_4bit :: Examples.other_ops)) = Some s' /\ heap s' = ∅.
Proof.
  destruct (Clear_empties 4
              (OpLookup true Examples.vram_zero Examples.key_p0_4bit :: Examples.other_ops)
              (Examples.after (OpLookup true Examples.vram_zero Examples.key_p0_4bit :: Examples.other_ops))) as (s' & Hs' & Hheap & _).
  - apply run_after. vm_compute. reflexivity.
  - vm_compute. lia.
  - exists s'. split; [exact Hs'|exact Hheap].
Defined.

End CacheProperties.

Module RectangleFacts.
Import GPUTextureCache Trace Spec Rep InvalidateSpec CreateSpec Reach LoopFacts Geometry
       PageGeometry CacheAccounting.

Lemma LoopPages_x_InvalidatePage fuel c pn y s :
  wf s ->
  LoopPages_x (InvalidatePage fuel) (S c) pn y s = InvalidatePage fuel pn s.
Proof.
  intros [L Hinv]. destruct (InvalidatePage fuel pn s) as [s1|] eqn:E.
  - apply LoopPages_x_idem; [done|].
    destruct (InvalidatePage_Some _ _ _ _ _ Hinv E) as (ps & Hps & Hpost).
    destruct Hpost as (_ & _ & _ & _ & Hnull).
    by eapply Claims.InvalidatePage_empty.
  - cbn [LoopPages_x]. by rewrite E.
Qed.

Lemma LoopPages_y_run fuel cx cy : forall pn s,
  wf s ->
  LoopPages_y (InvalidatePage fuel) cy (S cx) pn s =
    run fuel (OpInvalidatePage <$> row_pages cy pn) s.
Proof.
  induction cy as [|cy IH]; intros pn s Hwf; [done|].
  cbn [LoopPages_y row_pages]. rewrite fmap_cons. cbn [run step].
  rewrite LoopPages_x_InvalidatePage by done.
  destruct (InvalidatePage fuel pn s) as [s1|] eqn:E; [|done].
  cbn [mbind option_bind]. apply IH. by eapply InvalidatePage_wf.
Qed.

Lemma row_pages_column sx n : forall sy,
  0 <= sx < 16 -> 0 <= sy -> sy + Z.of_nat n <= 2 ->
  row_pages n (PageIndex sx sy) = PageIndex sx <$> seqZ sy (Z.of_nat n).
Proof.
  induction n as [|n IH]; intros sy Hsx Hsy Hn; [done|].
  cbn [row_pages]. rewrite seqZ_cons by lia. rewrite fmap_cons. f_equal.
  replace (Z.pred (Z.of_nat (S n))) with (Z.of_nat n) by lia.
  destruct n as [|n]; [done|].
  rewrite <- IH by lia. f_equal.
  destruct (page_coords sx sy) as (-> & _); [lia|lia|].
  destruct (page_coords sx (Z.succ sy)) as (-> & _); [lia|lia|].
  unfold VRAM_PAGES_WIDE, VRAM_WIDTH, VRAM_PAGE_WIDTH. change (1024 / 64) with 16.
  rewrite wrap32_small by lia. lia.
Qed.

Lemma valid_rect_facts x y w h :
  valid_rect x y w h = true ->
  0 < w /\ 0 < h /\ 0 <= x /\ 0 <= y /\ x + w <= 1024 /\ y + h <= 512.
Proof.
  unfold valid_rect, VRAM_WIDTH, VRAM_HEIGHT. intros H.
  repeat (apply andb_prop in H as [H ?]).
  repeat match goal with
         | H : (_ <? _) = true |- _ => apply Z.ltb_lt in H
         | H : (_ <=? _) = true |- _ => apply Z.leb_le in H
         end.
  lia.
Qed.

Lemma run_InvalidatePage_total fuel pages : forall s,
  wf s -> (size (heap s) <= fuel)%nat ->
  (forall q, q ∈ pages -> 0 <= q < NUM_PAGES) ->
  exists s', run fuel (OpInvalidatePage <$> pages) s = Some s' /\ wf s' /\
             (size (heap s') <= size (heap s))%nat.
Proof.
  induction pages as [|pn pages IH]; intros s Hwf Hfuel Hin.
  - exists s. done.
  - destruct Hwf as [L Hinv].
    pose proof (page_slot_Some pn ltac:(apply Hin; by left)) as Hslot.
    destruct (InvalidatePage_spec L s fuel pn _ Hinv Hslot) as [Ha _].
    destruct Ha as (s1 & Hs1 & Hpost).
    { pose proof (LookupSpec.inv_length L s (Z.to_nat pn) Hinv). lia. }
    pose proof (CachedFacts.heap_size_invalidated _ _ _ _ Hpost) as Hle.
    destruct (IH s1) as (s' & Hs' & Hwf' & Hle').
    + eapply InvalidatePage_wf; [by exists L|done].
    + lia.
    + intros q Hq. apply Hin. by right.
    + exists s'. rewrite fmap_cons. cbn [run step]. rewrite Hs1. cbn [mbind option_bind].
      split; [done|]. split; [done|lia].
Qed.

(** X7 -- As the code has it, [InvalidatePages] invalidates one page for every
    page row the rectangle touches: the page of the rectangle's first
    column.  Every callback of a row receives that same page number, so
    the pages further right in a rectangle wider than one page are left
    alone. *)
Theorem InvalidatePages_first_column fuel ops s x y w h :
  run fuel ops init = Some s -> valid_rect x y w h = true ->
  InvalidatePages fuel x y w h s =
    run fuel (OpInvalidatePage <$> first_column_pages x y w h) s /\
  (forall q, q ∈ first_column_pages x y w h ->
     0 <= q < NUM_PAGES /\ PageStartX q <= x < PageStartX q + VRAM_PAGE_WIDTH) /\
  ((size (heap s) <= fuel)%nat -> is_Some (InvalidatePages fuel x y w h s)).
Proof.
  intros Hrun Hrect. pose proof (reachable_wf _ _ _ Hrun) as Hwf.
  destruct (valid_rect_facts _ _ _ _ Hrect) as (Hw & Hh & Hx & Hy & Hxw & Hyh).
  pose proof (div_bounds x 64 ltac:(lia)) as Bx.
  pose proof (div_bounds y 256 ltac:(lia)) as By.
  pose proof (div_bounds (x + w - 1) 64 ltac:(lia)) as Bex.
  pose proof (div_bounds (y + h - 1) 256 ltac:(lia)) as Bey.
  assert (x / 64 <= (x + w - 1) / 64) as Hxs by (apply Z.div_le_mono; lia).
  assert (y / 256 <= (y + h - 1) / 256) as Hys by (apply Z.div_le_mono; lia).
  assert (InvalidatePages fuel x y w h s =
          run fuel (OpInvalidatePage <$> first_column_pages x y w h) s) as Heq.
  { unfold InvalidatePages, LoopPages, first_column_pages, VRAM_PAGE_WIDTH, VRAM_PAGE_HEIGHT.
    rewrite (wrap32_small (w - 1)) by lia. rewrite (wrap32_small (h - 1)) by lia.
    replace (x + (w - 1)) with (x + w - 1) by lia.
    replace (y + (h - 1)) with (y + h - 1) by lia.
    rewrite !wrap32_small by lia.
    replace (Z.to_nat ((x + w - 1) / 64 + 1 - x / 64))
      with (S (Z.to_nat ((x + w - 1) / 64 - x / 64))) by lia.
    rewrite LoopPages_y_run by done.
    rewrite row_pages_column by lia.
    replace (Z.of_nat (Z.to_nat ((y + h - 1) / 256 + 1 - y / 256)))
      with ((y + h - 1) / 256 - y / 256 + 1) by lia.
    done. }
  assert (forall q, q ∈ first_column_pages x y w h ->
     0 <= q < NUM_PAGES /\ PageStartX q <= x < PageStartX q + VRAM_PAGE_WIDTH) as Hcol.
  2:{ split; [exact Heq|]. split; [exact Hcol|].
      intros Hfuel. rewrite Heq.
      destruct (run_InvalidatePage_total fuel (first_column_pages x y w h) s Hwf Hfuel)
        as (s' & -> & _); [|done].
      intros q Hq. by apply Hcol. }
  - unfold first_column_pages, VRAM_PAGE_WIDTH, VRAM_PAGE_HEIGHT.
    intros q (py & -> & Hpy)%list_elem_of_fmap. apply elem_of_seqZ in Hpy.
    destruct (page_coords (x / 64) py) as (-> & -> & _ & Hr); [lia|lia|].
    split; [done|]. unfold VRAM_PAGE_WIDTH. lia.
Qed.

Lemma InvalidatePages_first_column_witness :
  InvalidatePages 4 0 0 128 1 Examples.cache_p1 =
    run 4 [OpInvalidatePage 0] Examples.cache_p1.
Proof.
  apply (InvalidatePages_first_column 4
           [OpLookup true Examples.vram_zero Examples.key_p1_16bit] Examples.cache_p1
           0 0 128 1).
  - apply run_after. vm_compute. reflexivity.
  - reflexivity.
Defined.

End RectangleFacts.

Module CreateExact.
Import GPUTextureCache Trace Rep PtrFacts UnlinkFacts UnlinkSpec InvalidateFacts InvalidateSpec
       AppendSpec CreateFacts LoopFacts CreateSpec LookupSpec Reach CachedFacts CacheAccounting.

Lemma add_page_ref_new_exact L s id key pages refns pn ps :
  creating L s id key pages refns -> pn ∉ pages ->
  page_slot pn = Some ps -> pn ∈ registered_pages key ->
  (pages = [] -> pn = key_page key) ->
  (length pages < MAX_PAGE_REFS_PER_SOURCE)%nat ->
  exists s',
    add_page_ref id pn (s, refns) = Some (s', <[length pages := pn]> refns) /\
    creating (fun p => if decide (p = ps) then L p ++ [(id, length pages)] else L p)
             s' id key (pages ++ [pn]) (<[length pages := pn]> refns) /\
    next_addr s' = next_addr s /\ recycled s' = recycled s /\
    (forall a, a <> id -> meta s' !! a = meta s !! a) /\
    (exists e e', meta s !! id = Some e /\ meta s' !! id = Some e' /\
                  e_texture e' = e_texture e).
Proof.
  intros (Hok & Hown & Hoth & (e & He & Hkey & Hnum & Hnodes) & Hlen & Htake)
         Hnin Hslot Hreg Hfirst Hlt.
  pose proof He as He0.
  apply meta_lookup in He as (o & Ho & ->). simpl in Hnum, Hkey, Hnodes.
  set (ri := length pages) in *.
  destruct (page_slot_lt _ _ Hslot) as [Hps Hpn].
  destruct (oo_bounds _ _ Hown _ _ He0) as (Hid & _ & Hlen6). simpl in Hlen6.
  assert (exists nd0, get_node s (id, ri) = Some nd0) as [nd0 Hg0].
  { unfold get_node. simpl. rewrite Ho. simpl. apply lookup_lt_is_Some.
    rewrite length_fmap in Hlen6. lia. }
  assert (forall p, (id, ri) ∉ L p) as Hfresh.
  { intros p Hin. destruct (po_node _ _ Hok _ _ Hin) as (e' & He' & Hlt' & _).
    simpl in *. rewrite He0 in He'. injection He' as <-. simpl in Hlt'. lia. }
  assert (id ∉ (L ps).*1) as Hidps.
  { intros (m & Hm1 & Hm)%list_elem_of_fmap. destruct m as [a i]. simpl in Hm1. subst a.
    destruct (po_node _ _ Hok _ _ Hm) as (e' & He' & Hlt' & Hnd').
    simpl in *. rewrite He0 in He'. injection He' as <-. simpl in Hlt', Hnd'.
    destruct (lookup_lt_is_Some_2 pages i) as [pn' Hpn']; [lia|].
    destruct (Hnodes _ _ Hpn') as (ps' & Hslot' & Hnd'').
    rewrite Hnd' in Hnd''. injection Hnd'' as <-.
    apply Hnin. rewrite (page_slot_inj _ _ _ Hslot Hslot').
    by eapply list_elem_of_lookup_2. }
  destruct (ListAppend_spec L (bumped id o s) ps id ri nd0
              (set_enum (S (src_num_page_refs o)) (erase_src o)))
    as (s' & Hs' & Hok' & M' & N' & R'); try done.
  { by apply ptr_ok_bumped. }
  { by rewrite bumped_get. }
  { by rewrite bumped_meta, lookup_insert_eq. }
  { simpl. lia. }
  rewrite bumped_meta, insert_insert_eq in M'.
  set (e' := set_enode ri (Some id, Some ps)
               (set_enum (S (src_num_page_refs o)) (erase_src o))) in *.
  exists s'.
  split.
  { unfold add_page_ref. rewrite Ho. simpl. rewrite Hnum. fold ri. rewrite Htake.
    rewrite existsb_eqb_false by done.
    rewrite decide_True by (rewrite Hlen; lia).
    rewrite Hslot. simpl. unfold bumped in Hs'. rewrite Hnum in Hs'. rewrite Hs'. done. }
  split; [|split; [done|split; [done|split]]].
  2:{ intros a Ha. by rewrite M', lookup_insert_ne. }
  2:{ exists (erase_src o), e'. split; [done|].
      split; [by rewrite M', lookup_insert_eq|done]. }
  assert (forall a ea, meta s' !! a = Some ea ->
            (a = id /\ ea = e') \/ (a <> id /\ meta s !! a = Some ea)) as Hlk.
  { intros a ea. rewrite M'. destruct (decide (a = id)) as [->|Hne].
    - rewrite lookup_insert_eq. intros [= <-]. by left.
    - rewrite lookup_insert_ne by done. by right. }
  assert (forall p m, m ∈ L p -> m ∈ (if decide (p = ps) then L p ++ [(id, ri)] else L p)) as Hmono.
  { intros p m Hm. case_decide; [|done]. apply elem_of_app. by left. }
  assert (e_nodes e' !! ri = Some (Some id, Some ps)) as Hnew.
  { simpl. apply list_lookup_insert_eq. lia. }
  assert (forall i, i <> ri -> e_nodes e' !! i = e_nodes (erase_src o) !! i) as Hold.
  { intros i Hi. simpl. by rewrite list_lookup_insert_ne. }
  split; [exact Hok'|]. split; [split|].
  - intros a ea i [[-> ->]|[Hne Hea]]%Hlk Hi.
    + simpl in Hi. destruct (decide (i = ri)) as [->|Hi'].
      * exists ps. split; [done|]. rewrite decide_True by done.
        apply elem_of_app. right. by left.
      * rewrite Hold by done.
        destruct (oo_linked _ _ Hown _ _ i He0) as (p & Hp1 & Hp2); [simpl; lia|].
        exists p. split; [done|]. by apply Hmono.
    + destruct (oo_linked _ _ Hown _ _ i Hea Hi) as (p & Hp1 & Hp2).
      exists p. split; [done|]. by apply Hmono.
  - intros a ea [[-> ->]|[Hne Hea]]%Hlk.
    + rewrite N'. simpl. rewrite length_insert. split; [done|]. split; [lia|done].
    + rewrite N'. by apply (oo_bounds _ _ Hown).
  - intros a ea [[-> ->]|[Hne Hea]]%Hlk Hpos.
    + simpl e_key. rewrite Hkey. destruct (decide (ri = O)) as [E|E].
      * exists ps. rewrite <- Hfirst; [|by apply nil_length_inv].
        split; [done|]. by rewrite <- E.
      * rewrite Hold by done.
        destruct (oo_first _ _ Hown _ _ He0) as (p & Hp1 & Hp2); [simpl; lia|].
        exists p. simpl in Hp1. rewrite Hkey in Hp1. done.
    + by apply (oo_first _ _ Hown).
  - intros a b ea eb [[-> ->]|[Hne Hea]]%Hlk [[-> ->]|[Hne' Heb]]%Hlk Hk; try done.
    + exfalso. destruct (Hoth _ _ Heb Hne') as [_ Hk']. apply Hk'. by rewrite <- Hk.
    + exfalso. destruct (Hoth _ _ Hea Hne) as [_ Hk']. apply Hk'. by rewrite Hk.
    + by eapply (oo_keys _ _ Hown).
  - intros a ea i r p [[-> ->]|[Hne Hea]]%Hlk Hi Hnd.
    + simpl e_key. rewrite Hkey. simpl in Hi. destruct (decide (i = ri)) as [->|Hi'].
      * rewrite Hnew in Hnd. injection Hnd as <- <-. by rewrite <- Hpn.
      * rewrite Hold in Hnd by done. rewrite <- Hkey.
        eapply (oo_pages _ _ Hown _ (erase_src o)); eauto. simpl. lia.
    + by eapply (oo_pages _ _ Hown).
  - split; [|split; [|split]].
    + intros a ea [[-> ->]|[Hne Hea]]%Hlk Ha; [done|]. by eapply Hoth.
    + exists e'. split; [by rewrite M', lookup_insert_eq|]. split; [done|].
      split; [simpl; rewrite length_app; simpl; lia|].
      intros i pn' Hi. destruct (decide (i = ri)) as [->|Hi'].
      * rewrite lookup_app_r in Hi by (unfold ri; lia).
        replace (ri - length pages)%nat with O in Hi by (unfold ri; lia).
        injection Hi as <-. exists ps. done.
      * rewrite Hold by done. apply Hnodes.
        rewrite lookup_app_l in Hi; [done|].
        apply lookup_lt_Some in Hi. rewrite length_app in Hi. simpl in Hi. unfold ri in *. lia.
    + by rewrite length_insert.
    + rewrite length_app. simpl. fold ri. replace (ri + 1)%nat with (S ri) by lia.
      rewrite (take_S_r _ _ pn) by (apply list_lookup_insert_eq; lia).
      rewrite take_insert_ge by lia. by rewrite Htake.
Qed.

Lemma allocated_meta key tex s :
  meta (allocated key tex s) !! next_addr s =
    Some {| e_key := key; e_num := O; e_texture := tex;
            e_nodes := replicate MAX_PAGE_REFS_PER_SOURCE (None, None) |}.
Proof. unfold meta, allocated. simpl. by rewrite fmap_insert, lookup_insert_eq. Qed.

Lemma CreateSource_exact L s vram key ps tex :
  inv L s -> page_slot (key_page key) = Some ps ->
  DecodeTexture VRAMRGBA5551ToRGBA8888 vram (key_page key) (key_palette key) (key_mode key)
    = Some tex ->
  (forall id e, meta s !! id = Some e -> e_key e <> key) ->
  exists s' e',
    CreateSource true vram key s = Some (Some (next_addr s), s') /\
    inv (listed_after L (next_addr s) O (created_pages key)) s' /\
    next_addr s' = S (next_addr s) /\ recycled s' = recycled s /\
    (forall a, a <> next_addr s -> meta s' !! a = meta s !! a) /\
    meta s' !! next_addr s = Some e' /\ e_key e' = key /\ e_texture e' = tex /\
    e_num e' = length (created_pages key).
Proof.
  intros Hinv Hslot Htex Hfresh.
  rewrite (CreateSource_unfold _ _ _ _ Htex).
  set (id := next_addr s).
  pose proof (creating_allocated L s key tex Hinv Hfresh) as Hc0. fold id in Hc0.
  destruct (page_slot_lt _ _ Hslot) as [Hps Hkp].
  assert (0 <= key_page key < NUM_PAGES) as Hrange by lia.
  destruct (PageStart_facts _ Hrange) as (Hx0 & Hx1 & Hy0 & Hy1 & Hrow & Hpage).
  pose proof (WidthForMode_range (key_mode key)) as Hw.
  (* the page of the key *)
  destruct (add_page_ref_new_exact L _ id key [] _ (key_page key) ps Hc0)
    as (s1 & Ha1 & Hc1 & N1 & R1 & M1 & (e0 & e1 & He0 & He1 & T1)); try done.
  { by intros ?%elem_of_nil. }
  { by left. }
  { simpl. unfold MAX_PAGE_REFS_PER_SOURCE. lia. }
  unfold id in He0. rewrite allocated_meta in He0. injection He0 as <-. simpl in T1.
  simpl app in Hc1. simpl length in Ha1, Hc1.
  set (L1 := fun p => if decide (p = ps) then L p ++ [(id, O)] else L p) in *.
  set (refns1 := <[O := key_page key]> (replicate MAX_PAGE_REFS_PER_SOURCE 0)) in *.
  assert (LoopPages (add_page_ref id) (PageStartX (key_page key))
            (PageStartY (key_page key)) (WidthForMode (key_mode key))
            TEXTURE_PAGE_HEIGHT
            (allocated key tex s, replicate MAX_PAGE_REFS_PER_SOURCE 0)
          = Some (s1, refns1)) as ->.
  { apply LoopPages_single; try lia; try done.
    - by rewrite Hpage.
    - rewrite Hpage. eapply add_page_ref_old; [exact Hc1|]. by left. }
  cbn [mbind option_bind].
  assert (Z.to_nat (key_page key) = ps) as Eps by lia.
  (* the page of the palette *)
  assert (exists s2 refns2 e2,
    (if mode_is_paletted (key_mode key)
     then LoopPages (add_page_ref id) (GetXBase (key_palette key))
            (GetYBase (key_palette key)) (GetWidth (key_mode key)) 1 (s1, refns1)
     else Some (s1, refns1)) = Some (s2, refns2) /\
    creating (listed_after L id O (created_pages key)) s2 id key (created_pages key) refns2 /\
    next_addr s2 = next_addr s1 /\ recycled s2 = recycled s1 /\
    (forall a, a <> id -> meta s2 !! a = meta s1 !! a) /\
    meta s2 !! id = Some e2 /\ e_texture e2 = tex)
    as (s2 & refns2 & e2 & -> & Hc2 & N2 & R2 & M2 & He2 & T2).
  { unfold created_pages.
    destruct (mode_is_paletted (key_mode key)) eqn:Hpal.
    2:{ exists s1, refns1, e1. split; [done|]. simpl. rewrite Eps. done. }
    destruct (palette_facts (key_palette key)) as [Hpx Hpy].
    pose proof (palette_page_range key) as Hpr.
    pose proof (page_slot_Some _ Hpr) as Hpslot.
    assert (0 < GetWidth (key_mode key) <= 256) as Hgw.
    { destruct (key_mode key); simpl in *; try done; lia. }
    destruct (Z.eqb_spec (palette_page key) (key_page key)) as [E|E].
    - exists s1, refns1, e1. split.
      + assert (VRAMCoordinateToPage (GetXBase (key_palette key))
                  (GetYBase (key_palette key)) = key_page key) as E' by exact E.
        apply LoopPages_single; try lia; try (f_equal; lia); rewrite E';
          (eapply add_page_ref_old; [exact Hc1|]; by left).
      + simpl. rewrite Eps. done.
    - destruct (add_page_ref_new_exact L1 s1 id key [key_page key] refns1
                  (palette_page key) (Z.to_nat (palette_page key)) Hc1)
        as (s2 & Ha2 & Hc2 & N2 & R2 & M2 & (e1' & e2 & He1' & He2 & T2)); try done.
      { by intros Hin%list_elem_of_singleton. }
      { unfold registered_pages. rewrite Hpal. right. by left. }
      { simpl. unfold MAX_PAGE_REFS_PER_SOURCE. lia. }
      rewrite He1 in He1'. injection He1' as <-.
      eexists s2, _, e2. split.
      + apply LoopPages_single; try lia; try (f_equal; lia).
        * exact Ha2.
        * eapply add_page_ref_old; [exact Hc2|].
          apply elem_of_app. right. by left.
      + simpl. rewrite Eps. split; [exact Hc2|]. split; [done|]. split; [done|].
        split; [done|]. split; [done|]. congruence. }
  cbn [mbind option_bind fst].
  exists s2, e2. split; [done|].
  split. { eapply creating_inv; [exact Hc2|]. unfold created_pages. done. }
  split. { rewrite N2, N1. done. }
  split. { rewrite R2, R1. done. }
  split. { intros a Ha. rewrite M2, M1 by done. unfold meta, allocated. simpl.
           rewrite fmap_insert, lookup_insert_ne; done. }
  destruct Hc2 as (_ & _ & _ & (e & He & Hk & Hn & _) & _).
  rewrite He2 in He. injection He as <-. done.
Qed.

End CreateExact.

Module LookupProperties.
Import GPUTextureCache Trace Rep PtrFacts UnlinkFacts InvalidateSpec CreateSpec LookupSpec
       Reach CachedFacts CacheAccounting CreateExact LoopFacts.

Lemma fresh_meta s key :
  (forall id o, heap s !! id = Some o -> src_key o <> key) ->
  forall id e, meta s !! id = Some e -> e_key e <> key.
Proof.
  intros H id e (o & Ho & ->)%meta_lookup. simpl. by eapply H.
Qed.




(** *** Where the new source is listed *)

Lemma listed_after_refs id pages : forall L i q,
  NoDup pages -> (forall pn, pn ∈ pages -> 0 <= pn) ->
  (fun n : nat * nat => Some n.1) <$> listed_after L id i pages q =
    ((fun n : nat * nat => Some n.1) <$> L q)
    ++ (if bool_decide (Z.of_nat q ∈ pages) then [Some id] else []).
Proof.
  induction pages as [|pn pages IH]; intros L i q Hnd Hpos.
  - cbn [listed_after]. rewrite bool_decide_eq_false_2 by (by intros ?%elem_of_nil).
    by rewrite app_nil_r.
  - apply NoDup_cons in Hnd as [Hni Hnd]. cbn [listed_after].
    rewrite IH; [|done|intros x Hx; apply Hpos; by right].
    pose proof (Hpos pn ltac:(by left)) as Hpn.
    destruct (decide (q = Z.to_nat pn)) as [->|Hne].
    + rewrite Z2Nat.id by done.
      rewrite (bool_decide_eq_false_2 (pn ∈ pages)) by done.
      rewrite (bool_decide_eq_true_2 (pn ∈ pn :: pages)) by (by left).
      rewrite fmap_app. by rewrite app_nil_r.
    + assert (Z.of_nat q <> pn) by lia.
      destruct (decide (Z.of_nat q ∈ pages)) as [Hin|Hin].
      * rewrite !bool_decide_eq_true_2; [done|by right|done].
      * rewrite !bool_decide_eq_false_2; [done| |done].
        intros [?|?]%elem_of_cons; done.
Qed.

Lemma created_pages_facts key :
  0 <= key_page key ->
  NoDup (created_pages key) /\ (forall pn, pn ∈ created_pages key -> 0 <= pn).
Proof.
  intros Hk. pose proof (palette_page_range key) as Hp. unfold created_pages.
  destruct (mode_is_paletted (key_mode key)); simpl.
  - destruct (Z.eqb_spec (palette_page key) (key_page key)) as [E|E]; simpl.
    + split; [apply NoDup_singleton|]. by intros pn ->%list_elem_of_singleton.
    + split.
      * apply NoDup_cons. split; [|apply NoDup_singleton].
        intros Heq%list_elem_of_singleton. congruence.
      * intros pn [->|Hp2]%elem_of_cons; [lia|].
        apply list_elem_of_singleton in Hp2 as ->. lia.
  - split; [apply NoDup_singleton|]. by intros pn ->%list_elem_of_singleton.
Qed.

(** X2 -- The source a missing lookup creates is appended at the tail of the
    list of its key's page and, for a paletted key whose palette starts
    in another page, of that page's list; these lists keep their earlier
    entries in order, and no other list changes.  So the new source is
    listed on exactly the pages of [created_pages]. *)
Theorem new_source_appended_at_tail fuel ops s vram key :
  run fuel ops init = Some s ->
  0 <= key_page key < NUM_PAGES -> key_mode key <> Disabled ->
  (size (heap s) <= fuel)%nat ->
  (forall id o, heap s !! id = Some o -> src_key o <> key) ->
  exists s',
    LookupSource fuel true vram key s = Some (Some (next_addr s), s') /\
    (forall q l, (q < Z.to_nat NUM_PAGES)%nat ->
       sources_on_page fuel q s = Some l ->
       (Some (next_addr s) ∉ l) /\
       sources_on_page (S fuel) q s' =
         Some (if bool_decide (Z.of_nat q ∈ created_pages key)
               then l ++ [Some (next_addr s)] else l)) /\
    (forall pn, pn ∈ Spec.pages_listing (S fuel) (next_addr s) s' <->
                pn ∈ created_pages key).
Proof.
  intros Hrun Hpage Hmode Hfuel Hfresh.
  destruct (reachable_wf _ _ _ Hrun) as [L Hinv].
  pose proof (page_slot_Some _ Hpage) as Hslot.
  pose proof (fresh_meta _ _ Hfresh) as Hfm.
  destruct (DecodeTexture_Some VRAMRGBA5551ToRGBA8888 vram (key_page key)
              (key_palette key) (key_mode key) Hmode) as [tex Htex].
  destruct (CreateSource_exact L s vram key _ tex Hinv Hslot Htex Hfm)
    as (s' & e' & Hc & Hinv' & N' & R' & M' & He' & Hk & Ht & Hn).
  pose proof (inv_fresh_addr _ _ Hinv) as Hnone.
  destruct (CacheProperties.created_size L s vram key _ _ s' Hinv Hslot Hmode Hfm Hc)
    as (Hsz & _).
  destruct (created_pages_facts key ltac:(lia)) as [Hnd Hpos].
  assert (NUM_PAGES = 32) as HN by reflexivity.
  assert (forall q l, (q < Z.to_nat NUM_PAGES)%nat ->
       sources_on_page fuel q s = Some l ->
       (Some (next_addr s) ∉ l) /\
       sources_on_page (S fuel) q s' =
         Some (if bool_decide (Z.of_nat q ∈ created_pages key)
               then l ++ [Some (next_addr s)] else l)) as Hlists.
  { intros q l Hq Hl.
    rewrite (sources_on_page_inv L s fuel q Hinv Hq Hfuel) in Hl. injection Hl as <-.
    split.
    - intros (m & Hm & Hin)%refs_elem%list_elem_of_fmap.
      destruct Hinv as (Hok & _).
      destruct (po_node _ _ Hok _ _ Hin) as (e & (o & Ho & _)%meta_lookup & _).
      congruence.
    - rewrite (sources_on_page_inv _ s' (S fuel) q Hinv' Hq) by lia.
      rewrite listed_after_refs by done.
      case_bool_decide; [done|by rewrite app_nil_r]. }
  exists s'.
  split. { rewrite (LookupSource_miss L s fuel true vram key _ Hinv Hslot Hfm Hfuel). done. }
  split; [exact Hlists|].
  intros pn. unfold Spec.pages_listing. rewrite list_elem_of_filter, elem_of_seqZ.
  assert (forall q, (q < Z.to_nat NUM_PAGES)%nat ->
            exists l, sources_on_page fuel q s = Some l) as Hsome.
  { intros q Hq. rewrite (sources_on_page_inv L s fuel q Hinv Hq Hfuel). eauto. }
  split.
  - intros [Hl Hr]. destruct (Hsome (Z.to_nat pn) ltac:(lia)) as [l Hl0].
    destruct (Hlists (Z.to_nat pn) l ltac:(lia) Hl0) as [Hnin Hl1].
    rewrite Hl1 in Hl. rewrite Z2Nat.id in Hl by lia.
    destruct (decide (pn ∈ created_pages key)) as [Hin|Hin]; [done|].
    rewrite (bool_decide_eq_false_2 _ Hin) in Hl.
    apply bool_decide_eq_true_1 in Hl. done.
  - intros Hin.
    assert (0 <= pn < NUM_PAGES) as Hr.
    { unfold created_pages in Hin. pose proof (palette_page_range key).
      apply elem_of_cons in Hin as [->|Hin]; [done|].
      destruct (mode_is_paletted (key_mode key) && negb (palette_page key =? key_page key));
        [|by apply elem_of_nil in Hin].
      by apply list_elem_of_singleton in Hin as ->. }
    split; [|lia].
    destruct (Hsome (Z.to_nat pn) ltac:(lia)) as [l Hl0].
    destruct (Hlists (Z.to_nat pn) l ltac:(lia) Hl0) as [Hnin Hl1].
    rewrite Hl1. rewrite Z2Nat.id by lia.
    rewrite (bool_decide_eq_true_2 (pn ∈ created_pages key)) by done.
    apply bool_decide_eq_true_2. apply elem_of_app. right. by left.
Qed.

Lemma new_source_appended_at_tail_witness :
  exists s',
    LookupSource 4 true Examples.vram_zero Examples.key_p0_4bit Examples.cache_p1
      = Some (Some 1%nat, s') /\
    sources_on_page 5 1 s' = Some [Some 0%nat; Some 1%nat].
Proof.
  destruct (new_source_appended_at_tail 4
              [OpLookup true Examples.vram_zero Examples.key_p1_16bit]
              Examples.cache_p1 Examples.vram_zero Examples.key_p0_4bit)
    as (s' & Hl & Hlists & _).
  - apply run_after. vm_compute. reflexivity.
  - change (0 <= 0 < 32). lia.
  - discriminate.
  - vm_compute. lia.
  - apply map_Forall_lookup.
    apply (bool_decide_eq_true_1
             (map_Forall (fun (_ : nat) o => src_key o <> Examples.key_p0_4bit)
                         (heap Examples.cache_p1))).
    vm_compute. reflexivity.
  - exists s'. split; [exact Hl|].
    destruct (Hlists 1%nat [Some 0%nat]) as [_ H1].
    + vm_compute. lia.
    + vm_compute. reflexivity.
    + exact H1.
Defined.

End LookupProperties.

Module SourceShape.
Import GPUTextureCache Trace Rep PtrFacts UnlinkFacts InvalidateSpec CreateSpec LookupSpec
       Reach CachedFacts CacheAccounting CreateExact LoopFacts LookupProperties.

(** A property of the key, texture and reference count that holds for
    every source when it is created holds for every source of every
    reachable state. *)
Lemma reachable_meta_all fuel (Q : Meta -> Prop) :
  (forall vram e,
     key_mode (e_key e) <> Disabled -> 0 <= key_page (e_key e) < NUM_PAGES ->
     DecodeTexture VRAMRGBA5551ToRGBA8888 vram (key_page (e_key e))
       (key_palette (e_key e)) (key_mode (e_key e)) = Some (e_texture e) ->
     e_num e = length (created_pages (e_key e)) -> Q e) ->
  forall ops s, run fuel ops init = Some s ->
  forall id e, meta s !! id = Some e -> Q e.
Proof.
  intros HQ.
  apply (reachable_ind fuel (fun s => forall id e, meta s !! id = Some e -> Q e)).
  - intros id e. unfold meta, init. simpl. by rewrite fmap_empty, lookup_empty.
  - intros s pn s' [L Hinv] HP Hs' id e He.
    destruct (InvalidatePage_Some _ _ _ _ _ Hinv Hs') as (ps & Hps & (_ & M' & _)).
    rewrite M' in He. case_decide; [done|]. by eapply HP.
  - intros s fetched vram key r s' [L Hinv] HP Hl id e He.
    destruct (LookupSource_cases _ _ _ _ _ _ _ _ Hinv Hl)
      as [(i0 & e0 & _ & -> & _)|[(_ & _ & ->)|(ps & _ & Hps & Hmode & Hfresh & Hc)]];
      [by eapply HP|by eapply HP|].
    destruct (DecodeTexture_Some VRAMRGBA5551ToRGBA8888 vram (key_page key)
                (key_palette key) (key_mode key) Hmode) as [tex Htex].
    destruct (CreateSource_exact L s vram key _ tex Hinv Hps Htex Hfresh)
      as (s1 & e' & Hc1 & _ & _ & _ & M' & He' & Hk & Ht & Hn).
    rewrite Hc in Hc1. injection Hc1 as -> <-.
    destruct (decide (id = next_addr s)) as [->|Hne].
    + rewrite He' in He. injection He as <-.
      destruct (page_slot_lt _ _ Hps) as [Hlt Hkp].
      apply (HQ vram); rewrite ?Hk, ?Ht; try done.
      assert (NUM_PAGES = 32) as HN by reflexivity. lia.
    + rewrite M' in He by done. by eapply HP.
Qed.

(** X4 -- Every source of a reachable cache has a page below [NUM_PAGES] and a
    mode other than [Disabled]; its texture is the decoding of its key
    from the video memory of some moment, unchanged since, of 256 rows of
    256 texels; and it holds one page reference, or two when its palette
    starts in another page than its key's. *)
Theorem reachable_source_shape fuel ops s p o :
  run fuel ops init = Some s -> heap s !! p = Some o ->
  key_mode (src_key o) <> Disabled /\
  0 <= key_page (src_key o) < NUM_PAGES /\
  (exists vram,
     DecodeTexture VRAMRGBA5551ToRGBA8888 vram (key_page (src_key o))
       (key_palette (src_key o)) (key_mode (src_key o)) = Some (src_texture o)) /\
  length (src_texture o) = Z.to_nat TEXTURE_PAGE_HEIGHT /\
  Forall (fun row => length row = Z.to_nat TEXTURE_PAGE_WIDTH) (src_texture o) /\
  src_num_page_refs o = length (created_pages (src_key o)) /\
  (1 <= src_num_page_refs o <= 2)%nat.
Proof.
  intros Hrun Ho.
  assert (meta s !! p = Some (erase_src o)) as Hm by (apply meta_lookup; eauto).
  apply (reachable_meta_all fuel
    (fun e =>
       key_mode (e_key e) <> Disabled /\
       0 <= key_page (e_key e) < NUM_PAGES /\
       (exists vram,
          DecodeTexture VRAMRGBA5551ToRGBA8888 vram (key_page (e_key e))
            (key_palette (e_key e)) (key_mode (e_key e)) = Some (e_texture e)) /\
       length (e_texture e) = Z.to_nat TEXTURE_PAGE_HEIGHT /\
       Forall (fun row => length row = Z.to_nat TEXTURE_PAGE_WIDTH) (e_texture e) /\
       e_num e = length (created_pages (e_key e)) /\
       (1 <= e_num e <= 2)%nat)) with (ops := ops) (s := s) (id := p) (e := erase_src o);
    [|done|done].
  clear. intros vram e Hmode Hpage Hdec Hnum.
  destruct (DecodeLocality.DecodeTexture_dims _ _ _ _ _ _ Hdec) as (Hlen & Hrows).
  split; [done|]. split; [done|]. split; [eauto|]. split; [done|]. split; [done|].
  split; [done|]. rewrite Hnum. unfold created_pages.
  destruct (mode_is_paletted (key_mode (e_key e)) &&
            negb (palette_page (e_key e) =? key_page (e_key e))); simpl; lia.
Qed.

Lemma reachable_source_shape_witness :
  src_num_page_refs (Examples.source_0 Examples.cache_p0_4bit) = 2%nat /\
  length (src_texture (Examples.source_0 Examples.cache_p0_4bit)) = 256%nat.
Proof.
  destruct (reachable_source_shape 4
              [OpLookup true Examples.vram_zero Examples.key_p0_4bit]
              Examples.cache_p0_4bit O (Examples.source_0 Examples.cache_p0_4bit))
    as (_ & _ & _ & Hlen & _ & Hn & _).
  - apply run_after. vm_compute. reflexivity.
  - assert (bool_decide (is_Some (heap Examples.cache_p0_4bit !! O)) = true) as Hs
      by (vm_compute; reflexivity).
    apply bool_decide_eq_true_1 in Hs. unfold Examples.source_0.
    by destruct (heap Examples.cache_p0_4bit !! O).
  - split; [|exact Hlen]. rewrite Hn. vm_compute. reflexivity.
Defined.

(** X10 -- A key whose mode is [Disabled] is never cached, so a lookup with such
    a key always goes on to create a source: when no texture can be
    fetched it returns null and changes nothing, and otherwise it reaches
    the unreachable default case of the decoder. *)
Theorem lookup_disabled_mode fuel ops s vram key :
  run fuel ops init = Some s -> 0 <= key_page key < NUM_PAGES ->
  (size (heap s) <= fuel)%nat -> key_mode key = Disabled ->
  (forall p o, heap s !! p = Some o -> src_key o <> key) /\
  LookupSource fuel false vram key s = Some (None, s) /\
  LookupSource fuel true vram key s = None.
Proof.
  intros Hrun Hpage Hfuel Hmode.
  destruct (reachable_wf _ _ _ Hrun) as [L Hinv].
  pose proof (page_slot_Some _ Hpage) as Hslot.
  assert (forall id e, meta s !! id = Some e -> e_key e <> key) as Hfm.
  { intros id e He Hk.
    pose proof (reachable_meta_all fuel (fun e => key_mode (e_key e) <> Disabled)
                  ltac:(done) ops s Hrun id e He) as Hd.
    apply Hd. by rewrite Hk. }
  split.
  { intros p o Ho Hk. apply (Hfm p (erase_src o)); [|done]. apply meta_lookup. eauto. }
  rewrite !(LookupSource_miss L s fuel _ vram key _ Hinv Hslot Hfm Hfuel).
  split; [done|]. unfold CreateSource, DecodeTexture. by rewrite Hmode.
Qed.

Lemma lookup_disabled_mode_witness :
  LookupSource 4 true Examples.vram_zero
    {| key_page := 0; key_mode := Disabled; key_palette := {| bits := 0 |} |}
    Examples.cache_p0 = None.
Proof.
  apply (lookup_disabled_mode 4 [OpLookup true Examples.vram_zero Examples.key_p0_16bit]
           Examples.cache_p0 Examples.vram_zero
           {| key_page := 0; key_mode := Disabled; key_palette := {| bits := 0 |} |}).
  - apply run_after. vm_compute. reflexivity.
  - change (0 <= 0 < 32). lia.
  - vm_compute. lia.
  - reflexivity.
Defined.

End SourceShape.

Module ReverseIndex.
Import GPUTextureCache Trace Rep PtrFacts UnlinkFacts InvalidateSpec CreateSpec LookupSpec
       Reach CachedFacts CacheAccounting CreateExact LoopFacts LookupProperties SourceShape.

Lemma registered_created k pn : pn ∈ registered_pages k <-> pn ∈ created_pages k.
Proof.
  unfold registered_pages, created_pages.
  destruct (mode_is_paletted (key_mode k)); simpl; [|done].
  destruct (Z.eqb_spec (palette_page k) (key_page k)) as [E|E]; simpl; [|done].
  rewrite E. rewrite !elem_of_cons. split; [|tauto].
  intros [?|[?|?%elem_of_nil]]; tauto.
Qed.

Lemma NoDup_fst_inj (l : list (nat * nat)) a i j :
  NoDup l.*1 -> (a, i) ∈ l -> (a, j) ∈ l -> i = j.
Proof.
  induction l as [|[b k] l IH]; intros Hnd Hi Hj; [by apply elem_of_nil in Hi|].
  rewrite fmap_cons in Hnd. apply NoDup_cons in Hnd as [Hni Hnd]. simpl in Hni.
  assert (forall x, (b, x) ∈ l -> False) as Hno.
  { intros x Hx. apply Hni. apply list_elem_of_fmap. by exists (b, x). }
  apply elem_of_cons in Hi as [Hi|Hi]; apply elem_of_cons in Hj as [Hj|Hj].
  - congruence.
  - injection Hi as -> ->. exfalso. by eapply Hno.
  - injection Hj as -> ->. exfalso. by eapply Hno.
  - by apply IH.
Qed.

Lemma inv_listing L s id e q :
  inv L s -> meta s !! id = Some e ->
  e_num e = length (created_pages (e_key e)) ->
  (q < Z.to_nat NUM_PAGES)%nat ->
  (id ∈ (L q).*1 <-> Z.of_nat q ∈ created_pages (e_key e)).
Proof.
  intros Hinv He Hnum Hq. pose proof Hinv as (Hok & Hown & Hpos). split.
  - intros (m & -> & Hm)%list_elem_of_fmap.
    destruct (po_node _ _ Hok _ _ Hm) as (e' & He' & Hlt & Hnd).
    rewrite He in He'. injection He' as <-.
    apply registered_created. by eapply (oo_pages _ _ Hown).
  - intros Hin. destruct (inv_on_key_page _ _ _ _ Hinv He) as (ps & Hslot & H0).
    destruct (page_slot_lt _ _ Hslot) as [Hps Hkp].
    unfold created_pages in Hin, Hnum.
    apply elem_of_cons in Hin as [Hin|Hin].
    { assert (q = ps) as -> by lia. apply list_elem_of_fmap. by exists (id, O). }
    destruct (mode_is_paletted (key_mode (e_key e))) eqn:Hpal; simpl in Hin, Hnum;
      [|by apply elem_of_nil in Hin].
    destruct (Z.eqb_spec (palette_page (e_key e)) (key_page (e_key e))) as [E|E];
      simpl in Hin, Hnum; [by apply elem_of_nil in Hin|].
    apply list_elem_of_singleton in Hin.
    destruct (oo_linked _ _ Hown _ _ 1%nat He ltac:(lia)) as (pn & Hnd & H1).
    pose proof (oo_pages _ _ Hown _ _ 1%nat _ _ He ltac:(lia) Hnd) as Hreg.
    unfold registered_pages in Hreg. rewrite Hpal in Hreg.
    apply elem_of_cons in Hreg as [Hreg|Hreg].
    + exfalso. assert (pn = ps) as -> by lia.
      pose proof (NoDup_fst_inj _ _ _ _ (po_nodup _ _ Hok ps) H0 H1). done.
    + apply list_elem_of_singleton in Hreg.
      assert (q = pn) as -> by lia. apply list_elem_of_fmap. by exists (id, 1%nat).
Qed.

(** X3 -- In every reachable state the reverse index is exact for the pages
    [CreateSource] registers: the list of a page holds, once each, the
    live sources whose key's page it is or whose palette starts in it,
    and nothing else. *)
Theorem reverse_index_exact fuel ops s q :
  run fuel ops init = Some s -> (size (heap s) <= fuel)%nat -> 0 <= q < NUM_PAGES ->
  exists refs,
    sources_on_page fuel (Z.to_nat q) s = Some refs /\
    NoDup refs /\
    (forall r, r ∈ refs -> exists p o, r = Some p /\ heap s !! p = Some o) /\
    (forall p o, heap s !! p = Some o ->
       (Some p ∈ refs <-> q ∈ created_pages (src_key o))).
Proof.
  intros Hrun Hfuel Hq. destruct (reachable_wf _ _ _ Hrun) as [L Hinv].
  assert (NUM_PAGES = 32) as HN by reflexivity.
  assert (Z.to_nat q < Z.to_nat NUM_PAGES)%nat as Hq' by lia.
  exists ((fun n : nat * nat => Some n.1) <$> L (Z.to_nat q)).
  split; [by apply sources_on_page_inv|].
  pose proof Hinv as (Hok & _).
  split; [|split].
  - replace ((fun n : nat * nat => Some n.1) <$> L (Z.to_nat q))
      with (Some <$> (L (Z.to_nat q)).*1) by (by rewrite <- list_fmap_compose).
    apply (NoDup_fmap_2 Some). apply (po_nodup _ _ Hok).
  - intros r (m & -> & Hm)%list_elem_of_fmap.
    destruct (po_node _ _ Hok _ _ Hm) as (e & (o & Ho & _)%meta_lookup & _). eauto.
  - intros p o Ho. rewrite refs_elem.
    assert (meta s !! p = Some (erase_src o)) as Hm by (apply meta_lookup; eauto).
    pose proof (reachable_meta_all fuel
                  (fun e => e_num e = length (created_pages (e_key e)))
                  ltac:(done) ops s Hrun p _ Hm) as Hnum.
    rewrite (inv_listing L s p (erase_src o) (Z.to_nat q) Hinv Hm Hnum Hq').
    rewrite Z2Nat.id by lia. done.
Qed.

Lemma reverse_index_exact_witness :
  exists refs, sources_on_page 4 (Z.to_nat 1) Examples.cache_p1 = Some refs /\ NoDup refs.
Proof.
  destruct (reverse_index_exact 4 [OpLookup true Examples.vram_zero Examples.key_p1_16bit]
              Examples.cache_p1 1) as (refs & Hrefs & Hnd & _).
  - apply run_after. vm_compute. reflexivity.
  - vm_compute. lia.
  - change (0 <= 1 < 32). lia.
  - exists refs. split; [exact Hrefs|exact Hnd].
Defined.



End ReverseIndex.

Module ListRoundTrip.
Import GPUTextureCache Rep PtrFacts AppendSpec.

Lemma set_tail_back sl t n : sl_tail sl = t -> set_tail t (set_tail n sl) = sl.
Proof. intros <-. by destruct sl. Qed.

Lemma set_head_tail_back sl n m :
  sl_tail sl = None -> sl_head sl = None ->
  set_tail None (set_head None (set_tail n (set_head m sl))) = sl.
Proof. destruct sl as [h t]. simpl. by intros -> ->. Qed.

Lemma set_next_back nd n : node_next nd = None -> set_next None (set_next n nd) = nd.
Proof. destruct nd. simpl. by intros ->. Qed.

(** X11 -- Appending a node to a well-formed list and unlinking it again gives
    the list back: the head and tail of every list and the fields of
    every other node are as before.  The list is well formed when an
    empty tail comes with an empty head and the tail node, if any, is
    another node whose [next] is null. *)
Theorem ListAppend_then_ListUnlink l item n s sl nd0 :
  get_list s l = Some sl -> get_node s n = Some nd0 ->
  (sl_tail sl = None -> sl_head sl = None) ->
  (forall t, sl_tail sl = Some t ->
     t <> n /\ exists ndt, get_node s t = Some ndt /\ node_next ndt = None) ->
  exists s1 s2,
    ListAppend l item n s = Some s1 /\
    get_node s1 n = Some {| node_ref := Some item; node_list := Some l;
                            node_prev := sl_tail sl; node_next := None |} /\
    get_list s1 l = Some {| sl_head := match sl_tail sl with
                                       | Some _ => sl_head sl
                                       | None => Some n
                                       end;
                            sl_tail := Some n |} /\
    ListUnlink n s1 = Some s2 /\
    m_page_sources s2 = m_page_sources s /\
    (forall m, m <> n -> get_node s2 m = get_node s m).
Proof.
  intros Hsl Hn Hempty Htail.
  rewrite (ListAppend_unfold _ _ _ _ _ Hsl).
  destruct (store_node_const_Some (appended l item (sl_tail sl)) n s nd0 Hn)
    as (sa & Hsa & Hna).
  rewrite Hsa. cbn [mbind option_bind].
  pose proof (store_node_pages _ _ _ _ Hsa) as Pa.
  unfold get_list in *.
  destruct (sl_tail sl) as [t|] eqn:Ht.
  - destruct (Htail t eq_refl) as (Htn & ndt & Hndt & Hnext).
    assert (get_node sa t = Some ndt) as Hta.
    { by rewrite (store_node_get _ _ _ _ t Hsa), decide_False. }
    destruct (store_node_Some (set_next (Some n)) _ _ _ Hta) as [sb Hsb].
    rewrite Hsb. cbn [mbind option_bind].
    pose proof (store_node_pages _ _ _ _ Hsb) as Pb.
    assert (m_page_sources sb !! l = Some sl) as Hlb by (by rewrite Pb, Pa).
    rewrite (store_list_Some _ _ _ _ Hlb).
    set (s1 := with_page_sources (<[l:=set_tail (Some n) sl]> (m_page_sources sb)) sb).
    assert (forall m, get_node s1 m = get_node sb m) as G1 by done.
    assert (get_node s1 n = Some (appended l item (Some t))) as Hn1.
    { by rewrite G1, (store_node_get _ _ _ _ n Hsb), decide_False. }
    assert (get_node s1 t = Some (set_next (Some n) ndt)) as Ht1.
    { by rewrite G1, (store_node_get _ _ _ _ t Hsb), decide_True, Hta. }
    assert (l < length (m_page_sources sb))%nat as Hlen by (by eapply lookup_lt_Some).
    assert (m_page_sources s1 !! l = Some (set_tail (Some n) sl)) as Hl1.
    { unfold s1. simpl. by rewrite list_lookup_insert_eq. }
    exists s1. unfold ListUnlink. rewrite Hn1. cbn [mbind option_bind appended node_prev node_next].
    destruct (store_node_Some (set_next None) _ _ _ Ht1) as [sc Hsc].
    rewrite Hsc. cbn [mbind option_bind].
    assert (get_node sc n = Some (appended l item (Some t))) as ->.
    { by rewrite (store_node_get _ _ _ _ n Hsc), decide_False. }
    cbn [mbind option_bind appended node_prev node_next node_list].
    pose proof (store_node_pages _ _ _ _ Hsc) as Pc.
    assert (m_page_sources sc !! l = Some (set_tail (Some n) sl)) as Hlc by (by rewrite Pc).
    rewrite (store_list_Some _ _ _ _ Hlc).
    eexists. split; [done|]. split; [done|]. split.
    { rewrite Hl1. by destruct sl. }
    split; [done|]. split.
    + simpl. rewrite Pc. unfold s1. simpl. rewrite list_insert_insert_eq.
      rewrite set_tail_back by done. rewrite Pb, Pa. by apply list_insert_id.
    + intros m Hm.
      change (get_node sc m = get_node s m).
      rewrite (store_node_get _ _ _ _ m Hsc). case_decide as E.
      * subst m. rewrite Ht1. simpl. rewrite set_next_back by done. done.
      * rewrite G1, (store_node_get _ _ _ _ m Hsb), decide_False by done.
        by rewrite (store_node_get _ _ _ _ m Hsa), decide_False.
  - pose proof (Hempty eq_refl) as Hh.
    assert (m_page_sources sa !! l = Some sl) as Hla by (by rewrite Pa).
    rewrite (store_list_Some _ _ _ _ Hla). cbn [mbind option_bind].
    assert (l < length (m_page_sources sa))%nat as Hlen by (by eapply lookup_lt_Some).
    set (sb := with_page_sources (<[l:=set_head (Some n) sl]> (m_page_sources sa)) sa).
    assert (m_page_sources sb !! l = Some (set_head (Some n) sl)) as Hlb.
    { unfold sb. simpl. by rewrite list_lookup_insert_eq. }
    rewrite (store_list_Some _ _ _ _ Hlb).
    set (s1 := with_page_sources
                 (<[l:=set_tail (Some n) (set_head (Some n) sl)]> (m_page_sources sb)) sb).
    assert (forall m, get_node s1 m = get_node sa m) as G1 by done.
    assert (m_page_sources s1 !! l = Some (set_tail (Some n) (set_head (Some n) sl))) as Hl1.
    { unfold s1, sb. simpl. rewrite list_lookup_insert_eq; [done|].
      by rewrite length_insert. }
    assert (get_node s1 n = Some (appended l item None)) as Hn1 by (by rewrite G1).
    exists s1. unfold ListUnlink. rewrite Hn1.
    cbn [mbind option_bind appended node_prev node_next node_list].
    rewrite (store_list_Some _ _ _ _ Hl1). cbn [mbind option_bind].
    set (sc := with_page_sources _ s1).
    assert (get_node sc n = Some (appended l item None)) as -> by (by rewrite <- Hna).
    cbn [mbind option_bind appended node_prev node_next node_list].
    assert (m_page_sources sc !! l
            = Some (set_head None (set_tail (Some n) (set_head (Some n) sl)))) as Hlc.
    { unfold sc. simpl. rewrite list_lookup_insert_eq; [done|].
      unfold s1, sb. simpl. by rewrite !length_insert. }
    rewrite (store_list_Some _ _ _ _ Hlc).
    eexists. split; [done|]. split; [done|]. split.
    { rewrite Hl1. by destruct sl. }
    split; [done|]. split.
    + simpl. unfold s1, sb. simpl. rewrite !list_insert_insert_eq.
      rewrite set_head_tail_back by done. rewrite Pa. by apply list_insert_id.
    + intros m Hm. change (get_node sa m = get_node s m).
      by rewrite (store_node_get _ _ _ _ m Hsa), decide_False.
Qed.

Lemma ListAppend_then_ListUnlink_witness :
  exists s1 s2,
    ListAppend 5 O (O, 1%nat) Examples.cache_p1 = Some s1 /\
    ListUnlink (O, 1%nat) s1 = Some s2 /\
    m_page_sources s2 = m_page_sources Examples.cache_p1.
Proof.
  destruct (ListAppend_then_ListUnlink 5 O (O, 1%nat) Examples.cache_p1 null_list null_node)
    as (s1 & s2 & H1 & _ & _ & H2 & H3 & _).
  - vm_compute. reflexivity.
  - vm_compute. reflexivity.
  - reflexivity.
  - intros t Ht. discriminate Ht.
  - exists s1, s2. split; [exact H1|]. split; [exact H2|exact H3].
Defined.

End ListRoundTrip.

Module PostFXFacts.
Import PostProcessingShaderFX.

(** X23 -- [GetTextureByID] returns for the input colour ID and for the IDs
    below the number of textures, and panics for every other ID;
    [GetFramebufferByID] returns for the output colour ID and for the IDs
    of textures that have a framebuffer, which it returns, and panics for
    every other ID.  No reserved ID is served by both. *)
Theorem texture_id_lookups m_textures id input final_target :
  (is_Some (GetTextureByID m_textures id input final_target) <->
     id = INPUT_COLOR_TEXTURE \/ 0 <= id < Z.of_nat (length m_textures)) /\
  (is_Some (GetFramebufferByID m_textures id input final_target) <->
     id = OUTPUT_COLOR_TEXTURE \/
     exists t fb, 0 <= id /\ m_textures !! Z.to_nat id = Some t /\ framebuffer t = Some fb) /\
  (GetTextureByID m_textures INPUT_COLOR_TEXTURE input final_target = Some input) /\
  (GetFramebufferByID m_textures OUTPUT_COLOR_TEXTURE input final_target
     = Some final_target) /\
  (forall t, 0 <= id -> m_textures !! Z.to_nat id = Some t ->
     GetTextureByID m_textures id input final_target = Some (texture t) /\
     GetFramebufferByID m_textures id input final_target
       = (fun fb => Some fb) <$> framebuffer t /\
     GetTextureNameForID m_textures id = reshade_name t) /\
  (id < 0 ->
     ~ (is_Some (GetTextureByID m_textures id input final_target) /\
        is_Some (GetFramebufferByID m_textures id input final_target))).
Proof.
  unfold GetTextureByID, GetFramebufferByID, GetTextureNameForID,
    INPUT_COLOR_TEXTURE, INPUT_DEPTH_TEXTURE, OUTPUT_COLOR_TEXTURE.
  split; [|split; [|split; [done|split; [done|split]]]].
  - destruct (Z.ltb_spec id 0) as [Hneg|Hpos].
    + destruct (Z.eqb_spec id (-1)) as [->|Hne].
      * split; [by left|eauto].
      * assert (~ is_Some (@None (option nat))) as Hno by (by intros [? ?]).
        destruct (id =? -2), (id =? -3); split; try done; intros [?|?]; lia.
    + destruct (Z.leb_spec (Z.of_nat (length m_textures)) id) as [Hge|Hlt].
      * split; [by intros [? ?]|]. intros [?|?]; lia.
      * destruct (lookup_lt_is_Some_2 m_textures (Z.to_nat id)) as [t Ht]; [lia|].
        rewrite Ht. simpl. split; [intros _; right; lia|eauto].
  - destruct (Z.ltb_spec id 0) as [Hneg|Hpos].
    + destruct (Z.eqb_spec id (-3)) as [->|Hne].
      * split; [by left|eauto].
      * split; [by intros [? ?]|]. intros [?|(t & fb & ? & _)]; lia.
    + destruct (Z.leb_spec (Z.of_nat (length m_textures)) id) as [Hge|Hlt].
      * split; [by intros [? ?]|]. intros [?|(t & fb & _ & Ht & _)]; [lia|].
        apply lookup_lt_Some in Ht. lia.
      * destruct (lookup_lt_is_Some_2 m_textures (Z.to_nat id)) as [t Ht]; [lia|].
        rewrite Ht. simpl. destruct (framebuffer t) as [fb|] eqn:Hfb.
        -- split; [|eauto]. intros _. right. exists t, fb. done.
        -- split; [by intros [? ?]|]. intros [?|(t' & fb & _ & Ht' & Hfb')]; [lia|].
           congruence.
  - intros t Hpos Ht. pose proof (lookup_lt_Some _ _ _ Ht) as Hlt.
    destruct (Z.ltb_spec id 0) as [?|_]; [lia|].
    destruct (Z.leb_spec (Z.of_nat (length m_textures)) id) as [?|_]; [lia|].
    rewrite Ht. simpl. split; [done|]. split; [by destruct (framebuffer t)|].
    destruct (Z.eqb_spec id (-1)); [lia|]. destruct (Z.eqb_spec id (-2)); [lia|].
    by destruct (Z.eqb_spec id (-3)); [lia|].
  - intros Hneg [H1 H2]. destruct (Z.ltb_spec id 0) as [_|?]; [|lia].
    destruct (Z.eqb_spec id (-1)) as [->|Hne].
    + simpl in H2. by destruct H2.
    + destruct (id =? -2), (id =? -3); by destruct H1.
Qed.

(** *** Source options *)

(** X24 -- A uniform for which [GetSourceOption] succeeds gets a source option
    that fits its type: the float variants ([Timer], [FrameCountF],
    [BufferWidthF], [BufferHeightF]) only for a uniform of base type
    float, the integer variants only for another base type, the timer and
    frame count only for a scalar; never [MaxCount]; and for every option
    but [SourceOption_None], which [CreateOptions] does not store,
    [Apply] has a value to write, of float type only for a float
    uniform. *)
Theorem source_option_fits_uniform ui so :
  GetSourceOption ui = Some so ->
  so <> MaxCount /\
  (so = Timer \/ so = FrameCountF \/ so = BufferWidthF \/ so = BufferHeightF ->
     ui_type_base ui = t_float) /\
  (so = FrameCount \/ so = BufferWidth \/ so = BufferHeight ->
     ui_type_base ui <> t_float) /\
  (so = Timer \/ so = FrameCount \/ so = FrameCountF -> ui_components ui <= 1) /\
  (so <> SourceOption_None ->
     forall device timer m_frame_count,
     exists v, source_option_value device timer m_frame_count so = Some v /\
       match v with
       | F32 _ => ui_type_base ui = t_float
       | S32 _ => ui_type_base ui <> t_float
       | U32 _ => so = Zero \/ ui_type_base ui <> t_float
       end).
Proof.
  unfold GetSourceOption. intros H.
  repeat case_match; simplify_eq;
  repeat match goal with
         | E : _ || _ = false |- _ => apply orb_false_elim in E as [? ?]
         | E : negb _ = false |- _ => apply negb_false_iff in E
         | E : negb _ = true |- _ => apply negb_true_iff in E
         | E : bool_decide _ = true |- _ => apply bool_decide_eq_true_1 in E
         | E : bool_decide _ = false |- _ => apply bool_decide_eq_false_1 in E
         | E : (_ <? _) = false |- _ => apply Z.ltb_ge in E
         end;
  (split; [discriminate|]);
  (split; [intros [E|[E|[E|E]]]; try discriminate E; done|]);
  (split; [intros [E|[E|E]]; try discriminate E; done|]);
  (split; [intros [E|[E|E]]; try discriminate E; lia|]);
  intros Hne device timer fc; try done;
  eexists; (split; [reflexivity|]); simpl; auto.
Qed.

Lemma source_option_fits_uniform_witness :
  ui_type_base Examples.uniform_frame_count <> t_float.
Proof.
  destruct (source_option_fits_uniform Examples.uniform_frame_count FrameCount)
    as (_ & _ & H & _); [reflexivity|].
  apply H. left. reflexivity.
Defined.

(** X25 -- A uniform without a [source] annotation that is initialized with
    [BUFFER_WIDTH] gets the width option of its type, and with
    [BUFFER_HEIGHT] the height option.  For an integer uniform [Apply]
    then writes the default buffer width or height; for a float uniform
    it writes the default buffer height in both cases: the comparison
    that selects the width tests for the integer option there too. *)
Theorem buffer_size_uniform ui device timer m_frame_count :
  GetStringAnnotationValue (ui_annotations ui) Examples.name_source String.EmptyString
    = String.EmptyString ->
  ui_has_initializer_value ui = true ->
  (ui_initializer_string_data ui = Examples.name_BUFFER_WIDTH ->
     exists so, GetSourceOption ui = Some so /\
       source_option_value device timer m_frame_count so =
         Some (if bool_decide (ui_type_base ui = t_float)
               then F32 (SpecFloat.binary_normalize 24 128
                           (GetDefaultBufferHeight device) 0 false)
               else S32 (GetDefaultBufferWidth device))) /\
  (ui_initializer_string_data ui = Examples.name_BUFFER_HEIGHT ->
     exists so, GetSourceOption ui = Some so /\
       source_option_value device timer m_frame_count so =
         Some (if bool_decide (ui_type_base ui = t_float)
               then F32 (SpecFloat.binary_normalize 24 128
                           (GetDefaultBufferHeight device) 0 false)
               else S32 (GetDefaultBufferHeight device))).
Proof.
  intros Hsrc Hinit. unfold GetSourceOption.
  unfold Examples.name_source in Hsrc.
  unfold Examples.name_BUFFER_WIDTH, Examples.name_BUFFER_HEIGHT.
  rewrite Hsrc, Hinit. simpl.
  split; intros ->; simpl; eexists; (split; [reflexivity|]);
    by destruct (bool_decide (ui_type_base ui = t_float)).
Qed.

Lemma buffer_size_uniform_witness :
  exists so, GetSourceOption Examples.uniform_buffer_width = Some so /\
    source_option_value None GPU_HW.f32_zero 1 so =
      Some (F32 (SpecFloat.binary_normalize 24 128 DEFAULT_BUFFER_HEIGHT 0 false)).
Proof.
  destruct (buffer_size_uniform Examples.uniform_buffer_width None GPU_HW.f32_zero 1)
    as [Hw _]; [reflexivity|reflexivity|].
  apply Hw. reflexivity.
Defined.

End PostFXFacts.

Module PassFacts.
Import PostProcessingShaderFX PassSpec.

Section Device.
Variable image_loads : String.string -> bool.
Variable device_ok : nat -> bool.
Variable nearest : Config.

Lemma device_create_state st h st' :
  device_create device_ok st = (h, st') ->
  m_textures st' = m_textures st /\ m_passes st' = m_passes st /\
  (h = None \/ exists n, h = Some n).
Proof.
  unfold device_create. intros [= <- <-]. simpl. split; [done|]. split; [done|].
  destruct (device_ok (device_calls st)); eauto.
Qed.

Lemma create_textures_grows textures : forall st b st',
  create_textures image_loads device_ok textures st = Some (b, st') ->
  m_passes st' = m_passes st /\ exists added, m_textures st' = m_textures st ++ added.
Proof.
  induction textures as [|ti rest IH]; intros st b st' H; cbn [create_textures] in H.
  - injection H as <- <-. split; [done|]. exists []. by rewrite app_nil_r.
  - repeat case_match; simplify_eq/=;
      try (split; [done|]; exists []; by rewrite app_nil_r).
    + by apply IH in H.
    + destruct (MapTextureFormat (ti_format ti)) as [fmt|]; simpl in H; [|done].
      apply IH in H as [-> [added ->]]. simpl. split; [done|].
      eexists. by rewrite <- app_assoc.
    + match goal with E : device_create _ _ = _ |- _ =>
        apply device_create_state in E as (Et & Ep & _) end.
      apply IH in H as [-> [added ->]]. simpl. rewrite Et, Ep. split; [done|].
      eexists. by rewrite <- app_assoc.
    + match goal with E : device_create _ _ = _ |- _ =>
        apply device_create_state in E as (Et & Ep & _) end.
      rewrite Et, Ep. split; [done|]. exists []. by rewrite app_nil_r.
Qed.

Lemma find_texture_range name textures : forall i j,
  find_texture name textures i = Some j -> (i <= j < i + length textures)%nat.
Proof.
  induction textures as [|t rest IH]; intros i j H; cbn [find_texture] in H; [done|].
  destruct (String.eqb (reshade_name t) name).
  - injection H as <-. simpl. lia.
  - apply IH in H. simpl. lia.
Qed.

Lemma sampler_texture_id_range textures ts name id :
  sampler_texture_id textures ts name = Some id ->
  id = INPUT_COLOR_TEXTURE \/ id = INPUT_DEPTH_TEXTURE \/ 0 <= id <= Z.of_nat (length ts).
Proof.
  induction textures as [|ti rest IH]; cbn [sampler_texture_id]; intros H.
  - injection H as <-. right. right. lia.
  - repeat case_match; simplify_eq/=; auto.
    + match goal with E : find_texture _ _ _ = Some _ |- _ =>
        apply find_texture_range in E end. right. right. lia.
    + right. right. lia.
Qed.

Lemma wrap32_succ a : wrap32 (wrap32 a + 1) = wrap32 (a + 1).
Proof. unfold wrap32. by rewrite Zplus_mod_idemp_l. Qed.

Lemma wrap32_add_l a b : wrap32 (wrap32 a + b) = wrap32 (a + b).
Proof. unfold wrap32. by rewrite Zplus_mod_idemp_l. Qed.

Lemma sampler_id_ok_mono n n' id : (n <= n')%nat -> sampler_id_ok n id -> sampler_id_ok n' id.
Proof. unfold sampler_id_ok. intros Hn [?|[?|?]]; auto. right. right. lia. Qed.

Lemma good_sampler_mono n n' s0 k sm :
  (n <= n')%nat -> good_sampler n s0 k sm -> good_sampler n' s0 k sm.
Proof. intros Hn (? & ? & ?). repeat split; eauto using sampler_id_ok_mono. Qed.

Lemma create_samplers_spec textures sis : forall s0 acc st out st',
  create_samplers device_ok nearest textures sis s0 acc st = Some (true, out, st') ->
  m_textures st' = m_textures st /\ m_passes st' = m_passes st /\
  exists new, out = acc ++ new /\ length new = length sis /\
    forall k sm, new !! k = Some sm ->
      slot sm = (if k is O then s0 else wrap32 (s0 + Z.of_nat k)) /\
      is_Some (sampler sm) /\
      sampler_id_ok (length (m_textures st)) (texture_id sm).
Proof.
  induction sis as [|si rest IH]; intros s0 acc st out st' H; cbn [create_samplers] in H.
  - injection H as <- <-. split; [done|]. split; [done|]. exists [].
    split; [by rewrite app_nil_r|]. split; [done|]. intros k sm Hk. by rewrite lookup_nil in Hk.
  - destruct (sampler_texture_id textures (m_textures st) (si_texture_name si))
      as [id|] eqn:Hid; [|done].
    destruct (Z.eqb_spec id (Z.of_nat (length (m_textures st)))) as [|Hne]; [done|].
    destruct (MapSampler nearest si) as [cfg|]; cbn [mbind option_bind] in H; [|done].
    destruct (device_create device_ok st) as [[h|] st1] eqn:Hdev; [|done].
    apply device_create_state in Hdev as (Et & Ep & _).
    apply IH in H as (Et' & Ep' & new & -> & Hlen & Hnew).
    rewrite Et', Ep', Et, Ep. split; [done|]. split; [done|].
    eexists (_ :: new). split; [by rewrite <- app_assoc|]. split; [simpl; lia|].
    intros k sm Hk. destruct k as [|k]; simpl in Hk.
    + injection Hk as <-. simpl. split; [done|]. split; [eauto|].
      apply sampler_texture_id_range in Hid. unfold sampler_id_ok.
      destruct Hid as [?|[?|?]]; auto. right. right. lia.
    + destruct (Hnew k sm Hk) as (Hs & Hh & Hi). rewrite Et in Hi.
      split; [|done]. rewrite Hs. destruct k as [|k].
      * f_equal.
      * rewrite wrap32_add_l. f_equal. lia.
Qed.

Lemma good_pass_mono n n' total k p :
  (n <= n')%nat -> good_pass n total k p -> good_pass n' total k p.
Proof.
  intros Hn (H1 & H2 & H3). split; [done|]. split; [intros ?%H2; lia|].
  intros j sm Hj. eapply good_sampler_mono; eauto.
Qed.

Lemma create_passes_spec fmt textures passes : forall st st',
  create_passes device_ok nearest fmt textures passes st = Some (true, st') ->
  exists new_textures new_passes,
    m_textures st' = m_textures st ++ new_textures /\
    m_passes st' = m_passes st ++ new_passes /\
    length new_passes = length passes /\
    forall k p, new_passes !! k = Some p ->
      good_pass (length (m_textures st')) (length passes) k p.
Proof.
  induction passes as [|pi rest IH]; intros st st' H; cbn [create_passes] in H.
  - injection H as <-. exists [], []. rewrite !app_nil_r. split; [done|]. split; [done|].
    split; [done|]. intros k p Hk. by rewrite lookup_nil in Hk.
  - set (target := if match rest with [] => true | _ => false end
                   then Some (OUTPUT_COLOR_TEXTURE, st) else _) in H.
    destruct target as [[rt st1]|] eqn:Htarget; [|done].
    assert (exists added, m_textures st1 = m_textures st ++ added /\
              m_passes st1 = m_passes st /\
              (rest = [] -> rt = OUTPUT_COLOR_TEXTURE) /\
              (rest <> [] -> 0 <= rt < Z.of_nat (length (m_textures st1)))) as Hst1.
    { unfold target in Htarget. destruct rest as [|pi2 rest2].
      - injection Htarget as <- <-. exists []. by rewrite app_nil_r.
      - destruct (negb (String.eqb (pi_render_target_name pi) String.EmptyString)).
        + destruct (find_texture (pi_render_target_name pi) (m_textures st) 0) as [i|] eqn:Hf;
            [|done].
          injection Htarget as <- <-. exists []. rewrite app_nil_r.
          apply find_texture_range in Hf. repeat split; try done; lia.
        + injection Htarget as <- <-. eexists. simpl. split; [done|]. split; [done|].
          split; [done|]. intros _. rewrite length_app. simpl. lia. }
    clear Htarget target. destruct Hst1 as (added & Et1 & Ep1 & Hfin & Hnon).
    destruct (create_samplers device_ok nearest textures (pi_samplers pi) 0 [] st1)
      as [[[b sms] st2]|] eqn:Hs; simpl in H; [|done].
    destruct b; [|done].
    apply create_samplers_spec in Hs as (Et2 & Ep2 & new & Hnew & Hlen & Hgood).
    simpl in Hnew. subst sms.
    apply IH in H as (nt & np & Et' & Ep' & Hlen' & Hgood').
    simpl in Et', Ep'.
    exists (added ++ nt), ({| render_target := rt; samplers := new |} :: np).
    split; [by rewrite Et', Et2, Et1, <- app_assoc|].
    split; [by rewrite Ep', Ep2, Ep1, <- app_assoc|].
    split; [simpl; lia|].
    assert (length (m_textures st1) <= length (m_textures st'))%nat as Hle.
    { rewrite Et', Et2, length_app. lia. }
    intros k p Hk. destruct k as [|k]; simpl in Hk.
    + injection Hk as <-. split; [|split]; simpl.
      * intros Hone. apply Hfin. apply nil_length_inv. lia.
      * intros Hmore. assert (rest <> []) as Hr by (intros ->; simpl in Hmore; lia).
        specialize (Hnon Hr). lia.
      * intros j sm Hj. destruct (Hgood j sm Hj) as (Hsl & Hh & Hi).
        split; [|split; [done|]].
        -- rewrite Hsl. destruct j; [done|]. done.
        -- eapply sampler_id_ok_mono; [|exact Hi]. done.
    + destruct (Hgood' k p Hk) as (H1 & H2 & H3). split; [|split]; simpl.
      * intros Hone. apply H1. lia.
      * intros Hmore. apply H2. lia.
      * exact H3.
Qed.

Lemma GetTextureByID_panics ts id input final :
  sampler_id_ok (length ts) id ->
  (GetTextureByID ts id input final = None <-> id = INPUT_DEPTH_TEXTURE).
Proof.
  unfold sampler_id_ok, GetTextureByID, INPUT_COLOR_TEXTURE, INPUT_DEPTH_TEXTURE.
  intros [->|[->|Hr]]; [done|done|].
  destruct (Z.ltb_spec id 0); [lia|].
  destruct (Z.leb_spec (Z.of_nat (length ts)) id); [lia|].
  destruct (lookup_lt_is_Some_2 ts (Z.to_nat id)) as [t Ht]; [lia|].
  rewrite Ht. simpl. split; [done|lia].
Qed.

(** X22 -- When [CreatePasses] succeeds it has added one pass for each pass of
    the technique, and textures only at the end of [m_textures].  The
    last pass renders to the output colour ID and every other pass to the
    ID of an existing texture.  The samplers of a pass have the slots 0,
    1, 2, ... in order, each a device sampler and the ID of the input
    colour, of the input depth or of an existing texture; so in [Apply]
    the lookup of a sampler's texture panics exactly for a sampler of the
    input depth. *)
Theorem CreatePasses_texture_ids fmt textures passes st st' :
  CreatePasses image_loads device_ok nearest fmt textures passes st = Some (true, st') ->
  passes <> [] /\
  exists new_textures new_passes,
    m_textures st' = m_textures st ++ new_textures /\
    m_passes st' = m_passes st ++ new_passes /\
    length new_passes = length passes /\
    forall k p, new_passes !! k = Some p ->
      (S k = length passes -> render_target p = OUTPUT_COLOR_TEXTURE) /\
      ((S k < length passes)%nat ->
         0 <= render_target p < Z.of_nat (length (m_textures st'))) /\
      forall j sm, samplers p !! j = Some sm ->
        slot sm = wrap32 (Z.of_nat j) /\ is_Some (sampler sm) /\
        (texture_id sm = INPUT_COLOR_TEXTURE \/ texture_id sm = INPUT_DEPTH_TEXTURE \/
         0 <= texture_id sm < Z.of_nat (length (m_textures st'))) /\
        forall input final,
          GetTextureByID (m_textures st') (texture_id sm) input final = None <->
          texture_id sm = INPUT_DEPTH_TEXTURE.
Proof.
  unfold CreatePasses. intros H. destruct passes as [|pi rest]; [done|]. split; [done|].
  destruct (create_textures image_loads device_ok textures st) as [[b st1]|] eqn:Ht;
    cbn [mbind option_bind] in H; [|done].
  destruct b; [|done].
  apply create_textures_grows in Ht as [Ep1 [added Et1]].
  apply create_passes_spec in H as (nt & np & Et' & Ep' & Hlen & Hgood).
  exists (added ++ nt), np.
  split; [by rewrite Et', Et1, <- app_assoc|]. split; [by rewrite Ep', Ep1|].
  split; [done|]. intros k p Hk. destruct (Hgood k p Hk) as (H1 & H2 & H3).
  split; [done|]. split; [done|]. intros j sm Hj.
  destruct (H3 j sm Hj) as (Hs & Hh & Hi). rewrite Z.add_0_l in Hs.
  split; [done|]. split; [done|]. split; [done|].
  intros input final. by apply GetTextureByID_panics.
Qed.

End Device.

Lemma CreatePasses_texture_ids_witness :
  exists st',
    CreatePasses (fun _ => true) (fun _ => true) Examples.nearest_config RGBA8
      Examples.two_textures Examples.two_passes Examples.no_passes = Some (true, st') /\
    length (m_passes st') = 2%nat.
Proof.
  destruct (CreatePasses (fun _ => true) (fun _ => true) Examples.nearest_config RGBA8
              Examples.two_textures Examples.two_passes Examples.no_passes)
    as [[[|] st']|] eqn:E; try (vm_compute in E; discriminate E).
  exists st'. split; [reflexivity|].
  destruct (CreatePasses_texture_ids _ _ _ _ _ _ _ _ E) as (_ & nt & np & _ & Ep & Hlen & _).
  rewrite Ep, length_app, Hlen. reflexivity.
Defined.

End PassFacts.
